(** * Textworld: the room registry, the creation wizard and the round engine

    A shallow embedding of [src/main.py] (the Textworld plugin, v2.6.0) and
    the properties of its specification that can be settled on it.

    Conventions of the embedding.
    - Python [int] is [Z].
    - Identifiers, display names, reply addresses and action texts are
      [string]: the program only compares them and tests them for
      emptiness.  Texts that the program measures, slices, strips or
      lower-cases (wizard input, world settings, the narrator's response)
      are [text], a list of Unicode code points, so that [length] is
      Python's [len].
    - [Room.active_players], [Room.pending_players] and the per-round action
      table are Python dicts that the program iterates over: they are
      insertion-ordered association lists ([Dict.t]).  The registry tables
      ([rooms], [player_room_map], [timeout_tasks]) are only looked up,
      inserted into and deleted from: they are [gmap]s.
    - Objects are mutated in place in the source; here every method takes the
      old value and returns the new one, and a method of [RoomManager] that
      mutates a room stores the new room back under the key it was found at.
    - The float timestamps ([join_time], [created_at], [round_start_time],
      ...) are written but never read by the code modelled here and are left
      out. *)

From Stdlib Require Import ZArith NArith Ascii String.
From stdpp Require Import base option gmap strings list fin_maps.

Set Warnings "-clear-no-such-hyp".

Open Scope string_scope.
Open Scope Z_scope.
Open Scope list_scope.

(** ** Python values *)

(** A Python [str] whose characters matter: the list of its code points. *)
Abbreviation text := (list N).

(** [bool(s)] for an optional string: [None] and the empty string are falsy. *)
Definition truthy (o : option string) : bool :=
  match o with
  | Some s => negb (bool_decide (s = ""))
  | None => false
  end.

(** [a or b] on strings, [a] possibly [None]. *)
Definition str_or (a : option string) (b : string) : string :=
  match a with
  | Some s => if bool_decide (s = "") then b else s
  | None => b
  end.

(** ** Insertion-ordered dictionaries with string keys *)

Module Dict.
Section dict.
Context {V : Type}.

Definition t := list (string * V).

Definition keys (d : t) : list string := d.*1.
Definition values (d : t) : list V := d.*2.

(** [d.get(k)] *)
Fixpoint get (k : string) (d : t) : option V :=
  match d with
  | [] => None
  | (k', v) :: d' => if decide (k = k') then Some v else get k d'
  end.

(** [d[k] = v]: an existing key keeps its position, a new key goes last. *)
Fixpoint set (k : string) (v : V) (d : t) : t :=
  match d with
  | [] => [(k, v)]
  | (k', v') :: d' =>
      if decide (k = k') then (k, v) :: d' else (k', v') :: set k v d'
  end.

(** [d.pop(k, None)], the popped value dropped. *)
Fixpoint pop (k : string) (d : t) : t :=
  match d with
  | [] => []
  | (k', v') :: d' =>
      if decide (k = k') then pop k d' else (k', v') :: pop k d'
  end.

(** The same dictionary with every value replaced by its image, as a loop
    [for v in d.values(): mutate(v)] leaves it. *)
Definition map_values (f : V → V) (d : t) : t := prod_map id f <$> d.

End dict.
Arguments t : clear implicits.
End Dict.


(** ** Data model (the enums and dataclasses of [src/main.py]) *)

Module RoomStatus.
Inductive t := WAITING | CHARACTER_CREATION | ACTIVE | PAUSED | CLOSED.
#[global] Instance eq_dec : EqDecision t.
Proof. solve_decision. Defined.
End RoomStatus.

Module PlayerStatus.
Inductive t := ACTIVE | PENDING | TIMEOUT | ACTED | CREATING_CHAR | CHAR_DONE.
#[global] Instance eq_dec : EqDecision t.
Proof. solve_decision. Defined.
End PlayerStatus.

Module CreationStep.
Inductive t :=
  ROOM_NAME | TIMEOUT | WORLD_SETTING | WORLD_TOO_LONG | SUMMARIZING | CONFIRM.
#[global] Instance eq_dec : EqDecision t.
Proof. solve_decision. Defined.
End CreationStep.

Module Player.
Record t := mk {
  player_id : string;
  player_name : string;
  unified_msg_origin : string;
  character_name : option string;
  character_setting : option string;
  status : PlayerStatus.t;
  current_action : option string;
}.

(** [Player(player_id=.., player_name=.., unified_msg_origin=..)] *)
Definition new (pid name umo : string) : t :=
  mk pid name umo None None PlayerStatus.ACTIVE None.

Definition set_status (s : PlayerStatus.t) (p : t) : t :=
  mk (player_id p) (player_name p) (unified_msg_origin p)
     (character_name p) (character_setting p) s (current_action p).

Definition set_current_action (a : option string) (p : t) : t :=
  mk (player_id p) (player_name p) (unified_msg_origin p)
     (character_name p) (character_setting p) (status p) a.

Definition set_character (name setting : option string) (p : t) : t :=
  mk (player_id p) (player_name p) (unified_msg_origin p)
     name setting (status p) (current_action p).

Definition reset_for_new_round (p : t) : t :=
  set_current_action None (set_status PlayerStatus.ACTIVE p).

Definition has_character (p : t) : bool :=
  match character_name p, character_setting p with
  | Some _, Some _ => true
  | _, _ => false
  end.

(** [p.character_name or p.player_name] *)
Definition display_name (p : t) : string :=
  str_or (character_name p) (player_name p).
End Player.

Module PendingConfig.
Record t := mk {
  timeout : option Z;
  correction_text : option string;
}.
Definition new : t := mk None None.
End PendingConfig.

Module GameHistory.
Record t := mk {
  round_number : Z;
  player_actions : Dict.t string;
  dm_response : text;
}.
End GameHistory.

Module Room.
Record t := mk {
  room_id : string;
  room_name : string;
  host_id : string;
  host_umo : string;
  world_setting : text;
  original_world_setting : option text;
  status : RoomStatus.t;
  paused : bool;
  active_players : Dict.t Player.t;
  pending_players : Dict.t Player.t;
  timeout : Z;
  char_creation_timeout : Z;
  pending_config : PendingConfig.t;
  current_round : Z;
  history : list GameHistory.t;
}.

Definition set_status (s : RoomStatus.t) (r : t) : t :=
  mk (room_id r) (room_name r) (host_id r) (host_umo r) (world_setting r)
     (original_world_setting r) s (paused r) (active_players r)
     (pending_players r) (timeout r) (char_creation_timeout r)
     (pending_config r) (current_round r) (history r).

Definition set_paused (b : bool) (r : t) : t :=
  mk (room_id r) (room_name r) (host_id r) (host_umo r) (world_setting r)
     (original_world_setting r) (status r) b (active_players r)
     (pending_players r) (timeout r) (char_creation_timeout r)
     (pending_config r) (current_round r) (history r).

Definition set_active_players (d : Dict.t Player.t) (r : t) : t :=
  mk (room_id r) (room_name r) (host_id r) (host_umo r) (world_setting r)
     (original_world_setting r) (status r) (paused r) d
     (pending_players r) (timeout r) (char_creation_timeout r)
     (pending_config r) (current_round r) (history r).

Definition set_pending_players (d : Dict.t Player.t) (r : t) : t :=
  mk (room_id r) (room_name r) (host_id r) (host_umo r) (world_setting r)
     (original_world_setting r) (status r) (paused r) (active_players r)
     d (timeout r) (char_creation_timeout r)
     (pending_config r) (current_round r) (history r).

Definition set_timeout (n : Z) (r : t) : t :=
  mk (room_id r) (room_name r) (host_id r) (host_umo r) (world_setting r)
     (original_world_setting r) (status r) (paused r) (active_players r)
     (pending_players r) n (char_creation_timeout r)
     (pending_config r) (current_round r) (history r).

Definition set_pending_config (c : PendingConfig.t) (r : t) : t :=
  mk (room_id r) (room_name r) (host_id r) (host_umo r) (world_setting r)
     (original_world_setting r) (status r) (paused r) (active_players r)
     (pending_players r) (timeout r) (char_creation_timeout r)
     c (current_round r) (history r).

Definition set_current_round (n : Z) (r : t) : t :=
  mk (room_id r) (room_name r) (host_id r) (host_umo r) (world_setting r)
     (original_world_setting r) (status r) (paused r) (active_players r)
     (pending_players r) (timeout r) (char_creation_timeout r)
     (pending_config r) n (history r).

Definition set_history (h : list GameHistory.t) (r : t) : t :=
  mk (room_id r) (room_name r) (host_id r) (host_umo r) (world_setting r)
     (original_world_setting r) (status r) (paused r) (active_players r)
     (pending_players r) (timeout r) (char_creation_timeout r)
     (pending_config r) (current_round r) h.

Definition get_all_players (r : t) : list Player.t :=
  Dict.values (active_players r) ++ Dict.values (pending_players r).

Definition get_unique_origins (r : t) : gset string :=
  list_to_set (Player.unified_msg_origin <$> get_all_players r).

Definition get_active_player_count (r : t) : Z :=
  Z.of_nat (length (active_players r)).

Definition is_host (player_id : string) (r : t) : bool :=
  bool_decide (player_id = host_id r).

(** The loop moves every pending player, in order, into [active_players]
    under its key, with status ACTIVE; then [pending_players] is cleared. *)
Definition activate_pending_players (r : t) : t :=
  set_pending_players []
    (set_active_players
       (foldl (λ act kp, Dict.set kp.1 (Player.set_status PlayerStatus.ACTIVE kp.2) act)
              (active_players r) (pending_players r))
       r).

Definition apply_pending_config (r : t) : t :=
  match PendingConfig.timeout (pending_config r) with
  | Some n => set_timeout n r
  | None => r
  end.

Definition start_character_creation (r : t) : t :=
  set_active_players
    (Dict.map_values (Player.set_status PlayerStatus.CREATING_CHAR)
                     (active_players r))
    (set_status RoomStatus.CHARACTER_CREATION r).

Definition check_all_characters_done (r : t) : bool :=
  forallb (λ p, bool_decide (Player.status p = PlayerStatus.CHAR_DONE))
          (Dict.values (active_players r)).

Definition start_new_round (r : t) : t :=
  set_active_players
    (Dict.map_values Player.reset_for_new_round (active_players r))
    (set_current_round (current_round r + 1) r).

Definition check_all_players_acted (r : t) : bool :=
  forallb (λ p, bool_decide (Player.status p ≠ PlayerStatus.ACTIVE))
          (Dict.values (active_players r)).

Definition check_all_players_timeout (r : t) : bool :=
  forallb (λ p, bool_decide (Player.status p = PlayerStatus.TIMEOUT))
          (Dict.values (active_players r)).

(** The dict comprehension [{name: action for p in ... if p.current_action}]:
    a later player with the same display name overwrites the earlier entry. *)
Definition get_round_actions (r : t) : Dict.t string :=
  foldl (λ acc p,
           match Player.current_action p with
           | Some a =>
               if bool_decide (a = "") then acc
               else Dict.set (Player.display_name p) a acc
           | None => acc
           end)
        [] (Dict.values (active_players r)).
End Room.

(** ** The room manager *)

Module RoomManager.
Record t := mk {
  rooms : gmap string Room.t;
  player_room_map : gmap string string;
  max_rooms : Z;
}.

(** [RoomManager(max_rooms)] *)
Definition new (max_rooms : Z) : t := mk ∅ ∅ max_rooms.

Definition can_create_room (m : t) : bool :=
  bool_decide (Z.of_nat (size (rooms m)) < max_rooms m).

(** [create_room]; [room_id] stands for the value of
    [str(uuid.uuid4())[:8]] drawn by this call. *)
Definition create_room (room_id : string)
    (host_id host_name host_umo room_name : string) (world_setting : text)
    (timeout char_timeout : Z) (original_world_setting : option text)
    (m : t) : option Room.t * t :=
  if negb (can_create_room m)
     || bool_decide (is_Some (player_room_map m !! host_id))
  then (None, m)
  else
    let host_player := Player.new host_id host_name host_umo in
    let room :=
      Room.mk room_id room_name host_id host_umo world_setting
        original_world_setting RoomStatus.WAITING false
        [(host_id, host_player)] [] timeout char_timeout
        PendingConfig.new 0 [] in
    (Some room,
     mk (<[room_id := room]> (rooms m))
        (<[host_id := room_id]> (player_room_map m))
        (max_rooms m)).

Definition get_room (room_id : string) (m : t) : option Room.t :=
  rooms m !! room_id.

(** [self.rooms.get(room_id) if room_id else None]: an empty room id in the
    reverse index is falsy. *)
Definition get_room_by_player (player_id : string) (m : t) : option Room.t :=
  match player_room_map m !! player_id with
  | Some room_id => if bool_decide (room_id = "") then None else rooms m !! room_id
  | None => None
  end.

Definition join_room (room_id player_id player_name player_umo : string)
    (max_players : Z) (m : t) : (bool * string) * t :=
  match get_room room_id m with
  | None => ((false, "房间不存在"), m)
  | Some room =>
      if bool_decide (Room.status room = RoomStatus.CLOSED)
      then ((false, "房间已关闭"), m)
      else if bool_decide (Room.status room = RoomStatus.CHARACTER_CREATION)
              || bool_decide (Room.status room = RoomStatus.ACTIVE)
      then ((false, "游戏已开始"), m)
      else if bool_decide (is_Some (player_room_map m !! player_id))
      then ((false, "已在其他房间"), m)
      else if bool_decide
                (max_players ≤ Room.get_active_player_count room
                               + Z.of_nat (length (Room.pending_players room)))
      then ((false, "房间已满"), m)
      else
        let player := Player.new player_id player_name player_umo in
        let room' :=
          if Room.paused room
          then Room.set_pending_players
                 (Dict.set player_id
                    (Player.set_status PlayerStatus.PENDING player)
                    (Room.pending_players room)) room
          else Room.set_active_players
                 (Dict.set player_id player (Room.active_players room)) room in
        ((true, "已加入"),
         mk (<[room_id := room']> (rooms m))
            (<[player_id := room_id]> (player_room_map m))
            (max_rooms m))
  end.

Definition close_room (room_id : string) (m : t) : bool * t :=
  match get_room room_id m with
  | None => (false, m)
  | Some room =>
      (true,
       mk (delete room_id (rooms m))
          (foldl (λ prm p, delete (Player.player_id p) prm)
                 (player_room_map m) (Room.get_all_players room))
          (max_rooms m))
  end.

(** The room object found through the reverse index is the one stored under
    the key [player_room_map[player_id]]; the two [pop]s mutate it there. *)
Definition leave_room (player_id : string) (m : t) : (bool * string) * t :=
  match get_room_by_player player_id m with
  | None => ((false, "不在房间中"), m)
  | Some room =>
      let key := default "" (player_room_map m !! player_id) in
      let room' :=
        Room.set_pending_players (Dict.pop player_id (Room.pending_players room))
          (Room.set_active_players
             (Dict.pop player_id (Room.active_players room)) room) in
      let m' := mk (<[key := room']> (rooms m))
                   (delete player_id (player_room_map m))
                   (max_rooms m) in
      if bool_decide (player_id = Room.host_id room')
      then ((true, "房主离开，房间关闭"), (close_room (Room.room_id room') m').2)
      else ((true, "已离开"), m')
  end.

Definition pause_room (room_id player_id : string) (m : t)
    : (bool * string) * t :=
  match get_room room_id m with
  | None => ((false, "房间不存在"), m)
  | Some room =>
      if negb (Room.is_host player_id room) then ((false, "非房主"), m)
      else if Room.paused room then ((false, "已暂停"), m)
      else
        let room' := Room.set_status RoomStatus.PAUSED
                       (Room.set_paused true room) in
        ((true, "已暂停"),
         mk (<[room_id := room']> (rooms m)) (player_room_map m) (max_rooms m))
  end.

Definition resume_room (room_id player_id : string) (m : t)
    : (bool * string) * t :=
  match get_room room_id m with
  | None => ((false, "房间不存在"), m)
  | Some room =>
      if negb (Room.is_host player_id room) then ((false, "非房主"), m)
      else if negb (Room.paused room) then ((false, "未暂停"), m)
      else
        let room' :=
          Room.set_status RoomStatus.ACTIVE
            (Room.set_paused false
               (Room.activate_pending_players
                  (Room.apply_pending_config room))) in
        ((true, "已恢复"),
         mk (<[room_id := room']> (rooms m)) (player_room_map m) (max_rooms m))
  end.
End RoomManager.

(** ** Text helpers *)

(** [len(s)] *)
Definition len (s : text) : Z := Z.of_nat (length s).

(** [s[:n]] for an [int] n: a negative [n] counts from the end. *)
Definition slice_to (n : Z) (s : text) : text :=
  if bool_decide (n < 0)
  then take (length s - Z.to_nat (- n))%nat s
  else take (Z.to_nat n) s.

(** The code points [str.strip()] removes: Python's Unicode white space. *)
Definition is_space (c : N) : bool :=
  ((9 <=? c) && (c <=? 13) || (28 <=? c) && (c <=? 32)
   || (c =? 133) || (c =? 160) || (c =? 5760)
   || (8192 <=? c) && (c <=? 8202) || (c =? 8232) || (c =? 8233)
   || (c =? 8239) || (c =? 8287) || (c =? 12288))%N.

Fixpoint lstrip (s : text) : text :=
  match s with
  | c :: s' => if is_space c then lstrip s' else s
  | [] => []
  end.

(** [s.strip()] *)
Definition strip (s : text) : text := rev (lstrip (rev (lstrip s))).

(** What [str.lower()] makes of one code point: A-Z go to a-z, U+212A (the
    Kelvin sign) goes to "k" and U+0130 (capital I with dot above) to "i"
    followed by U+0307.  These are the only code points whose lower-case
    form contains an ASCII character. *)
Definition lower_char (c : N) : text :=
  (if (65 <=? c) && (c <=? 90) then [c + 32]
   else if c =? 8490 then [107]
   else if c =? 304 then [105; 775]
   else [c])%N.

(** [s.lower()].  Exact on every text whose cased letters are among the code
    points above.  Any other cased letter is left as it is, where Python
    replaces it by other code points above 127; neither is white space nor
    occurs in a keyword of the source, and the lowered text is only ever
    stripped and compared with those keywords, so every such comparison is
    decided as in Python. *)
Definition lower (s : text) : text := s ≫= lower_char.

(** An ASCII literal as a [text]. *)
Definition lit (s : string) : text :=
  N_of_ascii <$> list_ascii_of_string s.

(** The non-ASCII literals of the source, by code point. *)
Definition kw_default_zh : text := [40664; 35748]%N.      (* "默认" *)
Definition kw_summarize_zh : text := [24635; 32467]%N.    (* "总结" *)
Definition kw_truncate_zh : text := [25130; 26029]%N.     (* "截断" *)
Definition kw_keep_zh : text := [20445; 30041]%N.         (* "保留" *)
Definition no_response : text :=                          (* "（无响应）" *)
  [65288; 26080; 21709; 24212; 65289]%N.
Definition default_opening : text :=                      (* "冒险开始了..." *)
  [20882; 38505; 24320; 22987; 20102; 46; 46; 46]%N.

(** [x in [..]] on texts *)
Definition text_in (x : text) (l : list text) : bool := bool_decide (x ∈ l).

(** ** The collaborators, as seen by the core *)

(** What awaiting [context.get_current_chat_provider_id(umo)] yields: an
    exception, or a provider id that may be [None] or empty. *)
Inductive ProviderOutcome :=
| ProviderRaise
| ProviderId (id : option string).

(** What awaiting [context.llm_generate(...)] yields: an exception, or a
    response object [resp] that may be [None] and whose [completion_text]
    may be [None]. *)
Inductive LlmOutcome :=
| LlmRaise
| LlmResp (resp : option (option text)).

(** [resp and resp.completion_text]: the text when both are truthy. *)
Definition completion_text (resp : option (option text)) : option text :=
  match resp with
  | Some (Some (c :: s)) => Some (c :: s)
  | _ => None
  end.

(** ** Plugin configuration (the fields read by the code modelled here) *)

Module Config.
Record t := mk {
  max_players : Z;
  default_timeout : Z;
  char_creation_timeout : Z;
  world_setting_max_length : Z;
  world_template : text;
}.
End Config.

(** ** The creation wizard *)

Module PendingCreation.
Record t := mk {
  player_id : string;
  player_name : string;
  player_umo : string;
  step : CreationStep.t;
  room_name : option string;
  timeout : option Z;
  world_setting : option text;
  original_world_setting : option text;
}.

Definition set_step (s : CreationStep.t) (p : t) : t :=
  mk (player_id p) (player_name p) (player_umo p) s (room_name p)
     (timeout p) (world_setting p) (original_world_setting p).

Definition set_world_setting (w : option text) (p : t) : t :=
  mk (player_id p) (player_name p) (player_umo p) (step p) (room_name p)
     (timeout p) w (original_world_setting p).

Definition set_original_world_setting (w : option text) (p : t) : t :=
  mk (player_id p) (player_name p) (player_umo p) (step p) (room_name p)
     (timeout p) (world_setting p) w.
End PendingCreation.

(** Why [_summarize_world_setting] failed. *)
Inductive SummarizeError :=
| ErrNoProvider      (* "无AI服务" *)
| ErrSummaryFailed   (* "AI总结失败" *)
| ErrRaised.         (* str(e)[:20] *)

(** The replies of the two wizard steps modelled, one constructor per
    [event.plain_result(...)] of the source, with the numbers it prints. *)
Inductive WizardReply :=
| ReplyWorldTooShort                       (* "❌ 世界观至少需要 10 个字" *)
| ReplyWorldTooLong (n : Z)                (* "⚠️ 世界观过长！..." *)
| ReplyConfirm (p : PendingCreation.t)     (* _show_confirm(event, pending) *)
| ReplySummarizing (n : Z)                 (* "⏳ AI正在总结 n 字..." *)
| ReplySummaryDone (n m : Z)               (* "✅ 总结完成: n → m 字" *)
| ReplySummaryFailed (e : SummarizeError)  (* "❌ 总结失败: ..." *)
| ReplyTruncated (n : Z)                   (* "✅ 已截断为前 n 字" *)
| ReplyKept (n : Z)                        (* "✅ 保留全部 n 字" *)
| ReplyNewWorldSaved (n : Z)               (* "✅ 新世界观已保存 (n字)" *)
| ReplyStillTooLong (n : Z)                (* "⚠️ 仍然过长 (n字)..." *)
| ReplyChoose.                             (* "❓ 请选择：..." *)

Section wizard.
Variable cfg : Config.t.

Definition _handle_world_setting (pending : PendingCreation.t) (txt : text)
    : PendingCreation.t * WizardReply :=
  if text_in txt [kw_default_zh; lit "default"]
     && negb (bool_decide (Config.world_template cfg = []))
  then
    let pending' :=
      PendingCreation.set_step CreationStep.CONFIRM
        (PendingCreation.set_world_setting
           (Some (Config.world_template cfg)) pending) in
    (pending', ReplyConfirm pending')
  else if bool_decide (len txt < 10) then (pending, ReplyWorldTooShort)
  else if bool_decide (len txt > Config.world_setting_max_length cfg) then
    (PendingCreation.set_step CreationStep.WORLD_TOO_LONG
       (PendingCreation.set_original_world_setting (Some txt) pending),
     ReplyWorldTooLong (len txt))
  else
    let pending' :=
      PendingCreation.set_step CreationStep.CONFIRM
        (PendingCreation.set_world_setting (Some txt) pending) in
    (pending', ReplyConfirm pending').

(** [_summarize_world_setting], given what its two awaits yield. *)
Definition _summarize_world_setting (txt : text)
    (provider : ProviderOutcome) (llm : LlmOutcome)
    : bool * text * option SummarizeError :=
  let cut := slice_to (Config.world_setting_max_length cfg) txt in
  match provider with
  | ProviderRaise => (false, cut, Some ErrRaised)
  | ProviderId id =>
      if negb (truthy id) then (false, cut, Some ErrNoProvider)
      else
        match llm with
        | LlmRaise => (false, cut, Some ErrRaised)
        | LlmResp resp =>
            match completion_text resp with
            | Some s =>
                if bool_decide (len (strip s) > 50)
                then (true, strip s, None)
                else (false, cut, Some ErrSummaryFailed)
            | None => (false, cut, Some ErrSummaryFailed)
            end
        end
  end.

(** [_handle_world_too_long_choice]; [provider] and [llm] are what the
    backend yields if the summarize branch awaits it. The state returned is
    the one the coroutine leaves behind when it ends. *)
Definition _handle_world_too_long_choice (pending : PendingCreation.t)
    (txt : text) (provider : ProviderOutcome) (llm : LlmOutcome)
    : PendingCreation.t * list WizardReply :=
  let choice := strip (lower txt) in
  let original := default [] (PendingCreation.original_world_setting pending) in
  if text_in choice [kw_summarize_zh; lit "1"; lit "ai"; lit "summary"] then
    match _summarize_world_setting original provider llm with
    | (true, summary, _) =>
        let pending' :=
          PendingCreation.set_step CreationStep.CONFIRM
            (PendingCreation.set_world_setting (Some summary) pending) in
        (pending',
         [ReplySummarizing (len original);
          ReplySummaryDone (len original) (len summary);
          ReplyConfirm pending'])
    | (false, _, err) =>
        (PendingCreation.set_step CreationStep.WORLD_TOO_LONG pending,
         [ReplySummarizing (len original);
          ReplySummaryFailed (default ErrRaised err)])
    end
  else if text_in choice [kw_truncate_zh; lit "2"; lit "cut"; lit "truncate"] then
    let pending' :=
      PendingCreation.set_step CreationStep.CONFIRM
        (PendingCreation.set_world_setting
           (Some (slice_to (Config.world_setting_max_length cfg) original))
           pending) in
    (pending',
     [ReplyTruncated (Config.world_setting_max_length cfg); ReplyConfirm pending'])
  else if text_in choice [kw_keep_zh; lit "3"; lit "keep"; lit "full"] then
    let pending' :=
      PendingCreation.set_step CreationStep.CONFIRM
        (PendingCreation.set_world_setting (Some original) pending) in
    (pending', [ReplyKept (len original); ReplyConfirm pending'])
  else if bool_decide (len txt >= 10) then
    if bool_decide (len txt <= Config.world_setting_max_length cfg) then
      let pending' :=
        PendingCreation.set_step CreationStep.CONFIRM
          (PendingCreation.set_original_world_setting None
             (PendingCreation.set_world_setting (Some txt) pending)) in
      (pending', [ReplyNewWorldSaved (len txt); ReplyConfirm pending'])
    else
      (PendingCreation.set_original_world_setting (Some txt) pending,
       [ReplyStillTooLong (len txt)])
  else (pending, [ReplyChoose]).
End wizard.

(** ** The round engine

    The handlers of [TextworldPlugin] are coroutines on one asyncio event
    loop.  Between two [await]s (or [yield]s) a coroutine runs alone; at an
    [await] any other task may run.  A task is therefore modelled by the
    point it is suspended at ([Pc], with the locals it still needs), and a
    coroutine by the functions that run it from one suspension to the next.

    A reference to a [Room] object held by a coroutine is the key the object
    was found under in [RoomManager.rooms].  [close_room] deletes the room
    from the registry but the object stays alive for the coroutines that hold
    it; [Plugin.detached] keeps these objects.  Prompts are not modelled:
    the backend is opaque and only what it yields matters. *)

(** What [_broadcast] sends, one constructor per message of the source. *)
Inductive Notice :=
| NoticeJoined (name : string) (count : Z)       (* "📢 {name} 加入！({count}人)" *)
| NoticeCharacterCreation (room_name : string) (char_timeout : Z)
                                                 (* "🎭 {room_name} - 角色创建阶段 ..." *)
| NoticeCharTimeout (names : list string)        (* "⏰ 超时: {names}\n已使用默认角色" *)
| NoticeGameStart (room_name : string) (roster : list (option string * string))
                  (opening : text) (timeout : Z) (* "━━━━ 🎭 {room_name} 开始！ ━━━━ ..." *)
| NoticeTimeout (names : list string)            (* "⏰ 超时: {names}" *)
| NoticeAllTimeout                               (* "🚫 全员超时，房间关闭" *)
| NoticeNoActions                                (* "❌ 本轮没有有效行动" *)
| NoticeNoProvider                               (* "❌ 无法获取AI服务" *)
| NoticeRoundResult (round : Z) (actions : Dict.t string) (dm_response : text)
                    (timeout : Z)                (* "━━━━ 📖 第{round}轮结果 ━━━━ ..." *)
| NoticeRoundError.                              (* "❌ 处理回合时出错" *)

(** What a command handler yields to its sender. *)
Inductive Reply :=
| ReplyText (s : string)                         (* a literal *)
| ReplyActRecorded (name : string)               (* "✅ 【{char_name}】行动已记录" *)
| ReplyJoin (ok : bool) (msg : string)           (* "✅ {msg}" / "❌ {msg}" *)
| ReplyQuickstart (room_name room_id : string).  (* "⚡ 快速创建成功！..." *)

Inductive Output :=
| OutBroadcast (origins : gset string) (n : Notice)
| OutReply (r : Reply).

(** Where a task is suspended. [k] is the reference to the room object the
    coroutine holds, [h] the handle of the task awaited. *)
Inductive Pc :=
(* [_start_timeout.check] *)
| RoundSleep (room_id : string)            (* await asyncio.sleep(room.timeout) *)
| RoundTimeoutNotice (room_id : string)    (* await _broadcast(r, "⏰ 超时: ...") *)
| RoundCloseNotice (room_id : string)      (* await _broadcast(r, "🚫 全员超时...") *)
(* [_process_round] *)
| ProcFinalNotice                          (* a broadcast after which it returns *)
| ProcProvider (k : string) (actions : Dict.t string)
                                           (* await get_current_chat_provider_id *)
| ProcLlm (k : string) (actions : Dict.t string)   (* await llm_generate *)
| ProcResultNotice (k : string)            (* await _broadcast(room, message) *)
(* [_start_timeout] and [_start_char_creation_timeout], in [_stop_timeout] *)
| StartTimeoutJoin (k : string) (h : nat)          (* await task *)
| StartCharTimeoutJoin (k : string) (h : nat)      (* await task *)
(* [_start_char_creation_timeout.check] and [_start_game_after_characters] *)
| CharSleep (k : string)                   (* await asyncio.sleep(...) *)
| CharTimeoutNotice (k : string)           (* await _broadcast(r, "⏰ 超时...") *)
| OpeningProvider (k : string)             (* _generate_opening: provider id *)
| OpeningLlm (k : string)                  (* _generate_opening: llm_generate *)
| GameStartNotice (k : string)             (* await _broadcast(room, message) *)
(* command handlers *)
| ActReply (k : string)                    (* cmd_act: yield "✅ ...行动已记录" *)
| BeginNotice (k : string).                (* cmd_begin: await _broadcast(...) *)

(** What the event loop resumes a task with. *)
Inductive Answer :=
| Resumed                          (* the awaited call returned *)
| GotProvider (o : ProviderOutcome)
| GotLlm (o : LlmOutcome)
| Cancelled.                       (* CancelledError is thrown in at the await *)

Module Plugin.
Record t := mk {
  room_manager : RoomManager.t;
  timeout_tasks : gmap string nat;     (* task id -> handle of the asyncio task *)
  tasks : gmap nat Pc;                 (* the tasks that are not done *)
  cancel_requested : gset nat;         (* task.cancel() called, not yet delivered *)
  next_task : nat;                     (* the handle create_task returns next *)
  detached : gmap string Room.t;       (* closed rooms still referenced *)
  outbox : list Output;                (* what was handed to the transport *)
}.

Definition new (max_rooms : Z) : t :=
  mk (RoomManager.new max_rooms) ∅ ∅ ∅ 0%nat ∅ [].

Definition set_room_manager (m : RoomManager.t) (w : t) : t :=
  mk m (timeout_tasks w) (tasks w) (cancel_requested w) (next_task w)
     (detached w) (outbox w).

Definition set_timeout_tasks (tt : gmap string nat) (w : t) : t :=
  mk (room_manager w) tt (tasks w) (cancel_requested w) (next_task w)
     (detached w) (outbox w).

Definition set_tasks (ts : gmap nat Pc) (w : t) : t :=
  mk (room_manager w) (timeout_tasks w) ts (cancel_requested w) (next_task w)
     (detached w) (outbox w).

Definition set_cancel_requested (c : gset nat) (w : t) : t :=
  mk (room_manager w) (timeout_tasks w) (tasks w) c (next_task w)
     (detached w) (outbox w).

Definition set_next_task (n : nat) (w : t) : t :=
  mk (room_manager w) (timeout_tasks w) (tasks w) (cancel_requested w) n
     (detached w) (outbox w).

Definition set_detached (d : gmap string Room.t) (w : t) : t :=
  mk (room_manager w) (timeout_tasks w) (tasks w) (cancel_requested w)
     (next_task w) d (outbox w).

Definition emit (o : Output) (w : t) : t :=
  mk (room_manager w) (timeout_tasks w) (tasks w) (cancel_requested w)
     (next_task w) (detached w) (outbox w ++ [o]).

(** The room object behind a reference. *)
Definition deref (k : string) (w : t) : option Room.t :=
  match RoomManager.rooms (room_manager w) !! k with
  | Some r => Some r
  | None => detached w !! k
  end.

(** Writing the mutated object back where it lives. *)
Definition store (k : string) (r : Room.t) (w : t) : t :=
  let m := room_manager w in
  if bool_decide (is_Some (RoomManager.rooms m !! k))
  then set_room_manager
         (RoomManager.mk (<[k := r]> (RoomManager.rooms m))
            (RoomManager.player_room_map m) (RoomManager.max_rooms m)) w
  else set_detached (<[k := r]> (detached w)) w.

(** [self.room_manager.close_room(room_id)]; the object, now CLOSED, stays
    reachable from the coroutines that hold it. *)
Definition close_room (room_id : string) (w : t) : t :=
  match RoomManager.get_room room_id (room_manager w) with
  | None => w
  | Some room =>
      set_room_manager (RoomManager.close_room room_id (room_manager w)).2
        (set_detached
           (<[room_id := Room.set_status RoomStatus.CLOSED room]> (detached w)) w)
  end.

(** [await self._broadcast(room, message)] up to its suspension: the
    recipients are fixed when the call starts. *)
Definition broadcast (k : string) (n : Notice) (w : t) : option t :=
  room ← deref k w;
  Some (emit (OutBroadcast (Room.get_unique_origins room) n) w).

(** [asyncio.create_task(coro)]: the new task will run up to its first
    await, where [pc] is. *)
Definition create_task (pc : Pc) (w : t) : nat * t :=
  (next_task w, set_next_task (S (next_task w)) (set_tasks (<[next_task w := pc]> (tasks w)) w)).

(** The task a task suspended in [_stop_timeout] is awaiting. *)
Definition joined (pc : Pc) : option nat :=
  match pc with
  | StartTimeoutJoin _ h | StartCharTimeoutJoin _ h => Some h
  | _ => None
  end.

(** [task.cancel()]: a task that awaits another live task passes the
    request on to it; otherwise the request is delivered to the task itself
    at its current await. A finished task ignores it. *)
Fixpoint request_cancel (fuel : nat) (h : nat) (w : t) : t :=
  match tasks w !! h with
  | None => w
  | Some pc =>
      match joined pc with
      | Some h' =>
          match fuel with
          | S fuel' =>
              if bool_decide (h' ≠ h ∧ is_Some (tasks w !! h'))
              then request_cancel fuel' h' w
              else set_cancel_requested ({[h]} ∪ cancel_requested w) w
          | O => set_cancel_requested ({[h]} ∪ cancel_requested w) w
          end
      | None => set_cancel_requested ({[h]} ∪ cancel_requested w) w
      end
  end.

(** [_stop_timeout(task_id)] up to its [await task]: the handle is popped;
    if the task is not done it is cancelled and must be awaited. *)
Definition _stop_timeout (task_id : string) (w : t) : t * option nat :=
  match timeout_tasks w !! task_id with
  | None => (w, None)
  | Some h =>
      let w' := set_timeout_tasks (delete task_id (timeout_tasks w)) w in
      if bool_decide (is_Some (tasks w !! h))
      then (request_cancel (size (tasks w)) h w', Some h)
      else (w', None)
  end.
End Plugin.

(** *** The coroutines, from one suspension to the next

    Every function below returns the new state and the point the task is
    suspended at next, [None] when the task has finished.  The result is
    [None] only if a room reference is dangling, which the program never
    produces. *)

Section coroutines.
Import Plugin.

(** [_start_timeout(room)] after [_stop_timeout] has returned:
    [self.timeout_tasks[room_id] = asyncio.create_task(check())]. *)
Definition _start_timeout_register (k : string) (w : Plugin.t)
    : option (Plugin.t * option Pc) :=
  room ← deref k w;
  let room_id := Room.room_id room in
  let '(h, w1) := create_task (RoundSleep room_id) w in
  Some (set_timeout_tasks (<[room_id := h]> (timeout_tasks w1)) w1, None).

(** [_start_timeout(room)] *)
Definition _start_timeout (k : string) (w : Plugin.t)
    : option (Plugin.t * option Pc) :=
  room ← deref k w;
  match _stop_timeout (Room.room_id room) w with
  | (w1, Some h) => Some (w1, Some (StartTimeoutJoin k h))
  | (w1, None) => _start_timeout_register k w1
  end.

(** The handler [except Exception] of [_process_round]. *)
Definition _process_round_except (k : string) (w : Plugin.t)
    : option (Plugin.t * option Pc) :=
  w1 ← broadcast k NoticeRoundError w;
  Some (w1, Some ProcFinalNotice).

(** [_process_round(room)] up to its first await. *)
Definition _process_round (k : string) (w : Plugin.t)
    : option (Plugin.t * option Pc) :=
  room ← deref k w;
  let actions := Room.get_round_actions room in
  if bool_decide (actions = []) then
    w1 ← broadcast k NoticeNoActions w;
    Some (w1, Some ProcFinalNotice)
  else Some (w, Some (ProcProvider k actions)).

(** [_process_round] resumed with the provider id. *)
Definition _process_round_provider (k : string) (actions : Dict.t string)
    (o : ProviderOutcome) (w : Plugin.t) : option (Plugin.t * option Pc) :=
  match o with
  | ProviderRaise => _process_round_except k w
  | ProviderId id =>
      if negb (truthy id) then
        w1 ← broadcast k NoticeNoProvider w;
        Some (w1, Some ProcFinalNotice)
      else Some (w, Some (ProcLlm k actions))
  end.

(** [resp.completion_text.strip() if resp and resp.completion_text else
    fallback] *)
Definition response_or (fallback : text) (resp : option (option text)) : text :=
  match completion_text resp with
  | Some s => strip s
  | None => fallback
  end.

(** [_process_round] resumed with the backend's response: the round record
    is appended, the correction note cleared, the result broadcast. *)
Definition _process_round_llm (k : string) (actions : Dict.t string)
    (o : LlmOutcome) (w : Plugin.t) : option (Plugin.t * option Pc) :=
  match o with
  | LlmRaise => _process_round_except k w
  | LlmResp resp =>
      room ← deref k w;
      let dm_response := response_or no_response resp in
      let room1 :=
        Room.set_pending_config
          (PendingConfig.mk (PendingConfig.timeout (Room.pending_config room)) None)
          (Room.set_history
             (Room.history room
              ++ [GameHistory.mk (Room.current_round room) actions dm_response])
             room) in
      let w1 := store k room1 w in
      w2 ← broadcast k
             (NoticeRoundResult (Room.current_round room1) actions dm_response
                (Room.timeout room1)) w1;
      Some (w2, Some (ProcResultNotice k))
  end.

(** [_process_round] after the result was broadcast:
    [room.start_new_round(); await self._start_timeout(room)]. *)
Definition _process_round_next (k : string) (w : Plugin.t)
    : option (Plugin.t * option Pc) :=
  room ← deref k w;
  _start_timeout k (store k (Room.start_new_round room) w).

(** The loop of the round timer: every player still ACTIVE becomes TIMEOUT. *)
Definition mark_timeouts (r : Room.t) : Room.t :=
  Room.set_active_players
    (Dict.map_values
       (λ p, if bool_decide (Player.status p = PlayerStatus.ACTIVE)
             then Player.set_status PlayerStatus.TIMEOUT p else p)
       (Room.active_players r)) r.

(** ... and [timeout_players], the names it collects. *)
Definition timeout_players (r : Room.t) : list string :=
  Player.display_name
    <$> filter (λ p, Player.status p = PlayerStatus.ACTIVE)
               (Dict.values (Room.active_players r)).

(** [_start_timeout.check] after the timeout notice (if any). *)
Definition round_check_decide (room_id : string) (w : Plugin.t)
    : option (Plugin.t * option Pc) :=
  r ← deref room_id w;
  if Room.check_all_players_timeout r then
    w1 ← broadcast room_id NoticeAllTimeout w;
    Some (w1, Some (RoundCloseNotice room_id))
  else _process_round room_id w.

(** [_start_timeout.check] when [asyncio.sleep] returns: the timer fires. *)
Definition round_check_fire (room_id : string) (w : Plugin.t)
    : option (Plugin.t * option Pc) :=
  match RoomManager.get_room room_id (room_manager w) with
  | None => Some (w, None)
  | Some r =>
      if Room.paused r || negb (bool_decide (Room.status r = RoomStatus.ACTIVE))
      then Some (w, None)
      else
        let w1 := store room_id (mark_timeouts r) w in
        if bool_decide (timeout_players r = []) then round_check_decide room_id w1
        else
          w2 ← broadcast room_id (NoticeTimeout (timeout_players r)) w1;
          Some (w2, Some (RoundTimeoutNotice room_id))
  end.

(** [_start_game_after_characters(room)] once the opening is known. *)
Definition _start_game_broadcast (k : string) (opening : text) (w : Plugin.t)
    : option (Plugin.t * option Pc) :=
  room ← deref k w;
  let roster :=
    (λ p, (Player.character_name p, Player.player_name p))
      <$> Dict.values (Room.active_players room) in
  w1 ← broadcast k
         (NoticeGameStart (Room.room_name room) roster opening (Room.timeout room)) w;
  Some (w1, Some (GameStartNotice k)).

(** [_start_game_after_characters(room)] up to the first await of
    [_generate_opening]. *)
Definition _start_game_after_characters (k : string) (w : Plugin.t)
    : option (Plugin.t * option Pc) :=
  room ← deref k w;
  Some (store k (Room.start_new_round (Room.set_status RoomStatus.ACTIVE room)) w,
        Some (OpeningProvider k)).

(** [_generate_opening] resumed with the provider id; every failure yields
    the stock opening. *)
Definition _generate_opening_provider (k : string) (o : ProviderOutcome)
    (w : Plugin.t) : option (Plugin.t * option Pc) :=
  match o with
  | ProviderRaise => _start_game_broadcast k default_opening w
  | ProviderId id =>
      if negb (truthy id) then _start_game_broadcast k default_opening w
      else Some (w, Some (OpeningLlm k))
  end.

Definition _generate_opening_llm (k : string) (o : LlmOutcome) (w : Plugin.t)
    : option (Plugin.t * option Pc) :=
  match o with
  | LlmRaise => _start_game_broadcast k default_opening w
  | LlmResp resp => _start_game_broadcast k (response_or default_opening resp) w
  end.

(** The loop of the character-creation timer. *)
Definition assign_default_characters (r : Room.t) : Room.t :=
  Room.set_active_players
    (Dict.map_values
       (λ p, if bool_decide (Player.status p = PlayerStatus.CREATING_CHAR)
             then Player.set_status PlayerStatus.CHAR_DONE
                    (Player.set_character (Some (Player.player_name p))
                       (Some "一位神秘的冒险者") p)
             else p)
       (Room.active_players r)) r.

Definition char_timeout_players (r : Room.t) : list string :=
  Player.player_name
    <$> filter (λ p, Player.status p = PlayerStatus.CREATING_CHAR)
               (Dict.values (Room.active_players r)).

(** [_start_char_creation_timeout.check] when [asyncio.sleep] returns. The
    closure holds the room object and looks the room up again by its id. *)
Definition char_check_fire (k : string) (w : Plugin.t)
    : option (Plugin.t * option Pc) :=
  room ← deref k w;
  let room_id := Room.room_id room in
  match RoomManager.get_room room_id (room_manager w) with
  | None => Some (w, None)
  | Some r =>
      if negb (bool_decide (Room.status r = RoomStatus.CHARACTER_CREATION))
      then Some (w, None)
      else
        let w1 := store room_id (assign_default_characters r) w in
        if bool_decide (char_timeout_players r = [])
        then _start_game_after_characters room_id w1
        else
          w2 ← broadcast room_id (NoticeCharTimeout (char_timeout_players r)) w1;
          Some (w2, Some (CharTimeoutNotice room_id))
  end.

(** [_start_char_creation_timeout(room)] after [_stop_timeout] returned,
    followed by the rest of [cmd_begin], its reply. *)
Definition _start_char_creation_timeout_register (k : string) (w : Plugin.t)
    : option (Plugin.t * option Pc) :=
  room ← deref k w;
  let '(h, w1) := create_task (CharSleep k) w in
  Some (emit (OutReply (ReplyText "✅ 已开始角色创建阶段"))
          (set_timeout_tasks
             (<["char_" +:+ Room.room_id room := h]> (timeout_tasks w1)) w1),
        None).

(** [_start_char_creation_timeout(room)] *)
Definition _start_char_creation_timeout (k : string) (w : Plugin.t)
    : option (Plugin.t * option Pc) :=
  room ← deref k w;
  match _stop_timeout ("char_" +:+ Room.room_id room) w with
  | (w1, Some h) => Some (w1, Some (StartCharTimeoutJoin k h))
  | (w1, None) => _start_char_creation_timeout_register k w1
  end.

(** [cmd_act] resumed after its reply was sent. *)
Definition cmd_act_check (k : string) (w : Plugin.t)
    : option (Plugin.t * option Pc) :=
  room ← deref k w;
  if Room.check_all_players_acted room then _process_round k w
  else Some (w, None).

(** Resuming a task suspended at [pc] with [a].  A [CancelledError] ends the
    task (the [check] coroutines swallow it, a handler lets it escape), except
    inside [_stop_timeout], whose [except asyncio.CancelledError: pass]
    lets the caller go on. *)
Definition resume (pc : Pc) (a : Answer) (w : Plugin.t)
    : option (Plugin.t * option Pc) :=
  match pc, a with
  | StartTimeoutJoin k _, (Resumed | Cancelled) => _start_timeout_register k w
  | StartCharTimeoutJoin k _, (Resumed | Cancelled) =>
      _start_char_creation_timeout_register k w
  | _, Cancelled => Some (w, None)
  | RoundSleep room_id, Resumed => round_check_fire room_id w
  | RoundTimeoutNotice room_id, Resumed => round_check_decide room_id w
  | RoundCloseNotice room_id, Resumed => Some (close_room room_id w, None)
  | ProcFinalNotice, Resumed => Some (w, None)
  | ProcProvider k actions, GotProvider o => _process_round_provider k actions o w
  | ProcLlm k actions, GotLlm o => _process_round_llm k actions o w
  | ProcResultNotice k, Resumed => _process_round_next k w
  | CharSleep k, Resumed => char_check_fire k w
  | CharTimeoutNotice k, Resumed => _start_game_after_characters k w
  | OpeningProvider k, GotProvider o => _generate_opening_provider k o w
  | OpeningLlm k, GotLlm o => _generate_opening_llm k o w
  | GameStartNotice k, Resumed => _start_timeout k w
  | ActReply k, Resumed => cmd_act_check k w
  | BeginNotice k, Resumed => _start_char_creation_timeout k w
  | _, _ => None
  end.

(** Whether the event loop can resume a task at [pc] with [a]: a task whose
    cancellation was requested gets the [CancelledError], any other gets
    the result of what it awaits, an awaited task only once it is done. *)
Definition can_resume (tid : nat) (pc : Pc) (a : Answer) (w : Plugin.t) : bool :=
  match a with
  | Cancelled => bool_decide (tid ∈ cancel_requested w)
  | _ =>
      bool_decide (tid ∉ cancel_requested w)
      && match joined pc with
         | Some h => bool_decide (tasks w !! h = None)
         | None => true
         end
  end.

(** The end of a run of task [tid]: it is suspended again, or done. *)
Definition suspend (tid : nat) (next : option Pc) (w : Plugin.t) : Plugin.t :=
  match next with
  | Some pc => set_tasks (<[tid := pc]> (tasks w)) w
  | None =>
      set_cancel_requested (cancel_requested w ∖ {[tid]})
        (set_tasks (delete tid (tasks w)) w)
  end.
End coroutines.

(** *** Command handlers and the event loop *)

(** The stock world of [cmd_quickstart]:
    "这是一个充满奇幻与冒险的世界，魔法与剑术并存，危险与机遇共生。" *)
Definition quickstart_world : text :=
  [36825; 26159; 19968; 20010; 20805; 28385; 22855; 24187; 19982; 20882;
   38505; 30340; 19990; 30028; 65292; 39764; 27861; 19982; 21073; 26415;
   24182; 23384; 65292; 21361; 38505; 19982; 26426; 36935; 20849; 29983;
   12290]%N.

Section handlers.
Import Plugin.
Variable cfg : Config.t.

(** A handler that replies and returns has nothing left to run once its
    reply is sent. *)
Definition say (s : string) (w : Plugin.t) : option (Plugin.t * option Pc) :=
  Some (emit (OutReply (ReplyText s)) w, None).

(** [cmd_quickstart]; [fresh_id] is the room id drawn by [create_room]. *)
Definition cmd_quickstart (fresh_id player_id player_name umo room_name : string)
    (w : Plugin.t) : option (Plugin.t * option Pc) :=
  match RoomManager.get_room_by_player player_id (room_manager w) with
  | Some _ => say "❌ 已在房间中" w
  | None =>
      let world :=
        if bool_decide (Config.world_template cfg = []) then quickstart_world
        else Config.world_template cfg in
      match RoomManager.create_room fresh_id player_id player_name umo room_name
              world (Config.default_timeout cfg)
              (Config.char_creation_timeout cfg) None (room_manager w) with
      | (Some room, m') =>
          Some (emit (OutReply (ReplyQuickstart (Room.room_name room)
                                  (Room.room_id room)))
                  (set_room_manager m' w), None)
      | (None, m') => say "❌ 创建失败" (set_room_manager m' w)
      end
  end.

(** [cmd_join]; after [join_room] the handler only sends messages. *)
Definition cmd_join (room_id player_id player_name umo : string)
    (w : Plugin.t) : option (Plugin.t * option Pc) :=
  if bool_decide (room_id = "") then say "❌ 用法: /tw join <房间ID>" w
  else
    match RoomManager.join_room room_id player_id player_name umo
            (Config.max_players cfg) (room_manager w) with
    | ((true, msg), m') =>
        let w1 := set_room_manager m' w in
        let w2 :=
          match RoomManager.get_room room_id m' with
          | Some room =>
              emit (OutBroadcast (Room.get_unique_origins room)
                      (NoticeJoined player_name
                         (Room.get_active_player_count room))) w1
          | None => w1
          end in
        Some (emit (OutReply (ReplyJoin true msg)) w2, None)
    | ((false, msg), m') =>
        Some (emit (OutReply (ReplyJoin false msg)) (set_room_manager m' w), None)
    end.

(** [cmd_begin] up to its broadcast. *)
Definition cmd_begin (player_id : string) (w : Plugin.t)
    : option (Plugin.t * option Pc) :=
  match RoomManager.get_room_by_player player_id (room_manager w) with
  | None => say "❌ 你不在任何房间中" w
  | Some room =>
      let k := default "" (RoomManager.player_room_map (room_manager w) !! player_id) in
      if negb (Room.is_host player_id room) then say "❌ 只有房主可以开始" w
      else if negb (bool_decide (Room.status room = RoomStatus.WAITING))
      then say "❌ 游戏已经开始" w
      else if bool_decide (Room.get_active_player_count room < 1)
      then say "❌ 至少需要1名玩家" w
      else
        let w1 := store k (Room.start_character_creation room) w in
        w2 ← broadcast k
               (NoticeCharacterCreation (Room.room_name room)
                  (Room.char_creation_timeout room)) w1;
        Some (w2, Some (BeginNotice k))
  end.

(** [cmd_act] up to the [yield] of its reply. *)
Definition cmd_act (player_id action : string) (w : Plugin.t)
    : option (Plugin.t * option Pc) :=
  if bool_decide (action = "") then say "❌ 用法: /tw act <行动描述>" w
  else
    match RoomManager.get_room_by_player player_id (room_manager w) with
    | None => say "❌ 不在房间中" w
    | Some room =>
        let k := default "" (RoomManager.player_room_map (room_manager w) !! player_id) in
        if Room.paused room then say "❌ 房间已暂停" w
        else if negb (bool_decide (Room.status room = RoomStatus.ACTIVE))
        then say "❌ 游戏未开始" w
        else
          match Dict.get player_id (Room.active_players room) with
          | None => say "❌ 非活跃玩家" w
          | Some player =>
              if bool_decide (Player.status player = PlayerStatus.ACTED)
              then say "❌ 本轮已行动" w
              else
                let player' :=
                  Player.set_status PlayerStatus.ACTED
                    (Player.set_current_action (Some action) player) in
                let room' :=
                  Room.set_active_players
                    (Dict.set player_id player' (Room.active_players room)) room in
                Some (emit (OutReply (ReplyActRecorded (Player.display_name player')))
                        (store k room' w),
                      Some (ActReply k))
          end
    end.

(** What the outside world does next: the transport delivers a command, or
    the event loop resumes a suspended task. *)
Inductive Event :=
| CmdQuickstart (fresh_id player_id player_name umo room_name : string)
| CmdJoin (room_id player_id player_name umo : string)
| CmdBegin (player_id : string)
| CmdAct (player_id action : string)
| Deliver (tid : nat) (a : Answer).

(** A command runs in a task of its own, up to its first suspension. *)
Definition spawn (body : Plugin.t → option (Plugin.t * option Pc))
    (w : Plugin.t) : option Plugin.t :=
  let tid := next_task w in
  '(w1, next) ← body (set_next_task (S tid) w);
  Some (suspend tid next w1).

(** One step of the plugin; [None] when the event cannot happen. *)
Definition step (e : Event) (w : Plugin.t) : option Plugin.t :=
  match e with
  | CmdQuickstart fresh_id player_id player_name umo room_name =>
      spawn (cmd_quickstart fresh_id player_id player_name umo room_name) w
  | CmdJoin room_id player_id player_name umo =>
      spawn (cmd_join room_id player_id player_name umo) w
  | CmdBegin player_id => spawn (cmd_begin player_id) w
  | CmdAct player_id action => spawn (cmd_act player_id action) w
  | Deliver tid a =>
      pc ← tasks w !! tid;
      if can_resume tid pc a w then
        '(w1, next) ← resume pc a
                        (set_cancel_requested (cancel_requested w ∖ {[tid]}) w);
        Some (suspend tid next w1)
      else None
  end.

Fixpoint run (es : list Event) (w : Plugin.t) : option Plugin.t :=
  match es with
  | [] => Some w
  | e :: es' => w' ← step e w; run es' w'
  end.

(** What the await of a task yields when the backend answers [po] and
    [lo]. *)
Definition awaited_result (po : ProviderOutcome) (lo : LlmOutcome) (pc : Pc)
    : Answer :=
  match pc with
  | ProcProvider _ _ | OpeningProvider _ => GotProvider po
  | ProcLlm _ _ | OpeningLlm _ => GotLlm lo
  | _ => Resumed
  end.

(** The event that lets task [tid] go on when nothing else is happening:
    its await returns; a task it has cancelled and waits for takes its
    [CancelledError] first. *)
Definition next_event (po : ProviderOutcome) (lo : LlmOutcome) (tid : nat)
    (pc : Pc) (w : Plugin.t) : Event :=
  if bool_decide (tid ∈ cancel_requested w) then Deliver tid Cancelled
  else
    match joined pc with
    | Some h =>
        if bool_decide (tasks w !! h = None) then Deliver tid Resumed
        else Deliver h Cancelled
    | None => Deliver tid (awaited_result po lo pc)
    end.

(** Task [tid] run to its end with no other task interleaved. *)
Fixpoint run_alone (fuel : nat) (po : ProviderOutcome) (lo : LlmOutcome)
    (tid : nat) (w : Plugin.t) : option Plugin.t :=
  match tasks w !! tid with
  | None => Some w
  | Some pc =>
      match fuel with
      | O => None
      | S fuel' =>
          w' ← step (next_event po lo tid pc w) w;
          run_alone fuel' po lo tid w'
      end
  end.
End handlers.

Arguments run_alone : simpl never.

(** The record [_process_round] leaves in the room when the backend has
    answered. *)
Definition recorded (room : Room.t) (actions : Dict.t string)
    (dm_response : text) : Room.t :=
  Room.set_pending_config
    (PendingConfig.mk (PendingConfig.timeout (Room.pending_config room)) None)
    (Room.set_history
       (Room.history room
        ++ [GameHistory.mk (Room.current_round room) actions dm_response])
       room).

(** Task [tid] enters [_process_round(room)], as [cmd_act] and the round
    timer make it do, and runs to its end with no other task interleaved. *)
Definition resolve_alone (cfg : Config.t) (fuel : nat) (po : ProviderOutcome)
    (lo : LlmOutcome) (tid : nat) (k : string) (w : Plugin.t)
    : option Plugin.t :=
  '(w1, next) ← _process_round k w;
  run_alone cfg fuel po lo tid (suspend tid next w1).

(** The bookkeeping of the event loop: handles not yet given out name no
    task, and only tasks that are not done have a cancellation pending. *)
Record loop_wf (w : Plugin.t) : Prop := {
  wf_fresh : ∀ t, (Plugin.next_task w ≤ t)%nat → Plugin.tasks w !! t = None;
  wf_cancel :
    ∀ t, t ∈ Plugin.cancel_requested w → is_Some (Plugin.tasks w !! t);
}.

(** The task registered under [task_id], if there is one and it is not done,
    is not itself waiting inside [_stop_timeout]. *)
Definition timer_idle (w : Plugin.t) (task_id : string) : Prop :=
  ∀ h pc, Plugin.timeout_tasks w !! task_id = Some h →
          Plugin.tasks w !! h = Some pc → Plugin.joined pc = None.

(** The round timer of room [room_id] is registered and counting down. *)
Definition round_timer_armed (w : Plugin.t) (room_id : string) : Prop :=
  ∃ h, Plugin.timeout_tasks w !! room_id = Some h
       ∧ Plugin.tasks w !! h = Some (RoundSleep room_id)
       ∧ h ∉ Plugin.cancel_requested w.

(** ** Registry operations as a sequence *)

(** One call on the registry. [OpCreate] carries the room id its call to
    [uuid.uuid4()] draws. *)
Inductive RegistryOp :=
| OpCreate (fresh_id host_id host_name host_umo room_name : string)
           (world_setting : text) (timeout char_timeout : Z)
           (original_world_setting : option text)
| OpJoin (room_id player_id player_name player_umo : string) (max_players : Z)
| OpLeave (player_id : string)
| OpClose (room_id : string)
| OpPause (room_id player_id : string)
| OpResume (room_id player_id : string).

Definition apply_op (op : RegistryOp) (m : RoomManager.t) : RoomManager.t :=
  match op with
  | OpCreate fresh_id host_id host_name host_umo room_name world timeout
             char_timeout original =>
      (RoomManager.create_room fresh_id host_id host_name host_umo room_name
         world timeout char_timeout original m).2
  | OpJoin room_id player_id player_name player_umo max_players =>
      (RoomManager.join_room room_id player_id player_name player_umo
         max_players m).2
  | OpLeave player_id => (RoomManager.leave_room player_id m).2
  | OpClose room_id => (RoomManager.close_room room_id m).2
  | OpPause room_id player_id => (RoomManager.pause_room room_id player_id m).2
  | OpResume room_id player_id => (RoomManager.resume_room room_id player_id m).2
  end.

Fixpoint run_ops (ops : list RegistryOp) (m : RoomManager.t) : RoomManager.t :=
  match ops with
  | [] => m
  | op :: ops' => run_ops ops' (apply_op op m)
  end.

(** Every [uuid4] draw yields an id no room of the registry has. *)
Fixpoint ids_fresh (ops : list RegistryOp) (m : RoomManager.t) : Prop :=
  match ops with
  | [] => True
  | op :: ops' =>
      match op with
      | OpCreate fresh_id _ _ _ _ _ _ _ _ =>
          RoomManager.rooms m !! fresh_id = None
      | _ => True
      end
      ∧ ids_fresh ops' (apply_op op m)
  end.

(** The player identities of a room: active, then pending. *)
Definition members (r : Room.t) : list string :=
  Dict.keys (Room.active_players r) ++ Dict.keys (Room.pending_players r).

(** A room as the registry keeps it: stored under its own id, no identity
    twice among its members, every player filed under its own id. *)
Record room_wf (rid : string) (r : Room.t) : Prop := {
  wf_room_id : Room.room_id r = rid;
  wf_members : NoDup (members r);
  wf_player_ids :
    ∀ k p, (k, p) ∈ Room.active_players r ++ Room.pending_players r →
           Player.player_id p = k;
}.

(** The registry invariant: rooms are well formed and the reverse index is
    exactly the membership relation. *)
Definition registry_inv (m : RoomManager.t) : Prop :=
  (∀ rid r, RoomManager.rooms m !! rid = Some r → room_wf rid r)
  ∧ (∀ pid rid,
       RoomManager.player_room_map m !! pid = Some rid
       ↔ ∃ r, RoomManager.rooms m !! rid = Some r ∧ pid ∈ members r).

(** ** Concrete registries used as examples *)

(** A room created by alice, joined by bob, carol and dave. *)
Definition party_ops : list RegistryOp :=
  [ OpCreate "r1" "alice" "Alice" "umoA" "quest" (lit "a world of ten chars")
      300 180 None;
    OpJoin "r1" "bob" "Bob" "umoB" 8;
    OpJoin "r1" "carol" "Carol" "umoC" 8;
    OpJoin "r1" "dave" "Dave" "umoD" 8 ].

Definition party : RoomManager.t := run_ops party_ops (RoomManager.new 10).

Definition party_room : Room.t :=
  Room.mk "r1" "quest" "alice" "umoA" (lit "a world of ten chars") None
    RoomStatus.WAITING false
    [("alice", Player.new "alice" "Alice" "umoA");
     ("bob", Player.new "bob" "Bob" "umoB");
     ("carol", Player.new "carol" "Carol" "umoC");
     ("dave", Player.new "dave" "Dave" "umoD")]
    [] 300 180 PendingConfig.new 0 [].

(** Two rooms, a pause with a late join, a resume, a leave and a close. *)
Definition busy_ops : list RegistryOp :=
  [ OpCreate "r1" "alice" "Alice" "umoA" "quest" (lit "a world of ten chars")
      300 180 None;
    OpJoin "r1" "bob" "Bob" "umoB" 8;
    OpPause "r1" "alice";
    OpJoin "r1" "carol" "Carol" "umoC" 8;
    OpCreate "r2" "dave" "Dave" "umoD" "dungeon" (lit "another world, deeper")
      60 180 None;
    OpResume "r1" "alice";
    OpLeave "bob";
    OpClose "r2" ].

(** A room paused by its creator before the game began. *)
Definition paused_ops : list RegistryOp :=
  [ OpCreate "r1" "alice" "Alice" "umoA" "quest" (lit "a world of ten chars")
      300 180 None;
    OpPause "r1" "alice" ].

Definition paused_registry : RoomManager.t :=
  run_ops paused_ops (RoomManager.new 10).

(** A paused room with a player waiting and a timeout override of 60
    seconds staged in its pending configuration. *)
Definition staged_room : Room.t :=
  Room.mk "r1" "quest" "alice" "umoA" (lit "a world of ten chars") None
    RoomStatus.PAUSED true
    [("alice", Player.new "alice" "Alice" "umoA")]
    [("bob", Player.set_status PlayerStatus.PENDING
               (Player.new "bob" "Bob" "umoB"))]
    300 180 (PendingConfig.mk (Some 60) None) 3 [].

Definition staged_registry : RoomManager.t :=
  RoomManager.mk {["r1" := staged_room]}
    {["alice" := "r1"; "bob" := "r1"]} 10.

(** The wizard of a player who is about to enter the world text, under a
    limit of 4000 characters, and a world text of 5000 characters. *)
Definition wizard_cfg : Config.t := Config.mk 8 300 180 4000 [].

Definition wizard_at_world : PendingCreation.t :=
  PendingCreation.mk "alice" "Alice" "umoA" CreationStep.WORLD_SETTING
    (Some "quest") (Some 300) None None.

Definition long_world : text := repeat 19990%N 5000.

(** ** A game used as an example

    alice quick-starts room r1 (task 0), bob joins (task 1), alice begins
    the game (task 2, which starts the character timer, task 3).  Nobody
    writes a character: the character timer fires, the default characters
    are assigned, the opening is narrated and round 1 starts with its round
    timer (task 4). *)
Definition demo_cfg : Config.t := Config.mk 8 300 180 4000 [].

Definition provider_ok : Answer := GotProvider (ProviderId (Some "p")).

Definition narrates (s : string) : Answer :=
  GotLlm (LlmResp (Some (Some (lit s)))).

Definition game_setup : list Event :=
  [ CmdQuickstart "r1" "alice" "Alice" "umoA" "quest";
    CmdJoin "r1" "bob" "Bob" "umoB";
    CmdBegin "alice"; Deliver 2 Resumed;
    Deliver 3 Resumed; Deliver 3 Resumed; Deliver 3 provider_ok;
    Deliver 3 (narrates "once upon a time"); Deliver 3 Resumed ].

(** In round 1 alice acts (task 5, which then ends), and bob, the last
    player, acts: his handler (task 6) has recorded the action and is
    sending its reply. *)
Definition both_acted : list Event :=
  game_setup ++ [ CmdAct "alice" "look"; Deliver 5 Resumed; CmdAct "bob" "run" ].

(** Bob's handler resolves the round and nothing else happens: the backend
    answers, the result is broadcast, the round timer is cancelled, takes
    its [CancelledError], and is started again. *)
Definition undisturbed : list Event :=
  [ Deliver 6 Resumed; Deliver 6 provider_ok; Deliver 6 (narrates "b");
    Deliver 6 Resumed; Deliver 4 Cancelled; Deliver 6 Resumed ].

(** The race: while bob's handler awaits the backend, the round timer fires;
    nobody is left to time out and not everybody has timed out, so the
    timer resolves the round too, and its backend call returns first. *)
Definition race : list Event :=
  [ Deliver 6 Resumed; Deliver 6 provider_ok;
    Deliver 4 Resumed; Deliver 4 provider_ok; Deliver 4 (narrates "a");
    Deliver 6 (narrates "b") ].

(** Both resolutions then run to their end: the timer task starts the next
    round and replaces its own handle by a new timer (task 7); bob's
    handler starts yet another round and replaces that timer (task 8). *)
Definition race_to_the_end : list Event :=
  race ++ [ Deliver 4 Resumed; Deliver 4 Cancelled;
            Deliver 6 Resumed; Deliver 7 Cancelled; Deliver 6 Resumed ].

(** The game has just begun: the character timer (task 3) is counting down
    and nobody has written a character. *)
Definition char_creation_started : list Event :=
  [ CmdQuickstart "r1" "alice" "Alice" "umoA" "quest";
    CmdJoin "r1" "bob" "Bob" "umoB";
    CmdBegin "alice"; Deliver 2 Resumed ].

(** Only alice acts in round 1; bob never does. *)
Definition alice_acted : list Event :=
  game_setup ++ [ CmdAct "alice" "look"; Deliver 5 Resumed ].

(** Bob's handler is held up after its reply: the round timer (task 4)
    fires first and resolves round 1, starts round 2 and its timer (task
    7), and that timer fires in turn and times both players out.  Only then
    does bob's handler (task 6) go on. *)
Definition held_up : list Event :=
  both_acted
  ++ [ Deliver 4 Resumed; Deliver 4 provider_ok; Deliver 4 (narrates "a");
       Deliver 4 Resumed; Deliver 4 Cancelled; Deliver 7 Resumed;
       Deliver 6 Resumed ].

(** The room of the example at a glance. *)
Definition room_r1 (w : Plugin.t) : option Room.t :=
  RoomManager.rooms (Plugin.room_manager w) !! "r1".

(** ** Bounds and phases of the registry *)

(** A join made under the limit [max_players], as every call of [cmd_join]
    is under one configuration. *)
Definition joins_with (max_players : Z) (op : RegistryOp) : Prop :=
  match op with
  | OpJoin _ _ _ _ n => n = max_players
  | _ => True
  end.

(** The creator of every registered room is one of its active players. *)
Definition host_present (m : RoomManager.t) : Prop :=
  ∀ rid r, RoomManager.rooms m !! rid = Some r →
           Room.host_id r ∈ Dict.keys (Room.active_players r).

(** The phases the registry itself leaves a room in, and the flag that goes
    with them. *)
Definition phase_ok (r : Room.t) : Prop :=
  (Room.paused r = true ↔ Room.status r = RoomStatus.PAUSED)
  ∧ Room.status r ≠ RoomStatus.CLOSED
  ∧ Room.status r ≠ RoomStatus.CHARACTER_CREATION.

(** The number of players of a room, active and pending. *)
Definition head_count (r : Room.t) : Z :=
  Z.of_nat (length (Room.active_players r))
  + Z.of_nat (length (Room.pending_players r)).

(** ** A round seen from one display name *)

(** The action player [p] contributes to the round under [name], if any:
    the filter and the key of the comprehension in [get_round_actions]. *)
Definition action_as (name : string) (p : Player.t) : option string :=
  match Player.current_action p with
  | Some a =>
      if bool_decide (a = "") then None
      else if bool_decide (Player.display_name p = name) then Some a else None
  | None => None
  end.

(** ** Splitting long messages *)

(** [s.split('\n')]: the lines of [s], at least one. *)
Fixpoint split_lines (s : text) : list text :=
  match s with
  | [] => [[]]
  | c :: s' =>
      if (c =? 10)%N then [] :: split_lines s'
      else
        match split_lines s' with
        | l :: ls => (c :: l) :: ls
        | [] => [[c]]
        end
  end.

(** [[para[i:i+n] for i in range(0, len(para), n)]] for a step [n] of at
    least 1; [fuel] bounds the number of slices. *)
Fixpoint slices (fuel n : nat) (para : text) : list text :=
  match fuel, para with
  | S fuel', _ :: _ => take n para :: slices fuel' n (drop n para)
  | _, _ => []
  end.

(** [if current: chunks.append(current)] *)
Definition flush (chunks : list text) (current : text) : list text :=
  match current with
  | [] => chunks
  | _ => chunks ++ [current]
  end.

(** One turn of the loop of [_split_text] on the state [(chunks, current)];
    [None] is the [ValueError] that [range] raises for a step of zero. *)
Definition _split_text_step (chunk_size : Z) (st : list text * text)
    (para : text) : option (list text * text) :=
  let '(chunks, current) := st in
  if bool_decide (len current + len para + 1 ≤ chunk_size)
  then Some (chunks,
             current ++ (match current with [] => [] | _ => [10%N] end) ++ para)
  else
    let chunks := flush chunks current in
    if bool_decide (len para > chunk_size) then
      if bool_decide (chunk_size = 0) then None
      else if bool_decide (chunk_size < 0) then Some (chunks, [])
      else Some (chunks ++ slices (length para) (Z.to_nat chunk_size) para, [])
    else Some (chunks, para).

(** [_split_text(text)] under the configured [chunk_size]. *)
Definition _split_text (chunk_size : Z) (txt : text) : option (list text) :=
  st ← foldl (λ st para, st ≫= λ st, _split_text_step chunk_size st para)
         (Some ([], [])) (split_lines txt);
  Some (match flush st.1 st.2 with
        | [] => [txt]
        | chunks => chunks
        end).

(** A character other than the line feed. *)
Definition visible (c : N) : Prop := c ≠ 10%N.

#[global] Instance visible_dec c : Decision (visible c).
Proof. unfold visible. apply _. Defined.

(** The state of the loop of [_split_text], for a chunk size of at least 1,
    after the paragraphs [seen] have been read. *)
Definition split_inv (chunk_size : Z) (seen : list text)
    (st : list text * text) : Prop :=
  Forall (λ c, c ≠ [] ∧ len c ≤ chunk_size) st.1
  ∧ len st.2 ≤ chunk_size
  ∧ filter visible (concat st.1 ++ st.2) = filter visible (concat seen).

(** ** Timers that have outlived their purpose *)

(** A timer whose sleep is over finds nothing to do: the room of the round
    timer is gone, paused or not in play; the room of the character timer is
    gone or no longer creating characters. *)
Definition timer_stale (pc : Pc) (w : Plugin.t) : Prop :=
  match pc with
  | RoundSleep room_id =>
      ∀ r, RoomManager.rooms (Plugin.room_manager w) !! room_id = Some r →
           Room.paused r = true ∨ Room.status r ≠ RoomStatus.ACTIVE
  | CharSleep k =>
      ∃ room,
        Plugin.deref k w = Some room
        ∧ ∀ r, RoomManager.rooms (Plugin.room_manager w) !! Room.room_id room
               = Some r →
               Room.status r ≠ RoomStatus.CHARACTER_CREATION
  | _ => False
  end.

(** The round timer (task 4) of a room that is gone: its creator has left,
    which closes the room and stops no timer. *)
Definition orphan_timer : Plugin.t :=
  Plugin.mk (RoomManager.new 10) {["r1" := 4%nat]}
    {[4%nat := RoundSleep "r1"]} ∅ 5%nat ∅ [].

(** The bookkeeping is sound in [w], which has given out no fewer handles
    than [w0]: what a coroutine running from [w0] must keep. *)
Definition wf_from (w0 w : Plugin.t) : Prop :=
  loop_wf w ∧ (Plugin.next_task w0 ≤ Plugin.next_task w)%nat.

(** The lobby of the example game: alice has quick-started room r1 and bob
    has joined; the game has not begun. *)
Definition lobby : list Event :=
  [ CmdQuickstart "r1" "alice" "Alice" "umoA" "quest";
    CmdJoin "r1" "bob" "Bob" "umoB" ].

(** ** The end of the wizard: confirming, cancelling, starting over *)

(** The non-ASCII keywords of [_handle_confirm], by code point. *)
Definition kw_view_full_zh : text := [26597; 30475; 23436; 25972]%N. (* "查看完整" *)
Definition kw_view_zh : text := [26597; 30475]%N.                    (* "查看" *)
Definition kw_full_zh : text := [23436; 25972]%N.                    (* "完整" *)
Definition kw_confirm_zh : text := [30830; 35748]%N.                 (* "确认" *)
Definition kw_sure_zh : text := [30830; 23450]%N.                    (* "确定" *)
Definition kw_cancel_zh : text := [21462; 28040]%N.                  (* "取消" *)
Definition kw_restart_zh : text := [37325; 26469]%N.                 (* "重来" *)

(** The replies of [_handle_confirm], [cmd_start] and [cmd_cancel]. *)
Inductive ConfirmReply :=
| ReplyFullWorld (chunks : list text)  (* _send_long_message(event, world, ...) *)
| ReplyRoomCreated (room : Room.t)     (* "🎮 房间创建成功！..." *)
| ReplyCreateFailed                    (* "❌ 创建失败" *)
| ReplyCreationCancelled               (* "❌ 已取消创建" *)
| ReplyRestart                         (* "🔄 重新开始..." *)
| ReplyConfirmHelp                     (* "❓ 请输入: 确认 | 取消 | 重来 | 查看完整" *)
| ReplyAlreadyInRoom                   (* "❌ 你已在房间中，请先 /tw leave" *)
| ReplyAlreadyCreating                 (* "⚠️ 正在创建中，/tw cancel 取消" *)
| ReplyRoomsFull                       (* "❌ 房间数量已满" *)
| ReplyWizardStarted                   (* "🎮 创建冒险房间..." *)
| ReplyCancelDone                      (* "✅ 已取消创建" *)
| ReplyNothingToCancel.                (* "❓ 没有进行中的创建" *)

(** [pending.timeout or self.default_timeout]: [None] and 0 are falsy. *)
Definition timeout_or (t : option Z) (dflt : Z) : Z :=
  match t with
  | Some n => if bool_decide (n = 0) then dflt else n
  | None => dflt
  end.

Section confirm.
Variable cfg : Config.t.

(** [_handle_confirm]. The wizard [pending] is the object stored under [key]
    in [pending_creations]; [fresh_id] is the room id [create_room] draws and
    [chunk_size] the configured chunk size.  The result is [None] when the
    call raises: [_split_text] for a chunk size of 0, or [del] for a player
    id that is not a key of the table. *)
Definition _handle_confirm (chunk_size : Z) (fresh_id key : string)
    (pending : PendingCreation.t) (txt : text)
    (pending_creations : gmap string PendingCreation.t) (m : RoomManager.t)
    : option (gmap string PendingCreation.t * RoomManager.t * ConfirmReply) :=
  let t := strip (lower txt) in
  if text_in t [kw_view_full_zh; kw_view_zh; lit "full"; lit "view"; kw_full_zh]
  then
    chunks ← _split_text chunk_size
                (default [] (PendingCreation.world_setting pending));
    Some (pending_creations, m, ReplyFullWorld chunks)
  else if text_in t [kw_confirm_zh; lit "y"; lit "yes"; lit "ok"; kw_sure_zh]
  then
    let '(room, m') :=
      RoomManager.create_room fresh_id
        (PendingCreation.player_id pending)
        (PendingCreation.player_name pending)
        (PendingCreation.player_umo pending)
        (str_or (PendingCreation.room_name pending) "冒险")
        (default [] (PendingCreation.world_setting pending))
        (timeout_or (PendingCreation.timeout pending) (Config.default_timeout cfg))
        (Config.char_creation_timeout cfg)
        (PendingCreation.original_world_setting pending) m in
    if bool_decide
         (is_Some (pending_creations !! PendingCreation.player_id pending))
    then
      Some (delete (PendingCreation.player_id pending) pending_creations, m',
            match room with
            | Some room => ReplyRoomCreated room
            | None => ReplyCreateFailed
            end)
    else None
  else if text_in t [kw_cancel_zh; lit "n"; lit "no"; lit "cancel"]
  then
    if bool_decide
         (is_Some (pending_creations !! PendingCreation.player_id pending))
    then Some (delete (PendingCreation.player_id pending) pending_creations, m,
               ReplyCreationCancelled)
    else None
  else if text_in t [kw_restart_zh; lit "restart"; lit "reset"]
  then
    Some (<[key := PendingCreation.mk (PendingCreation.player_id pending)
                     (PendingCreation.player_name pending)
                     (PendingCreation.player_umo pending)
                     CreationStep.ROOM_NAME None None None None]>
            pending_creations,
          m, ReplyRestart)
  else Some (pending_creations, m, ReplyConfirmHelp).
End confirm.

(** [cmd_start] for the sender [player_id]. *)
Definition cmd_start (player_id player_name umo : string)
    (pending_creations : gmap string PendingCreation.t) (m : RoomManager.t)
    : gmap string PendingCreation.t * ConfirmReply :=
  match RoomManager.get_room_by_player player_id m with
  | Some _ => (pending_creations, ReplyAlreadyInRoom)
  | None =>
      if bool_decide (is_Some (pending_creations !! player_id))
      then (pending_creations, ReplyAlreadyCreating)
      else if negb (RoomManager.can_create_room m)
      then (pending_creations, ReplyRoomsFull)
      else
        (<[player_id := PendingCreation.mk player_id player_name umo
                          CreationStep.ROOM_NAME None None None None]>
           pending_creations,
         ReplyWizardStarted)
  end.

(** [cmd_cancel] for the sender [player_id]. *)
Definition cmd_cancel (player_id : string)
    (pending_creations : gmap string PendingCreation.t)
    : gmap string PendingCreation.t * ConfirmReply :=
  match pending_creations !! player_id with
  | Some _ => (delete player_id pending_creations, ReplyCancelDone)
  | None => (pending_creations, ReplyNothingToCancel)
  end.

(** A wizard table with alice's wizard at the confirmation step. *)
Definition wizard_at_confirm : PendingCreation.t :=
  PendingCreation.mk "alice" "Alice" "umoA" CreationStep.CONFIRM
    (Some "quest") (Some 120) (Some (lit "a world of ten chars")) None.

(** ** How the engine changes the registry *)

(** The same players under the same keys, whatever else has changed. *)
Definition same_players (r r' : Room.t) : Prop :=
  Room.room_id r' = Room.room_id r
  ∧ prod_map id Player.player_id <$> Room.active_players r'
    = prod_map id Player.player_id <$> Room.active_players r
  ∧ prod_map id Player.player_id <$> Room.pending_players r'
    = prod_map id Player.player_id <$> Room.pending_players r.

(** A later state of the same game: same id and creator, the round not
    lower, the history extended. *)
Definition advances (r r' : Room.t) : Prop :=
  Room.room_id r' = Room.room_id r
  ∧ Room.host_id r' = Room.host_id r
  ∧ Room.current_round r ≤ Room.current_round r'
  ∧ Room.history r `prefix_of` Room.history r'.

(** The registry [m'] comes after [m]: consistency is kept and every room
    of [m'] is a later state of the room [m] has under the same id. *)
Definition follows (m m' : RoomManager.t) : Prop :=
  (registry_inv m → registry_inv m')
  ∧ ∀ k r', RoomManager.rooms m' !! k = Some r' →
            ∃ r, RoomManager.rooms m !! k = Some r ∧ advances r r'.

(** Every [cmd_quickstart] of the run draws a room id that is not in use. *)
Fixpoint draws_fresh (cfg : Config.t) (es : list Event) (w : Plugin.t) : Prop :=
  match es with
  | [] => True
  | e :: es' =>
      match e with
      | CmdQuickstart fresh_id _ _ _ _ =>
          RoomManager.rooms (Plugin.room_manager w) !! fresh_id = None
      | _ => True
      end
      ∧ match step cfg e w with
        | Some w' => draws_fresh cfg es' w'
        | None => True
        end
  end.

(** * Properties *)

(** ** Dictionaries *)

Module DictFacts.
Section dict_facts.
Context {V : Type}.
Implicit Types (d : Dict.t V) (k : string) (v : V).
Import Dict.

Lemma keys_map_values f d : keys (map_values f d) = keys d.
Proof.
unfold keys, map_values. induction d as [|[k v] d IH]; simpl; [done|].
f_equal. exact IH.
Qed.

Lemma get_map_values f k d : get k (map_values f d) = f <$> get k d.
Proof.
induction d as [|[k' v] d IH]; simpl; [done|].
case_decide; [done|]. exact IH.
Qed.

Lemma elem_of_keys k d : k ∈ keys d ↔ is_Some (get k d).
Proof.
unfold keys. induction d as [|[k' v] d IH]; simpl.
- split; [intros H; inversion H | intros [? ?]; discriminate].
- rewrite elem_of_cons. case_decide as Hk.
  + split; [eauto | auto].
  + rewrite IH. naive_solver.
Qed.

Lemma not_elem_of_keys k d : k ∉ keys d ↔ get k d = None.
Proof. rewrite elem_of_keys, eq_None_not_Some. done. Qed.

Lemma get_set_eq k v d : get k (set k v d) = Some v.
Proof.
induction d as [|[k' v'] d IH]; simpl.
- by rewrite decide_True.
- case_decide; simpl; [by rewrite decide_True|].
  by rewrite decide_False.
Qed.

Lemma get_set_ne k k' v d : k ≠ k' → get k' (set k v d) = get k' d.
Proof.
intros Hne. induction d as [|[k'' v'] d IH]; simpl.
- by rewrite decide_False.
- case_decide as H1; simpl.
  + subst k''. by rewrite !decide_False by done.
  + case_decide; [done | exact IH].
Qed.

Lemma get_pop_eq k d : get k (pop k d) = None.
Proof.
induction d as [|[k' v'] d IH]; simpl; [done|].
case_decide; simpl; [done|]. by rewrite decide_False.
Qed.

Lemma get_pop_ne k k' d : k ≠ k' → get k' (pop k d) = get k' d.
Proof.
intros Hne. induction d as [|[k'' v'] d IH]; simpl; [done|].
case_decide as H1; simpl.
- subst k''. by rewrite decide_False.
- case_decide; [done | exact IH].
Qed.

Lemma elem_of_keys_set k k' v d :
k' ∈ keys (set k v d) ↔ k' = k ∨ k' ∈ keys d.
Proof.
rewrite !elem_of_keys. destruct (decide (k = k')) as [->|Hne].
- rewrite get_set_eq. naive_solver.
- rewrite get_set_ne by done. naive_solver.
Qed.

Lemma elem_of_keys_pop k k' d :
k' ∈ keys (pop k d) ↔ k' ≠ k ∧ k' ∈ keys d.
Proof.
rewrite !elem_of_keys. destruct (decide (k = k')) as [->|Hne].
- rewrite get_pop_eq. split; [intros [? ?]; discriminate | naive_solver].
- rewrite get_pop_ne by done. naive_solver.
Qed.

Lemma keys_set_new k v d : k ∉ keys d → keys (set k v d) = keys d ++ [k].
Proof.
unfold keys. induction d as [|[k' v'] d IH]; simpl; [done|].
rewrite not_elem_of_cons. intros [Hne Hni].
rewrite decide_False by done. simpl. f_equal. by apply IH.
Qed.

Lemma keys_set_old k v d : k ∈ keys d → keys (set k v d) = keys d.
Proof.
unfold keys. induction d as [|[k' v'] d IH]; simpl.
- intros H; inversion H.
- case_decide as Hk; simpl; [by subst|].
  rewrite elem_of_cons. intros [?|Hin]; [done|]. f_equal. by apply IH.
Qed.

Lemma NoDup_keys_set k v d : NoDup (keys d) → NoDup (keys (set k v d)).
Proof.
intros Hnd. destruct (decide (k ∈ keys d)) as [Hin|Hni].
- by rewrite keys_set_old.
- rewrite keys_set_new by done. apply NoDup_app. split_and!; [done| |].
  + intros x Hx Hx'. apply list_elem_of_singleton in Hx'. by subst.
  + apply NoDup_singleton.
Qed.

Lemma pop_not_in k d : k ∉ keys d → pop k d = d.
Proof.
unfold keys. induction d as [|[k' v'] d IH]; simpl; [done|].
rewrite not_elem_of_cons. intros [Hne Hni].
rewrite decide_False by done. by rewrite IH.
Qed.

Lemma keys_pop_sublist k d : keys (pop k d) `sublist_of` keys d.
Proof.
unfold keys. induction d as [|[k' v'] d IH]; simpl; [done|].
case_decide; simpl; [by apply sublist_cons | by apply sublist_skip].
Qed.

Lemma NoDup_keys_pop k d : NoDup (keys d) → NoDup (keys (pop k d)).
Proof.
intros Hnd. pose proof (keys_pop_sublist k d) as Hs.
eapply sublist_NoDup; eassumption.
Qed.

Lemma length_keys d : length (keys d) = length d.
Proof. unfold keys. by rewrite length_fmap. Qed.

Lemma length_pop_in k d :
NoDup (keys d) → k ∈ keys d → S (length (pop k d)) = length d.
Proof.
unfold keys. induction d as [|[k' v'] d IH]; simpl.
- intros _ H; inversion H.
- rewrite NoDup_cons. intros [Hni Hnd]. case_decide as Hk.
  + subst k'. intros _. by rewrite pop_not_in.
  + rewrite elem_of_cons. intros [?|Hin]; [done|]. simpl.
    f_equal. by apply IH.
Qed.

Lemma elem_of_get k v d : (k, v) ∈ d → NoDup (keys d) → get k d = Some v.
Proof.
unfold keys. induction d as [|[k' v'] d IH]; simpl.
- intros H; inversion H.
- rewrite elem_of_cons, NoDup_cons. intros [Heq|Hin] [Hni Hnd].
  + inversion Heq; subst. by rewrite decide_True.
  + case_decide as Hk; [|by apply IH]. subst k'.
    exfalso. apply Hni. apply list_elem_of_fmap. by exists (k, v).
Qed.

Lemma get_elem_of k v d : get k d = Some v → (k, v) ∈ d.
Proof.
induction d as [|[k' v'] d IH]; simpl; [done|].
case_decide as Hk.
- intros [= ->]. subst. apply list_elem_of_here.
- intros H. apply list_elem_of_further. by apply IH.
Qed.
Lemma elem_of_set k v k' v' d :
  (k', v') ∈ set k v d → (k', v') = (k, v) ∨ (k', v') ∈ d.
Proof.
  induction d as [|[k'' v''] d IH]; simpl.
  - rewrite list_elem_of_singleton. auto.
  - case_decide; rewrite !elem_of_cons; naive_solver.
Qed.

Lemma elem_of_pop k k' v' d : (k', v') ∈ pop k d → (k', v') ∈ d.
Proof.
  induction d as [|[k'' v''] d IH]; simpl; [done|].
  case_decide; rewrite !elem_of_cons; naive_solver.
Qed.

Lemma values_pairs d v : v ∈ values d ↔ ∃ k, (k, v) ∈ d.
Proof.
  unfold values. rewrite list_elem_of_fmap. split.
  - intros [[k v'] [-> Hin]]. by exists k.
  - intros [k Hin]. by exists (k, v).
Qed.

Lemma keys_pairs d k : k ∈ keys d ↔ ∃ v, (k, v) ∈ d.
Proof.
  unfold keys. rewrite list_elem_of_fmap. split.
  - intros [[k' v] [-> Hin]]. by exists v.
  - intros [v Hin]. by exists (k, v).
Qed.
End dict_facts.
End DictFacts.

(** ** Rooms *)

Section room_facts.
Implicit Types (a pend : Dict.t Player.t) (r : Room.t).

(** The step of the loop of [activate_pending_players]. *)
Local Abbreviation move_in :=
  (λ (act : Dict.t Player.t) (kp : string * Player.t),
     Dict.set kp.1 (Player.set_status PlayerStatus.ACTIVE kp.2) act).

Lemma activate_keys a pend :
  NoDup (Dict.keys a ++ Dict.keys pend) →
  Dict.keys (foldl move_in a pend) = Dict.keys a ++ Dict.keys pend.
Proof.
  revert a. induction pend as [|[k p] pend IH]; intros a Hnd; simpl.
  - by rewrite app_nil_r.
  - assert (k ∉ Dict.keys a) as Hk.
    { apply NoDup_app in Hnd as (_ & Hdisj & _). intros Hin.
      apply (Hdisj k Hin). apply list_elem_of_here. }
    rewrite IH.
    + rewrite DictFacts.keys_set_new by done. by rewrite <- app_assoc.
    + rewrite DictFacts.keys_set_new by done. rewrite <- app_assoc. exact Hnd.
Qed.

Lemma activate_elem a pend k p :
  (k, p) ∈ foldl move_in a pend →
  (k, p) ∈ a ∨ ∃ p0, (k, p0) ∈ pend ∧ p = Player.set_status PlayerStatus.ACTIVE p0.
Proof.
  revert a. induction pend as [|[k' p'] pend IH]; intros a; simpl; [auto|].
  intros Hin. apply IH in Hin as [Hin|(p0 & Hin & ->)].
  - apply DictFacts.elem_of_set in Hin as [[= -> ->]|Hin]; [|auto].
    right. exists p'. split; [apply list_elem_of_here | done].
  - right. exists p0. split; [by apply list_elem_of_further | done].
Qed.

Lemma activate_get_other a pend k :
  k ∉ Dict.keys pend → Dict.get k (foldl move_in a pend) = Dict.get k a.
Proof.
  revert a. induction pend as [|[k' p'] pend IH]; intros a; simpl; [done|].
  unfold Dict.keys. simpl. rewrite not_elem_of_cons. intros [Hne Hni].
  rewrite IH by done. by apply DictFacts.get_set_ne.
Qed.

Lemma activate_get_pending a pend k p0 :
  NoDup (Dict.keys pend) → (k, p0) ∈ pend →
  Dict.get k (foldl move_in a pend)
  = Some (Player.set_status PlayerStatus.ACTIVE p0).
Proof.
  revert a. induction pend as [|[k' p'] pend IH]; intros a; simpl.
  - intros _ H. inversion H.
  - unfold Dict.keys. simpl. rewrite NoDup_cons, elem_of_cons.
    intros [Hni Hnd] [[= -> ->]|Hin].
    + rewrite activate_get_other by done. apply DictFacts.get_set_eq.
    + by apply IH.
Qed.

Lemma members_set_status s r : members (Room.set_status s r) = members r.
Proof. done. Qed.

Lemma members_set_paused b r : members (Room.set_paused b r) = members r.
Proof. done. Qed.

Lemma members_apply_pending_config r :
  members (Room.apply_pending_config r) = members r.
Proof. unfold Room.apply_pending_config. by destruct (PendingConfig.timeout _). Qed.

Lemma room_wf_activate rid r :
  room_wf rid r → room_wf rid (Room.activate_pending_players r).
Proof.
  intros [Hid Hnd Hpid]. constructor; simpl.
  - done.
  - unfold members. simpl. rewrite app_nil_r. by rewrite activate_keys.
  - intros k p. rewrite app_nil_r. intros Hin.
    apply activate_elem in Hin as [Hin|(p0 & Hin & ->)].
    + apply Hpid. apply elem_of_app. by left.
    + simpl. apply Hpid. apply elem_of_app. by right.
Qed.

Lemma members_activate r :
  NoDup (members r) → members (Room.activate_pending_players r) = members r.
Proof.
  intros Hnd. unfold members. simpl. rewrite app_nil_r. by apply activate_keys.
Qed.

Lemma room_wf_apply_pending_config rid r :
  room_wf rid r → room_wf rid (Room.apply_pending_config r).
Proof.
  unfold Room.apply_pending_config.
  destruct (PendingConfig.timeout _); [|done]. by intros [? ? ?].
Qed.

Lemma room_wf_set_status rid s r : room_wf rid r → room_wf rid (Room.set_status s r).
Proof. by intros [? ? ?]. Qed.

Lemma room_wf_set_paused rid b r : room_wf rid r → room_wf rid (Room.set_paused b r).
Proof. by intros [? ? ?]. Qed.

(** The ids of the players of a well-formed room are its members. *)
Lemma player_ids_members rid r :
  room_wf rid r → Player.player_id <$> Room.get_all_players r = members r.
Proof.
  intros [_ _ Hpid]. unfold Room.get_all_players, members, Dict.values, Dict.keys.
  rewrite <- !fmap_app. rewrite <- list_fmap_compose.
  apply Forall_fmap_ext_1, Forall_forall. intros [k p] Hin. simpl.
  by apply Hpid.
Qed.
End room_facts.

(** ** The registry invariant *)

Section registry_facts.
Implicit Types (m : RoomManager.t) (r : Room.t).

Lemma lookup_foldl_delete (prm : gmap string string) (l : list Player.t) pid :
  foldl (λ prm p, delete (Player.player_id p) prm) prm l !! pid
  = if decide (pid ∈ Player.player_id <$> l) then None else prm !! pid.
Proof.
  revert prm. induction l as [|p l IH]; intros prm.
  - destruct (decide (pid ∈ Player.player_id <$> [])) as [H|H];
      [by apply elem_of_nil in H | done].
  - change (foldl (λ prm p, delete (Player.player_id p) prm)
              (delete (Player.player_id p) prm) l !! pid
            = if decide (pid ∈ Player.player_id p :: (Player.player_id <$> l))
              then None else prm !! pid).
    rewrite IH. rewrite lookup_delete.
    repeat case_decide; try done; subst;
      rewrite elem_of_cons in *; naive_solver.
Qed.

Lemma elem_of_members_join_active pid p r x :
  x ∈ members
        (Room.set_active_players (Dict.set pid p (Room.active_players r)) r)
  ↔ x = pid ∨ x ∈ members r.
Proof.
  unfold members. simpl. rewrite !elem_of_app, DictFacts.elem_of_keys_set.
  naive_solver.
Qed.

Lemma elem_of_members_join_pending pid p r x :
  x ∈ members
        (Room.set_pending_players (Dict.set pid p (Room.pending_players r)) r)
  ↔ x = pid ∨ x ∈ members r.
Proof.
  unfold members. simpl. rewrite !elem_of_app, DictFacts.elem_of_keys_set.
  naive_solver.
Qed.

Lemma elem_of_members_leave pid r x :
  x ∈ members
        (Room.set_pending_players (Dict.pop pid (Room.pending_players r))
           (Room.set_active_players (Dict.pop pid (Room.active_players r)) r))
  ↔ x ≠ pid ∧ x ∈ members r.
Proof.
  unfold members. simpl. rewrite !elem_of_app, !DictFacts.elem_of_keys_pop.
  naive_solver.
Qed.

Lemma room_wf_join_active rid pid name umo r :
  room_wf rid r → pid ∉ members r →
  room_wf rid
    (Room.set_active_players
       (Dict.set pid (Player.new pid name umo) (Room.active_players r)) r).
Proof.
  intros [Hid Hnd Hpid] Hni. unfold members in *.
  apply not_elem_of_app in Hni as [Hna Hnp].
  constructor; simpl; [done| |].
  - unfold members. simpl. rewrite DictFacts.keys_set_new by done.
    apply NoDup_app in Hnd as (Ha & Hdisj & Hp).
    apply NoDup_app. split_and!; [| |done].
    + apply NoDup_app. split_and!; [done| |apply NoDup_singleton].
      intros x Hx Hx'. apply list_elem_of_singleton in Hx'. by subst.
    + intros x Hx. apply elem_of_app in Hx as [Hx|Hx]; [by apply Hdisj|].
      apply list_elem_of_singleton in Hx. by subst.
  - intros k p. rewrite elem_of_app. intros [Hin|Hin].
    + apply DictFacts.elem_of_set in Hin as [[= -> ->]|Hin]; [done|].
      apply Hpid. apply elem_of_app. by left.
    + apply Hpid. apply elem_of_app. by right.
Qed.

Lemma room_wf_join_pending rid pid name umo r :
  room_wf rid r → pid ∉ members r →
  room_wf rid
    (Room.set_pending_players
       (Dict.set pid
          (Player.set_status PlayerStatus.PENDING (Player.new pid name umo))
          (Room.pending_players r)) r).
Proof.
  intros [Hid Hnd Hpid] Hni. unfold members in *.
  apply not_elem_of_app in Hni as [Hna Hnp].
  constructor; simpl; [done| |].
  - unfold members. simpl.
    rewrite DictFacts.keys_set_new by done. rewrite app_assoc.
    apply NoDup_app. split_and!; [done| |apply NoDup_singleton].
    intros x Hx Hx'. apply list_elem_of_singleton in Hx'. subst.
    apply elem_of_app in Hx as [?|?]; done.
  - intros k p. rewrite elem_of_app. intros [Hin|Hin].
    + apply Hpid. apply elem_of_app. by left.
    + apply DictFacts.elem_of_set in Hin as [[= -> ->]|Hin]; [done|].
      apply Hpid. apply elem_of_app. by right.
Qed.

Lemma room_wf_leave rid pid r :
  room_wf rid r →
  room_wf rid
    (Room.set_pending_players (Dict.pop pid (Room.pending_players r))
       (Room.set_active_players (Dict.pop pid (Room.active_players r)) r)).
Proof.
  intros [Hid Hnd Hpid]. constructor; simpl; [done| |].
  - unfold members in *. simpl. eapply sublist_NoDup; [exact Hnd|].
    apply sublist_app; apply DictFacts.keys_pop_sublist.
  - intros k p. rewrite elem_of_app. intros [Hin|Hin];
      apply DictFacts.elem_of_pop in Hin; apply Hpid; apply elem_of_app; auto.
Qed.

Lemma registry_inv_new max : registry_inv (RoomManager.new max).
Proof.
  split; simpl.
  - intros rid r. by rewrite lookup_empty.
  - intros pid rid. rewrite lookup_empty. split; [done|].
    intros (r & Hr & _). by rewrite lookup_empty in Hr.
Qed.

(** A member of a registered room is indexed to that room and to no other. *)
Lemma member_indexed m rid r pid :
  registry_inv m → RoomManager.rooms m !! rid = Some r → pid ∈ members r →
  RoomManager.player_room_map m !! pid = Some rid.
Proof. intros [_ Hidx] Hr Hin. apply Hidx. eauto. Qed.

Lemma create_room_inv fresh host name umo rname world t ct orig m :
  registry_inv m → RoomManager.rooms m !! fresh = None →
  registry_inv
    (RoomManager.create_room fresh host name umo rname world t ct orig m).2.
Proof.
  intros Hinv Hfresh. unfold RoomManager.create_room.
  destruct (negb _ || bool_decide _) eqn:E; [done|]. simpl.
  apply orb_false_iff in E as [_ Hh]. apply bool_decide_eq_false in Hh.
  rewrite <- eq_None_not_Some in Hh. destruct Hinv as [Hwf Hidx].
  split; simpl.
  - intros rid r. rewrite lookup_insert. case_decide as Hrid; [|by apply Hwf].
    intros [= <-]. subst rid. constructor; simpl; [done| |].
    + unfold members. simpl. apply NoDup_singleton.
    + intros k p. rewrite list_elem_of_singleton. by intros [= -> ->].
  - intros pid rid. rewrite !lookup_insert.
    destruct (decide (host = pid)) as [->|Hne].
    + split.
      * intros [= <-]. rewrite decide_True by done. eexists. split; [done|].
        unfold members. simpl. apply list_elem_of_here.
      * intros (r & Hr & Hin). case_decide as Hrid; [by subst|].
        assert (RoomManager.player_room_map m !! pid = Some rid) as Hc
          by (apply Hidx; eauto). congruence.
    + rewrite Hidx. split; intros (r & Hr & Hin).
      * case_decide as Hrid; [subst; congruence|]. eauto.
      * case_decide as Hrid; [|eauto]. injection Hr as <-. subst.
        unfold members in Hin. simpl in Hin.
        apply list_elem_of_singleton in Hin. by subst.
Qed.

Lemma join_room_inv rid pid name umo max m :
  registry_inv m →
  registry_inv (RoomManager.join_room rid pid name umo max m).2.
Proof.
  intros Hinv. unfold RoomManager.join_room, RoomManager.get_room.
  destruct (RoomManager.rooms m !! rid) as [room|] eqn:Hroom; [|done].
  repeat (case_match; [done|]).
  match goal with H : bool_decide (is_Some _) = false |- _ =>
    apply bool_decide_eq_false in H; rewrite <- eq_None_not_Some in H;
    rename H into Hnone end.
  assert (pid ∉ members room) as Hni.
  { intros Hin. by rewrite (member_indexed _ _ _ _ Hinv Hroom Hin) in Hnone. }
  destruct Hinv as [Hwf Hidx].
  set (room' := if Room.paused room then _ else _).
  assert (room_wf rid room') as Hwf'.
  { subst room'. destruct (Room.paused room);
      [apply room_wf_join_pending | apply room_wf_join_active]; eauto. }
  assert (∀ x, x ∈ members room' ↔ x = pid ∨ x ∈ members room) as Hmem.
  { intros x. subst room'. destruct (Room.paused room);
      [apply elem_of_members_join_pending | apply elem_of_members_join_active]. }
  clearbody room'. clear -Hwf Hidx Hroom Hnone Hni Hwf' Hmem. split; simpl.
  - intros rid' r. rewrite lookup_insert. case_decide; [|by apply Hwf].
    intros [= <-]. by subst.
  - intros p rid'. rewrite !lookup_insert.
    destruct (decide (pid = p)) as [->|Hne].
    + split.
      * intros [= <-]. rewrite decide_True by done. eexists. split; [done|].
        apply Hmem. by left.
      * intros (r & Hr & Hin). case_decide as Hrid; [by subst|].
        assert (RoomManager.player_room_map m !! p = Some rid') as Hc
          by (apply Hidx; eauto). congruence.
    + rewrite Hidx. split; intros (r & Hr & Hin).
      * case_decide as Hrid; [|eauto]. subst rid'.
        exists room'. split; [done|]. apply Hmem. right. congruence.
      * case_decide as Hrid; [|eauto]. injection Hr as <-. subst rid'.
        exists room. split; [done|]. apply Hmem in Hin as [?|?]; [by subst|done].
Qed.

Lemma close_room_inv rid m :
  registry_inv m → registry_inv (RoomManager.close_room rid m).2.
Proof.
  intros Hinv. unfold RoomManager.close_room, RoomManager.get_room.
  destruct (RoomManager.rooms m !! rid) as [room|] eqn:Hroom; [|done].
  pose proof Hinv as [Hwf Hidx]. split; simpl.
  - intros rid' r. rewrite lookup_delete. case_decide; [done|]. apply Hwf.
  - intros pid rid'. rewrite lookup_foldl_delete.
    rewrite (player_ids_members rid) by eauto.
    destruct (decide (pid ∈ members room)) as [Hin|Hni].
    + split; [done|]. intros (r & Hr & Hin').
      rewrite lookup_delete in Hr. case_decide as Hrid; [done|].
      assert (RoomManager.player_room_map m !! pid = Some rid') as H1
        by (apply Hidx; eauto).
      rewrite (member_indexed _ _ _ _ Hinv Hroom Hin) in H1. congruence.
    + rewrite Hidx. split; intros (r & Hr & Hin).
      * exists r. split; [|done]. rewrite lookup_delete.
        case_decide as Hrid; [|done]. subst. congruence.
      * rewrite lookup_delete in Hr. case_decide; [done|]. eauto.
Qed.

(** What [get_room_by_player] finds. *)
Lemma get_room_by_player_Some pid m room :
  RoomManager.get_room_by_player pid m = Some room →
  ∃ key, RoomManager.player_room_map m !! pid = Some key
         ∧ RoomManager.rooms m !! key = Some room.
Proof.
  unfold RoomManager.get_room_by_player.
  destruct (RoomManager.player_room_map m !! pid) as [key|]; [|done].
  case_bool_decide; [done|]. eauto.
Qed.

(** The registry after the two [pop]s and the [del] of [leave_room]. *)
Lemma leave_room_pops_inv pid key room m :
  registry_inv m →
  RoomManager.player_room_map m !! pid = Some key →
  RoomManager.rooms m !! key = Some room →
  registry_inv
    (RoomManager.mk
       (<[key := Room.set_pending_players
                   (Dict.pop pid (Room.pending_players room))
                   (Room.set_active_players
                      (Dict.pop pid (Room.active_players room)) room)]>
          (RoomManager.rooms m))
       (delete pid (RoomManager.player_room_map m))
       (RoomManager.max_rooms m)).
Proof.
  intros Hinv Hkey Hroom. pose proof Hinv as [Hwf Hidx]. split; simpl.
  - intros rid' r. rewrite lookup_insert. case_decide; [|by apply Hwf].
    intros [= <-]. subst. apply room_wf_leave. eauto.
  - intros p rid'. rewrite lookup_delete, lookup_insert.
    destruct (decide (pid = p)) as [->|Hne].
    + split; [done|]. intros (r & Hr & Hin). case_decide as Hrid.
      * injection Hr as <-. apply elem_of_members_leave in Hin. naive_solver.
      * assert (RoomManager.player_room_map m !! p = Some rid') as H1
          by (apply Hidx; eauto). congruence.
    + rewrite Hidx. split; intros (r & Hr & Hin).
      * case_decide as Hrid; [|eauto]. subst rid'.
        eexists. split; [done|]. apply elem_of_members_leave.
        split; [done|]. congruence.
      * case_decide as Hrid; [|eauto]. injection Hr as <-. subst rid'.
        exists room. split; [done|]. by apply elem_of_members_leave in Hin as [_ ?].
Qed.

Lemma leave_room_inv pid m :
  registry_inv m → registry_inv (RoomManager.leave_room pid m).2.
Proof.
  intros Hinv. unfold RoomManager.leave_room.
  destruct (RoomManager.get_room_by_player pid m) as [room|] eqn:Hget; [|done].
  apply get_room_by_player_Some in Hget as (key & Hkey & Hroom).
  rewrite Hkey. simpl.
  pose proof (leave_room_pops_inv _ _ _ _ Hinv Hkey Hroom) as Hinv'.
  case_bool_decide; simpl; [by apply close_room_inv | done].
Qed.

(** Replacing a room by one with the same members keeps the invariant. *)
Lemma update_room_inv rid room room' m :
  registry_inv m → RoomManager.rooms m !! rid = Some room →
  room_wf rid room' → members room' = members room →
  registry_inv
    (RoomManager.mk (<[rid := room']> (RoomManager.rooms m))
       (RoomManager.player_room_map m) (RoomManager.max_rooms m)).
Proof.
  intros [Hwf Hidx] Hroom Hwf' Hmem. split; simpl.
  - intros rid' r. rewrite lookup_insert. case_decide; [|by apply Hwf].
    intros [= <-]. by subst.
  - intros p rid'. rewrite Hidx, lookup_insert. split; intros (r & Hr & Hin).
    + case_decide as Hrid; [|eauto]. subst rid'. exists room'.
      split; [done|]. rewrite Hmem. congruence.
    + case_decide as Hrid; [|eauto]. injection Hr as <-. subst rid'.
      exists room. split; [done|]. by rewrite <- Hmem.
Qed.

Lemma pause_room_inv rid pid m :
  registry_inv m → registry_inv (RoomManager.pause_room rid pid m).2.
Proof.
  intros Hinv. unfold RoomManager.pause_room, RoomManager.get_room.
  destruct (RoomManager.rooms m !! rid) as [room|] eqn:Hroom; [|done].
  repeat (case_match; [done|]). simpl.
  eapply update_room_inv; [done..| |done].
  apply room_wf_set_status, room_wf_set_paused. by apply Hinv.
Qed.

Lemma resume_room_inv rid pid m :
  registry_inv m → registry_inv (RoomManager.resume_room rid pid m).2.
Proof.
  intros Hinv. unfold RoomManager.resume_room, RoomManager.get_room.
  destruct (RoomManager.rooms m !! rid) as [room|] eqn:Hroom; [|done].
  repeat (case_match; [done|]). simpl.
  assert (room_wf rid room) as Hwf by by apply Hinv.
  eapply update_room_inv; [done..| |].
  - by apply room_wf_set_status, room_wf_set_paused, room_wf_activate,
      room_wf_apply_pending_config.
  - rewrite members_set_status, members_set_paused, members_activate.
    + apply members_apply_pending_config.
    + rewrite members_apply_pending_config. apply Hwf.
Qed.

Lemma apply_op_inv op m :
  registry_inv m → ids_fresh [op] m → registry_inv (apply_op op m).
Proof.
  intros Hinv [Hfresh _]. destruct op; simpl.
  - by apply create_room_inv.
  - by apply join_room_inv.
  - by apply leave_room_inv.
  - by apply close_room_inv.
  - by apply pause_room_inv.
  - by apply resume_room_inv.
Qed.

Lemma run_ops_inv ops m :
  registry_inv m → ids_fresh ops m → registry_inv (run_ops ops m).
Proof.
  revert m. induction ops as [|op ops IH]; intros m Hinv Hfresh; simpl; [done|].
  destruct Hfresh as [Hop Hrest]. apply IH; [|done].
  apply apply_op_inv; [done|]. by split.
Qed.
End registry_facts.

(** ** The registry: membership and the reverse index *)

(** C8. After every sequence of registry operations (create, join, leave,
    close, pause, resume) from the empty registry, each create drawing a room
    id that is not in use: in every room no identity is both active and
    pending, and the reverse index maps a player to a room id exactly when
    that room is registered and has the player among its active or pending
    members. *)
Theorem registry_membership_invariant (max_rooms : Z) (ops : list RegistryOp) :
  ids_fresh ops (RoomManager.new max_rooms) →
  let m := run_ops ops (RoomManager.new max_rooms) in
  (∀ rid room, RoomManager.rooms m !! rid = Some room →
     ∀ pid, ¬ (pid ∈ Dict.keys (Room.active_players room)
               ∧ pid ∈ Dict.keys (Room.pending_players room)))
  ∧ (∀ pid rid,
       RoomManager.player_room_map m !! pid = Some rid
       ↔ ∃ room, RoomManager.rooms m !! rid = Some room
                 ∧ (pid ∈ Dict.keys (Room.active_players room)
                    ∨ pid ∈ Dict.keys (Room.pending_players room))).
Proof.
  intros Hfresh m.
  assert (registry_inv m) as [Hwf Hidx]
    by (apply run_ops_inv; [apply registry_inv_new | done]).
  split.
  - intros rid room Hroom pid [Ha Hp].
    destruct (Hwf rid room Hroom) as [_ Hnd _]. unfold members in Hnd.
    apply NoDup_app in Hnd as (_ & Hdisj & _). by apply (Hdisj pid).
  - intros pid rid. rewrite Hidx. unfold members.
    by setoid_rewrite elem_of_app.
Qed.

Lemma registry_membership_invariant_witness :
  ids_fresh busy_ops (RoomManager.new 10)
  ∧ RoomManager.player_room_map (run_ops busy_ops (RoomManager.new 10)) !! "carol"
    = Some "r1"
  ∧ RoomManager.player_room_map (run_ops busy_ops (RoomManager.new 10)) !! "bob"
    = None.
Proof.
  assert (ids_fresh busy_ops (RoomManager.new 10)) as Hfresh
    by (vm_compute; tauto).
  destruct (registry_membership_invariant 10 busy_ops Hfresh) as [_ Hidx].
  split; [exact Hfresh|]. split.
  - apply Hidx. eexists. split; [vm_compute; reflexivity|].
    left. vm_compute. apply list_elem_of_further, list_elem_of_here.
  - vm_compute. reflexivity.
Defined.

(** C5. When the creator leaves, the room is closed whatever its state:
    it is deleted from the registry and every member, active or pending,
    the creator included, is removed from the reverse index, which loses
    exactly as many entries as the room had members (n + 1 for a creator
    with n other members); the other players keep their entry. *)
Theorem creator_leave_closes_room (m : RoomManager.t) (player_id : string)
    (room : Room.t) :
  registry_inv m →
  RoomManager.get_room_by_player player_id m = Some room →
  player_id = Room.host_id room →
  let res := RoomManager.leave_room player_id m in
  res.1 = (true, "房主离开，房间关闭")
  ∧ RoomManager.rooms res.2 = delete (Room.room_id room) (RoomManager.rooms m)
  ∧ (∀ p, p ∈ members room → RoomManager.player_room_map res.2 !! p = None)
  ∧ (∀ p, p ∉ members room →
          RoomManager.player_room_map res.2 !! p
          = RoomManager.player_room_map m !! p)
  ∧ (size (RoomManager.player_room_map res.2) + length (members room)
     = size (RoomManager.player_room_map m))%nat.
Proof.
  intros Hinv Hget Hhost res.
  apply get_room_by_player_Some in Hget as Hfound.
  destruct Hfound as (key & Hkey & Hroom).
  pose proof Hinv as [Hwf Hidx].
  pose proof (Hwf _ _ Hroom) as Hwfr. pose proof (wf_room_id _ _ Hwfr) as Hid.
  assert (player_id ∈ members room) as Hmem.
  { apply Hidx in Hkey as (r & Hr & Hin). congruence. }
  set (room' := Room.set_pending_players
                  (Dict.pop player_id (Room.pending_players room))
                  (Room.set_active_players
                     (Dict.pop player_id (Room.active_players room)) room)).
  assert (room_wf key room') as Hwfr' by by apply room_wf_leave.
  assert (res = ((true, "房主离开，房间关闭"),
                 RoomManager.mk (delete key (RoomManager.rooms m))
                   (foldl (λ prm p, delete (Player.player_id p) prm)
                      (delete player_id (RoomManager.player_room_map m))
                      (Room.get_all_players room'))
                   (RoomManager.max_rooms m))) as ->.
  { subst res. unfold RoomManager.leave_room. rewrite Hget, Hkey. simpl.
    rewrite bool_decide_eq_true_2 by done. simpl.
    unfold RoomManager.close_room, RoomManager.get_room. simpl.
    rewrite Hid, lookup_insert_eq. simpl. by rewrite delete_insert_eq. }
  simpl.
  assert (∀ p, foldl (λ prm p, delete (Player.player_id p) prm)
                 (delete player_id (RoomManager.player_room_map m))
                 (Room.get_all_players room') !! p
               = if decide (p ∈ members room) then None
                 else RoomManager.player_room_map m !! p) as Hlook.
  { intros p. rewrite lookup_foldl_delete, (player_ids_members key) by done.
    subst room'. destruct (decide (p = player_id)) as [->|Hne].
    - rewrite lookup_delete_eq. by repeat case_decide.
    - rewrite lookup_delete_ne by done.
      repeat case_decide; try done;
        rewrite elem_of_members_leave in *; naive_solver. }
  split_and!.
  - done.
  - by rewrite Hid.
  - intros p Hp. rewrite Hlook. by rewrite decide_True.
  - intros p Hp. rewrite Hlook. by rewrite decide_False.
  - rewrite <- !size_dom.
    rewrite <- (size_list_to_set (C := gset string)) by apply Hwfr.
    set (prm' := foldl _ _ _) in *.
    assert (dom prm' = dom (RoomManager.player_room_map m)
                         ∖ list_to_set (members room)) as ->.
    { apply set_eq. intros p.
      rewrite elem_of_difference, !elem_of_dom, Hlook, elem_of_list_to_set.
      case_decide; [|naive_solver]. split; [by intros [? ?]|naive_solver]. }
    assert (list_to_set (members room)
            ⊆@{gset string} dom (RoomManager.player_room_map m)) as Hsub.
    { intros p Hp. apply elem_of_list_to_set in Hp. apply elem_of_dom.
      exists key. apply Hidx. eauto. }
    rewrite size_difference by done.
    apply subseteq_size in Hsub. lia.
Qed.

Lemma creator_leave_closes_room_witness :
  RoomManager.rooms (RoomManager.leave_room "alice" party).2 !! "r1" = None
  ∧ (size (RoomManager.player_room_map (RoomManager.leave_room "alice" party).2)
     + 4 = size (RoomManager.player_room_map party))%nat.
Proof.
  assert (registry_inv party) as Hinv.
  { apply run_ops_inv; [apply registry_inv_new | vm_compute; tauto]. }
  destruct (creator_leave_closes_room party "alice" party_room Hinv)
    as (_ & Hrooms & _ & _ & Hsize); [reflexivity | reflexivity |].
  split.
  - rewrite Hrooms. apply lookup_delete_eq.
  - exact Hsize.
Defined.

(** ** The registry: joining, pausing and resuming *)

(** C4. [join_room] is rejected, and the registry is left as it was, when
    the room does not exist, is CLOSED, is in CHARACTER_CREATION or ACTIVE,
    the player is already in the reverse index, or active plus pending
    members have reached [max_players]; and a player who is in no room joins
    a paused room (phase PAUSED, [paused] set) that has space by being put
    into [pending_players] with status PENDING, [active_players] untouched. *)
Theorem join_room_admission (m : RoomManager.t)
    (room_id player_id player_name player_umo : string) (max_players : Z) :
  let res := RoomManager.join_room room_id player_id player_name player_umo
               max_players m in
  ((RoomManager.rooms m !! room_id = None
    ∨ (∃ room, RoomManager.rooms m !! room_id = Some room
               ∧ (Room.status room = RoomStatus.CLOSED
                  ∨ Room.status room = RoomStatus.CHARACTER_CREATION
                  ∨ Room.status room = RoomStatus.ACTIVE
                  ∨ max_players
                    ≤ Z.of_nat (length (Room.active_players room))
                      + Z.of_nat (length (Room.pending_players room))))
    ∨ is_Some (RoomManager.player_room_map m !! player_id))
   → res.1.1 = false ∧ res.2 = m)
  ∧ (∀ room,
       RoomManager.rooms m !! room_id = Some room →
       Room.status room = RoomStatus.PAUSED → Room.paused room = true →
       RoomManager.player_room_map m !! player_id = None →
       Z.of_nat (length (Room.active_players room))
       + Z.of_nat (length (Room.pending_players room)) < max_players →
       res = ((true, "已加入"),
              RoomManager.mk
                (<[room_id :=
                     Room.set_pending_players
                       (Dict.set player_id
                          (Player.mk player_id player_name player_umo None None
                             PlayerStatus.PENDING None)
                          (Room.pending_players room)) room]>
                   (RoomManager.rooms m))
                (<[player_id := room_id]> (RoomManager.player_room_map m))
                (RoomManager.max_rooms m))).
Proof.
  intros res. subst res.
  unfold RoomManager.join_room, RoomManager.get_room,
    Room.get_active_player_count.
  split.
  - intros Hrej.
    destruct (RoomManager.rooms m !! room_id) as [room|] eqn:Hroom; [|done].
    repeat (case_bool_decide || case_match); simpl in *; try done;
      exfalso; destruct Hrej as [?|[(r & Heq & Hr)|?]]; try done;
      injection Heq as <-; naive_solver.
  - intros room Hroom Hst Hp Hnone Hcount. rewrite Hroom, Hst, Hp, Hnone. simpl.
    rewrite bool_decide_eq_false_2 by lia. done.
Qed.

Lemma join_room_admission_witness :
  (RoomManager.join_room "r9" "bob" "Bob" "umoB" 8 paused_registry).2
  = paused_registry
  ∧ Dict.get "bob"
      (Room.pending_players
         (default staged_room
            (RoomManager.rooms
               (RoomManager.join_room "r1" "bob" "Bob" "umoB" 8
                  paused_registry).2 !! "r1")))
    = Some (Player.mk "bob" "Bob" "umoB" None None PlayerStatus.PENDING None).
Proof.
  split.
  - apply (join_room_admission paused_registry "r9" "bob" "Bob" "umoB" 8).
    left. reflexivity.
  - destruct (join_room_admission paused_registry "r1" "bob" "Bob" "umoB" 8)
      as [_ Hjoin].
    rewrite (Hjoin (default staged_room
                      (RoomManager.rooms paused_registry !! "r1")));
      [reflexivity | reflexivity | reflexivity | reflexivity | reflexivity
      | vm_compute; reflexivity].
Defined.

(** C10. The creator can pause a room that is not paused in any phase,
    WAITING and CHARACTER_CREATION included; the phase before the pause is
    overwritten and kept nowhere; resuming then makes the room ACTIVE, with
    the players that were active left exactly as they were, so a room paused
    while WAITING becomes ACTIVE with no character creation in between. *)
Theorem pause_resume_any_phase (m : RoomManager.t) (room_id player_id : string)
    (room : Room.t) :
  RoomManager.rooms m !! room_id = Some room →
  player_id = Room.host_id room →
  Room.paused room = false →
  let paused_room :=
    Room.set_status RoomStatus.PAUSED (Room.set_paused true room) in
  let m1 := RoomManager.mk (<[room_id := paused_room]> (RoomManager.rooms m))
              (RoomManager.player_room_map m) (RoomManager.max_rooms m) in
  let resumed_room :=
    Room.set_status RoomStatus.ACTIVE
      (Room.set_paused false
         (Room.activate_pending_players
            (Room.apply_pending_config paused_room))) in
  RoomManager.pause_room room_id player_id m = ((true, "已暂停"), m1)
  ∧ (∀ s, Room.set_status RoomStatus.PAUSED
            (Room.set_paused true (Room.set_status s room)) = paused_room)
  ∧ RoomManager.resume_room room_id player_id m1
    = ((true, "已恢复"),
       RoomManager.mk (<[room_id := resumed_room]> (RoomManager.rooms m))
         (RoomManager.player_room_map m) (RoomManager.max_rooms m))
  ∧ Room.status resumed_room = RoomStatus.ACTIVE
  ∧ (∀ pid, pid ∉ Dict.keys (Room.pending_players room) →
            Dict.get pid (Room.active_players resumed_room)
            = Dict.get pid (Room.active_players room)).
Proof.
  intros Hroom Hhost Hpaused paused_room m1 resumed_room. split_and!.
  - unfold RoomManager.pause_room, RoomManager.get_room, Room.is_host.
    rewrite Hroom, Hpaused. by rewrite bool_decide_eq_true_2.
  - done.
  - unfold RoomManager.resume_room, RoomManager.get_room, Room.is_host.
    subst m1. simpl. rewrite lookup_insert_eq. simpl.
    rewrite bool_decide_eq_true_2 by done. simpl.
    by rewrite insert_insert_eq.
  - done.
  - intros pid Hni. subst resumed_room paused_room. simpl.
    unfold Room.apply_pending_config. simpl.
    destruct (PendingConfig.timeout _); simpl; by apply activate_get_other.
Qed.

Lemma pause_resume_any_phase_witness :
  Room.status party_room = RoomStatus.WAITING
  ∧ RoomManager.pause_room "r1" "alice" party
    = ((true, "已暂停"),
       RoomManager.mk
         (<["r1" := Room.set_status RoomStatus.PAUSED
                      (Room.set_paused true party_room)]>
            (RoomManager.rooms party))
         (RoomManager.player_room_map party) (RoomManager.max_rooms party))
  ∧ Room.status
      (Room.set_status RoomStatus.ACTIVE
         (Room.set_paused false
            (Room.activate_pending_players
               (Room.apply_pending_config
                  (Room.set_status RoomStatus.PAUSED
                     (Room.set_paused true party_room))))))
    = RoomStatus.ACTIVE.
Proof.
  destruct (pause_resume_any_phase party "r1" "alice" party_room)
    as (Hpause & _ & _ & Hactive & _);
    [reflexivity | reflexivity | reflexivity |].
  split; [reflexivity|]. split; [exact Hpause | exact Hactive].
Defined.

(** C3, as the specification states it, fails: [resume_room] does not clear
    the pending configuration.  In [staged_registry] a timeout of 60 seconds
    is staged; after the creator has resumed the room it is still staged. *)
Lemma resume_room_keeps_staged_timeout :
  (RoomManager.resume_room "r1" "alice" staged_registry).1 = (true, "已恢复")
  ∧ ¬ (∀ room2,
         RoomManager.rooms
           (RoomManager.resume_room "r1" "alice" staged_registry).2 !! "r1"
         = Some room2 →
         PendingConfig.timeout (Room.pending_config room2) = None).
Proof.
  split; [reflexivity|]. intros Hclear.
  specialize (Hclear _ eq_refl). vm_compute in Hclear. discriminate.
Qed.

(** C3, amended. When the creator resumes a paused room, every pending
    player is moved into [active_players] with status ACTIVE and
    [pending_players] is left empty, the players already active are left as
    they were, the room becomes ACTIVE and unpaused, and a staged timeout
    override becomes the room's timeout.  The pending configuration itself
    is left as it was: a second pause and resume find the same override
    staged, apply it again and leave the room exactly as the first resume
    left it. *)
Theorem resume_room_activates_pending (m : RoomManager.t)
    (room_id player_id : string) (room : Room.t) :
  RoomManager.rooms m !! room_id = Some room →
  player_id = Room.host_id room →
  Room.paused room = true →
  NoDup (Dict.keys (Room.pending_players room)) →
  ∃ room2,
    let m2 := RoomManager.mk (<[room_id := room2]> (RoomManager.rooms m))
                (RoomManager.player_room_map m) (RoomManager.max_rooms m) in
    RoomManager.resume_room room_id player_id m = ((true, "已恢复"), m2)
    ∧ Room.status room2 = RoomStatus.ACTIVE
    ∧ Room.paused room2 = false
    ∧ Room.pending_players room2 = []
    ∧ (∀ pid p, (pid, p) ∈ Room.pending_players room →
                Dict.get pid (Room.active_players room2)
                = Some (Player.set_status PlayerStatus.ACTIVE p))
    ∧ (∀ pid, pid ∉ Dict.keys (Room.pending_players room) →
              Dict.get pid (Room.active_players room2)
              = Dict.get pid (Room.active_players room))
    ∧ Room.timeout room2
      = default (Room.timeout room)
          (PendingConfig.timeout (Room.pending_config room))
    ∧ Room.pending_config room2 = Room.pending_config room
    ∧ (RoomManager.resume_room room_id player_id
         (RoomManager.pause_room room_id player_id m2).2).2 = m2.
Proof.
  intros Hroom Hhost Hpaused Hnd.
  exists (Room.set_status RoomStatus.ACTIVE
            (Room.set_paused false
               (Room.activate_pending_players
                  (Room.apply_pending_config room)))).
  assert (∀ r, Room.pending_players (Room.apply_pending_config r)
               = Room.pending_players r) as Hpend
    by (intros r; unfold Room.apply_pending_config;
        by destruct (PendingConfig.timeout _)).
  assert (∀ r, Room.active_players (Room.apply_pending_config r)
               = Room.active_players r) as Hact
    by (intros r; unfold Room.apply_pending_config;
        by destruct (PendingConfig.timeout _)).
  simpl. split_and!.
  - unfold RoomManager.resume_room, RoomManager.get_room, Room.is_host.
    rewrite Hroom, Hpaused. by rewrite bool_decide_eq_true_2.
  - done.
  - done.
  - done.
  - intros pid p Hin. rewrite Hpend, Hact. by apply activate_get_pending.
  - intros pid Hni. rewrite Hpend, Hact. by apply activate_get_other.
  - unfold Room.apply_pending_config. by destruct (PendingConfig.timeout _).
  - unfold Room.apply_pending_config. by destruct (PendingConfig.timeout _).
  - unfold Room.apply_pending_config.
    destruct (PendingConfig.timeout (Room.pending_config room)) as [t|] eqn:Ht;
      unfold RoomManager.pause_room, RoomManager.resume_room,
        RoomManager.get_room, Room.is_host; simpl;
      rewrite lookup_insert_eq; simpl;
      rewrite bool_decide_eq_true_2 by done; simpl;
      rewrite lookup_insert_eq; simpl;
      rewrite bool_decide_eq_true_2 by done; simpl;
      rewrite insert_insert_eq;
      unfold Room.apply_pending_config; simpl; rewrite ?Ht;
      rewrite ?insert_insert_eq; reflexivity.
Qed.

Lemma resume_room_activates_pending_witness :
  ∃ room2,
    RoomManager.rooms
      (RoomManager.resume_room "r1" "alice" staged_registry).2 !! "r1"
    = Some room2
    ∧ Room.timeout room2 = 60
    ∧ Room.pending_players room2 = []
    ∧ Player.status <$> Dict.get "bob" (Room.active_players room2)
      = Some PlayerStatus.ACTIVE.
Proof.
  destruct (resume_room_activates_pending staged_registry "r1" "alice"
              staged_room)
    as (room2 & Hres & _ & _ & Hpend & Hmoved & _ & Htimeout & _);
    [reflexivity | reflexivity | reflexivity
    | vm_compute; apply NoDup_singleton |].
  exists room2. rewrite Hres. simpl. rewrite lookup_insert_eq.
  split_and!; [done | exact Htimeout | exact Hpend |].
  erewrite Hmoved; [done|]. apply list_elem_of_here.
Defined.

(** ** The creation wizard *)

Lemma truncate_choice :
  strip (lower (lit "truncate")) = lit "truncate"
  ∧ text_in (lit "truncate")
      [kw_summarize_zh; lit "1"; lit "ai"; lit "summary"] = false
  ∧ text_in (lit "truncate")
      [kw_truncate_zh; lit "2"; lit "cut"; lit "truncate"] = true.
Proof. by vm_compute. Qed.

Lemma len_slice_to n s : 0 ≤ n → n ≤ len s → len (slice_to n s) = n.
Proof.
  unfold len, slice_to. intros H0 Hn.
  rewrite bool_decide_eq_false_2 by lia. rewrite length_take. lia.
Qed.

(** C9. In the step WORLD_TOO_LONG (where [on_message] hands the input to
    [_handle_world_too_long_choice]) the input "truncate" stores the first
    [world_setting_max_length] characters of the stashed original as the
    world setting and moves the wizard to CONFIRM, whatever the backend
    would have answered; the stored text has exactly that many characters
    when the original has at least as many.  A text longer than the limit
    entered in the step WORLD_SETTING is stashed as the original and moves
    the wizard to WORLD_TOO_LONG, so "truncate" then leaves exactly
    [world_setting_max_length] characters of it. *)
Theorem truncate_keeps_first_max_length (cfg : Config.t)
    (provider : ProviderOutcome) (llm : LlmOutcome) :
  0 ≤ Config.world_setting_max_length cfg →
  let max_length := Config.world_setting_max_length cfg in
  (∀ pending,
     let original :=
       default [] (PendingCreation.original_world_setting pending) in
     let after :=
       (_handle_world_too_long_choice cfg pending (lit "truncate")
          provider llm).1 in
     PendingCreation.world_setting after
     = Some (take (Z.to_nat max_length) original)
     ∧ PendingCreation.step after = CreationStep.CONFIRM
     ∧ (max_length ≤ len original →
        len <$> PendingCreation.world_setting after = Some max_length))
  ∧ (∀ pending txt,
       10 ≤ len txt → max_length < len txt →
       let stashed := (_handle_world_setting cfg pending txt).1 in
       let after :=
         (_handle_world_too_long_choice cfg stashed (lit "truncate")
            provider llm).1 in
       PendingCreation.step stashed = CreationStep.WORLD_TOO_LONG
       ∧ PendingCreation.original_world_setting stashed = Some txt
       ∧ PendingCreation.world_setting after
         = Some (take (Z.to_nat max_length) txt)
       ∧ len <$> PendingCreation.world_setting after = Some max_length
       ∧ PendingCreation.step after = CreationStep.CONFIRM).
Proof.
  intros Hmax max_length.
  destruct truncate_choice as (Hchoice & Hsum & Htrunc).
  assert (∀ pending,
            (_handle_world_too_long_choice cfg pending (lit "truncate")
               provider llm).1
            = PendingCreation.set_step CreationStep.CONFIRM
                (PendingCreation.set_world_setting
                   (Some (take (Z.to_nat max_length)
                            (default []
                               (PendingCreation.original_world_setting pending))))
                   pending)) as Hrun.
  { intros pending. unfold _handle_world_too_long_choice.
    rewrite Hchoice, Hsum, Htrunc. unfold slice_to.
    by rewrite bool_decide_eq_false_2 by (subst max_length; lia). }
  split.
  - intros pending original after. subst after original max_length.
    rewrite Hrun. simpl.
    split_and!; [done..|]. intros Hlen. f_equal. unfold len in *.
    rewrite length_take. lia.
  - intros pending txt Hten Hlong stashed after.
    assert (stashed
            = PendingCreation.set_step CreationStep.WORLD_TOO_LONG
                (PendingCreation.set_original_world_setting (Some txt) pending))
      as Hst.
    { subst stashed. unfold _handle_world_setting.
      assert (text_in txt [kw_default_zh; lit "default"] = false) as ->.
      { unfold text_in. apply bool_decide_eq_false_2.
        rewrite !elem_of_cons, elem_of_nil.
        intros [->|[->|[]]]; vm_compute in Hten; by apply Hten. }
      simpl. rewrite bool_decide_eq_false_2 by lia.
      by rewrite bool_decide_eq_true_2 by (subst max_length; lia). }
    subst after. rewrite Hrun, Hst. subst max_length. simpl.
    split_and!; [done..| |done]. f_equal. unfold len in *.
    rewrite length_take. lia.
Qed.

Lemma truncate_keeps_first_max_length_witness :
  len long_world = 5000
  ∧ PendingCreation.step (_handle_world_setting wizard_cfg wizard_at_world
                            long_world).1
    = CreationStep.WORLD_TOO_LONG
  ∧ len <$> PendingCreation.world_setting
              (_handle_world_too_long_choice wizard_cfg
                 (_handle_world_setting wizard_cfg wizard_at_world long_world).1
                 (lit "truncate") ProviderRaise LlmRaise).1
    = Some 4000.
Proof.
  assert (len long_world = 5000) as Hlen by (by vm_compute).
  destruct (truncate_keeps_first_max_length wizard_cfg ProviderRaise LlmRaise)
    as [_ Hflow]; [by vm_compute|].
  destruct (Hflow wizard_at_world long_world) as (Hstep & _ & _ & Hkept & _);
    [rewrite Hlen; lia | rewrite Hlen; simpl; lia |].
  by split_and!.
Defined.

(** ** The round engine *)

Section plugin_facts.
Import Plugin.
Implicit Types (w : Plugin.t) (r : Room.t).

Lemma deref_store k r w : deref k (store k r w) = Some r.
Proof.
  unfold deref, store. case_bool_decide as H; simpl.
  - by rewrite lookup_insert_eq.
  - rewrite <- eq_None_not_Some in H. rewrite H. by rewrite lookup_insert_eq.
Qed.

Lemma deref_registered k r w :
  RoomManager.rooms (room_manager w) !! k = Some r → deref k w = Some r.
Proof. unfold deref. by intros ->. Qed.

Lemma store_registered k r r' w :
  RoomManager.rooms (room_manager w) !! k = Some r →
  store k r' w
  = set_room_manager
      (RoomManager.mk (<[k := r']> (RoomManager.rooms (room_manager w)))
         (RoomManager.player_room_map (room_manager w))
         (RoomManager.max_rooms (room_manager w))) w.
Proof. intros H. unfold store. by rewrite H, bool_decide_eq_true_2. Qed.

Lemma tasks_store k r w : tasks (store k r w) = tasks w.
Proof. unfold store. by case_bool_decide. Qed.

Lemma timeout_tasks_store k r w : timeout_tasks (store k r w) = timeout_tasks w.
Proof. unfold store. by case_bool_decide. Qed.

Lemma cancel_requested_store k r w :
  cancel_requested (store k r w) = cancel_requested w.
Proof. unfold store. by case_bool_decide. Qed.

Lemma next_task_store k r w : next_task (store k r w) = next_task w.
Proof. unfold store. by case_bool_decide. Qed.

Lemma outbox_store k r w : outbox (store k r w) = outbox w.
Proof. unfold store. by case_bool_decide. Qed.

Lemma deref_emit k o w : deref k (emit o w) = deref k w.
Proof. done. Qed.

Lemma deref_suspend k tid next w : deref k (suspend tid next w) = deref k w.
Proof. by destruct next. Qed.

Lemma deref_set_tasks k ts w : deref k (set_tasks ts w) = deref k w.
Proof. done. Qed.

Lemma deref_set_timeout_tasks k tt w : deref k (set_timeout_tasks tt w) = deref k w.
Proof. done. Qed.

Lemma deref_set_cancel_requested k c w :
  deref k (set_cancel_requested c w) = deref k w.
Proof. done. Qed.

Lemma deref_set_next_task k n w : deref k (set_next_task n w) = deref k w.
Proof. done. Qed.

Lemma set_cancel_requested_same tid w :
  tid ∉ cancel_requested w →
  set_cancel_requested (cancel_requested w ∖ {[tid]}) w = w.
Proof.
  intros H. destruct w as [m tt ts c n d o]. unfold set_cancel_requested.
  simpl in *. f_equal. set_solver.
Qed.

(** A [CancelledError] ends a task that is not inside [_stop_timeout]. *)
Lemma resume_cancelled pc w :
  joined pc = None → resume pc Cancelled w = Some (w, None).
Proof. by destruct pc. Qed.
End plugin_facts.

Create Rewrite HintDb plugin.
#[export] Hint Rewrite deref_store tasks_store timeout_tasks_store
  cancel_requested_store next_task_store outbox_store deref_emit deref_suspend
  deref_set_tasks deref_set_timeout_tasks deref_set_cancel_requested
  deref_set_next_task : plugin.

Section engine_facts.
Import Plugin.
Variable cfg : Config.t.
Implicit Types (w : Plugin.t) (r : Room.t).

Lemma run_alone_unfold n po lo tid w :
  run_alone cfg n po lo tid w
  = match tasks w !! tid with
    | None => Some w
    | Some pc =>
        match n with
        | O => None
        | S n' =>
            step cfg (next_event po lo tid pc w) w
              ≫= run_alone cfg n' po lo tid
        end
    end.
Proof. by destruct n. Qed.

Lemma run_alone_done n po lo tid w :
  tasks w !! tid = None → run_alone cfg n po lo tid w = Some w.
Proof. intros H. by rewrite run_alone_unfold, H. Qed.

Lemma run_alone_step n po lo tid w pc w1 :
  tasks w !! tid = Some pc →
  step cfg (next_event po lo tid pc w) w = Some w1 →
  run_alone cfg (S n) po lo tid w = run_alone cfg n po lo tid w1.
Proof. intros H Hs. by rewrite run_alone_unfold, H, Hs. Qed.

Lemma run_alone_mono n m po lo tid w w' :
  run_alone cfg n po lo tid w = Some w' → (n ≤ m)%nat →
  run_alone cfg m po lo tid w = Some w'.
Proof.
  revert m w. induction n as [|n IH]; intros m w Hrun Hle.
  - rewrite run_alone_unfold in Hrun.
    destruct (tasks w !! tid) eqn:Ht; [done|].
    injection Hrun as <-. by apply run_alone_done.
  - destruct m as [|m]; [lia|]. rewrite run_alone_unfold in *.
    destruct (tasks w !! tid) eqn:Ht; [|done].
    destruct (step cfg _ w) as [w1|]; [|done]. simpl in *.
    apply IH; [done | lia].
Qed.

(** One step of a task that runs alone and has not been cancelled. *)
Lemma lone_step_bind n po lo tid w pc :
  tasks w !! tid = Some pc → tid ∉ cancel_requested w → joined pc = None →
  run_alone cfg (S n) po lo tid w
  = '(w1, next) ← resume pc (awaited_result po lo pc) w;
    run_alone cfg n po lo tid (suspend tid next w1).
Proof.
  intros Ht Hc Hj. rewrite run_alone_unfold, Ht.
  unfold next_event. rewrite bool_decide_eq_false_2, Hj by done.
  cbn [step]. rewrite Ht. simpl.
  assert (can_resume tid pc (awaited_result po lo pc) w = true) as ->.
  { unfold can_resume. rewrite Hj.
    destruct pc; simpl; by rewrite bool_decide_eq_true_2. }
  rewrite set_cancel_requested_same by done.
  by destruct (resume pc _ w) as [[w1 next]|].
Qed.

Lemma lone_step n po lo tid w pc w1 next :
  tasks w !! tid = Some pc → tid ∉ cancel_requested w → joined pc = None →
  resume pc (awaited_result po lo pc) w = Some (w1, next) →
  run_alone cfg (S n) po lo tid w
  = run_alone cfg n po lo tid (suspend tid next w1).
Proof.
  intros Ht Hc Hj Hres. by rewrite (lone_step_bind _ _ _ _ _ pc), Hres.
Qed.

Lemma request_cancel_idle fuel h pc w :
  tasks w !! h = Some pc → joined pc = None →
  request_cancel fuel h w
  = set_cancel_requested ({[h]} ∪ cancel_requested w) w.
Proof. intros Ht Hj. destruct fuel; simpl; by rewrite Ht, Hj. Qed.

Lemma start_timeout_register_eq k w room :
  deref k w = Some room →
  _start_timeout_register k w
  = Some (set_timeout_tasks
            (<[Room.room_id room := next_task w]> (timeout_tasks w))
            (set_next_task (S (next_task w))
               (set_tasks (<[next_task w := RoundSleep (Room.room_id room)]>
                             (tasks w)) w)),
          None).
Proof. intros H. unfold _start_timeout_register. by rewrite H. Qed.

(** A handle that names a task is older than [next_task]. *)
Lemma live_not_fresh w t pc :
  loop_wf w → tasks w !! t = Some pc → t ≠ next_task w.
Proof.
  intros [Hfresh _] Ht ->. rewrite Hfresh in Ht; [done | lia].
Qed.

Lemma fresh_not_cancelled w : loop_wf w → next_task w ∉ cancel_requested w.
Proof.
  intros [Hfresh Hcancel] Hin. apply Hcancel in Hin as [pc Hpc].
  rewrite Hfresh in Hpc; [done | lia].
Qed.

(** [_start_timeout(room)] run to the end of the task that calls it: the
    round timer is counting down again and nothing else has changed. *)
Lemma start_timeout_alone n po lo tid k w room pc0 w1 next :
  loop_wf w → deref k w = Some room →
  tasks w !! tid = Some pc0 → joined pc0 = None →
  tid ∉ cancel_requested w → timer_idle w (Room.room_id room) →
  _start_timeout k w = Some (w1, next) →
  ∃ w', run_alone cfg (S (S n)) po lo tid (suspend tid next w1) = Some w'
        ∧ room_manager w' = room_manager w
        ∧ detached w' = detached w
        ∧ outbox w' = outbox w
        ∧ round_timer_armed w' (Room.room_id room)
        ∧ tasks w' !! tid = None.
Proof.
  intros Hwf Hroom Htid Hj0 Hc Hidle Hstart.
  pose proof (live_not_fresh _ _ _ Hwf Htid) as Hfresh_tid.
  pose proof (fresh_not_cancelled _ Hwf) as Hfresh_c.
  unfold _start_timeout in Hstart. rewrite Hroom in Hstart. simpl in Hstart.
  unfold _stop_timeout in Hstart.
  destruct (timeout_tasks w !! Room.room_id room) as [h|] eqn:Hh.
  - simpl in Hstart. destruct (tasks w !! h) as [pch|] eqn:Hpch.
    + rewrite bool_decide_eq_true_2 in Hstart by eauto.
      pose proof (Hidle _ _ Hh Hpch) as Hjh.
      rewrite (request_cancel_idle _ _ pch) in Hstart by done.
      injection Hstart as <- <-.
      pose proof (live_not_fresh _ _ _ Hwf Hpch) as Hfresh_h.
      destruct (decide (h = tid)) as [->|Hne].
      * (* the task replaces its own handle *)
        eexists. split.
        { erewrite run_alone_step; cycle 1.
          - simpl. apply lookup_insert_eq.
          - unfold next_event. simpl.
            rewrite bool_decide_eq_true_2 by set_solver.
            cbn [step]. simpl. rewrite lookup_insert_eq. simpl.
            rewrite bool_decide_eq_true_2 by set_solver.
            erewrite start_timeout_register_eq by done. simpl. done.
          - apply run_alone_done. simpl. apply lookup_delete_eq. }
        simpl. split_and!; try done.
        -- exists (next_task w). simpl. rewrite lookup_insert_eq.
           rewrite lookup_delete_ne, lookup_insert_eq by done.
           split_and!; [done..|]. set_solver.
        -- apply lookup_delete_eq.
      * (* another task holds the handle: it is cancelled and awaited *)
        eexists. split.
        { erewrite run_alone_step; cycle 1.
          - simpl. apply lookup_insert_eq.
          - unfold next_event. simpl.
            rewrite bool_decide_eq_false_2 by set_solver.
            rewrite lookup_insert_ne, Hpch by done.
            rewrite bool_decide_eq_false_2 by done.
            cbn [step]. simpl. rewrite lookup_insert_ne, Hpch by done. simpl.
            rewrite bool_decide_eq_true_2 by set_solver.
            rewrite resume_cancelled by done. simpl. done.
          - erewrite run_alone_step; cycle 1.
            + simpl. rewrite lookup_delete_ne by done. apply lookup_insert_eq.
            + unfold next_event. simpl.
              rewrite bool_decide_eq_false_2 by set_solver.
              rewrite lookup_delete_eq.
              rewrite bool_decide_eq_true_2 by done.
              cbn [step]. simpl.
              rewrite lookup_delete_ne, lookup_insert_eq by done. simpl.
              rewrite bool_decide_eq_true_2 by set_solver.
              rewrite lookup_delete_eq.
              rewrite bool_decide_eq_true_2 by done. simpl.
              erewrite start_timeout_register_eq by done. simpl. done.
            + apply run_alone_done. simpl. apply lookup_delete_eq. }
        simpl. split_and!; try done.
        -- exists (next_task w). simpl. rewrite lookup_insert_eq.
           rewrite lookup_delete_ne, lookup_insert_eq by done.
           split_and!; [done..|]. set_solver.
        -- apply lookup_delete_eq.
    + (* the handle names a finished task *)
      rewrite bool_decide_eq_false_2 in Hstart by (by intros [? ?]).
      erewrite start_timeout_register_eq in Hstart by done.
      simpl in Hstart. injection Hstart as <- <-.
      eexists. split; [apply run_alone_done; simpl; apply lookup_delete_eq|].
      simpl. split_and!; try done.
      * exists (next_task w). simpl. rewrite lookup_insert_eq.
        rewrite lookup_delete_ne, lookup_insert_eq by done.
        split_and!; [done..|]. set_solver.
      * apply lookup_delete_eq.
  - (* no handle is registered *)
    erewrite start_timeout_register_eq in Hstart by done.
    simpl in Hstart. injection Hstart as <- <-.
    eexists. split; [apply run_alone_done; simpl; apply lookup_delete_eq|].
    simpl. split_and!; try done.
    + exists (next_task w). simpl. rewrite lookup_insert_eq.
      rewrite lookup_delete_ne, lookup_insert_eq by done.
      split_and!; [done..|]. set_solver.
    + apply lookup_delete_eq.
Qed.
End engine_facts.

Section resolution_facts.
Import Plugin.
Variable cfg : Config.t.
Implicit Types (w : Plugin.t) (r : Room.t).

Lemma loop_wf_suspend tid pc w :
  loop_wf w → is_Some (tasks w !! tid) → loop_wf (suspend tid (Some pc) w).
Proof.
  intros [Hfresh Hcancel] [pc0 Hpc0]. split; simpl.
  - intros t Ht. rewrite lookup_insert_ne; [by apply Hfresh|].
    intros ->. rewrite Hfresh in Hpc0; done.
  - intros t Ht. rewrite lookup_insert. case_decide; [eauto | by apply Hcancel].
Qed.

Lemma loop_wf_store k r w : loop_wf w → loop_wf (store k r w).
Proof.
  intros [Hfresh Hcancel].
  split; rewrite ?next_task_store, ?cancel_requested_store, tasks_store; done.
Qed.

Lemma loop_wf_emit o w : loop_wf w → loop_wf (emit o w).
Proof. by intros [Hfresh Hcancel]. Qed.

Lemma timer_idle_suspend tid pc task_id w :
  timer_idle w task_id → joined pc = None →
  timer_idle (suspend tid (Some pc) w) task_id.
Proof.
  intros Hidle Hj h pch. simpl. rewrite lookup_insert.
  case_decide; [by intros _ [= <-] | apply Hidle].
Qed.

Lemma timer_idle_store k r task_id w :
  timer_idle w task_id → timer_idle (store k r w) task_id.
Proof.
  intros Hidle h pch. rewrite timeout_tasks_store, tasks_store. apply Hidle.
Qed.

Lemma timer_idle_emit o task_id w :
  timer_idle w task_id → timer_idle (emit o w) task_id.
Proof. done. Qed.

Lemma start_timeout_total k w room :
  deref k w = Some room → ∃ w1 next, _start_timeout k w = Some (w1, next).
Proof.
  intros Hroom. unfold _start_timeout. rewrite Hroom. simpl.
  destruct (_stop_timeout (Room.room_id room) w) as [w1 [h|]] eqn:Hstop.
  - eauto.
  - unfold _start_timeout_register.
    assert (deref k w1 = Some room) as ->; [|simpl; eauto].
    unfold _stop_timeout in Hstop.
    destruct (timeout_tasks w !! Room.room_id room); [|by injection Hstop as <-].
    case_bool_decide; [done|]. by injection Hstop as <-.
Qed.

(** A resolution that no other task interleaves with and whose backend
    answers: the round record is appended with the response (or the
    placeholder), the next round begins and its timer is started. *)
Lemma resolve_alone_answered n tid k w room p resp :
  loop_wf w → deref k w = Some room →
  is_Some (tasks w !! tid) → tid ∉ cancel_requested w →
  timer_idle w (Room.room_id room) →
  Room.get_round_actions room ≠ [] → p ≠ "" →
  ∃ w', resolve_alone cfg (5 + n) (ProviderId (Some p)) (LlmResp resp) tid k w
        = Some w'
        ∧ deref k w'
          = Some (Room.start_new_round
                    (recorded room (Room.get_round_actions room)
                       (response_or no_response resp)))
        ∧ (∀ r0, RoomManager.rooms (room_manager w) !! k = Some r0 →
                 RoomManager.rooms (room_manager w') !! k = deref k w')
        ∧ round_timer_armed w' (Room.room_id room)
        ∧ tasks w' !! tid = None.
Proof.
  intros Hwf Hroom Hlive Hc Hidle Hacts Hp.
  set (actions := Room.get_round_actions room) in *.
  set (room1 := recorded room actions (response_or no_response resp)).
  set (w1 := suspend tid (Some (ProcProvider k actions)) w).
  set (w2 := suspend tid (Some (ProcLlm k actions)) w1).
  set (w3 := suspend tid (Some (ProcResultNotice k))
               (emit (OutBroadcast (Room.get_unique_origins room1)
                        (NoticeRoundResult (Room.current_round room1) actions
                           (response_or no_response resp) (Room.timeout room1)))
                  (store k room1 w2))).
  set (w4 := store k (Room.start_new_round room1) w3).
  assert (loop_wf w4) as Hwf4.
  { subst w4 w3 w2 w1.
    apply loop_wf_store, loop_wf_suspend;
      [apply loop_wf_emit, loop_wf_store, loop_wf_suspend;
         [by apply loop_wf_suspend|]|];
      simpl; rewrite ?tasks_store; simpl; rewrite ?lookup_insert_eq; eauto. }
  assert (timer_idle w4 (Room.room_id room)) as Hidle4.
  { subst w4 w3 w2 w1.
    apply timer_idle_store, timer_idle_suspend; [|done].
    apply timer_idle_emit, timer_idle_store, timer_idle_suspend; [|done].
    by apply timer_idle_suspend. }
  assert (deref k w4 = Some (Room.start_new_round room1)) as Hroom4
    by (subst w4; apply deref_store).
  destruct (start_timeout_total k w4 _ Hroom4) as (wx & next & Hstart).
  destruct (start_timeout_alone cfg n (ProviderId (Some p)) (LlmResp resp)
              tid k w4 (Room.start_new_round room1) (ProcResultNotice k) wx next)
    as (w' & Hrun & Hrm & Hdet & _ & Harmed & Hdone); try done.
  { subst w4 w3. rewrite tasks_store. simpl. apply lookup_insert_eq. }
  { subst w4 w3 w2 w1. rewrite cancel_requested_store. simpl.
    by rewrite cancel_requested_store. }
  assert (deref k w' = Some (Room.start_new_round room1)) as Hroom'.
  { unfold deref. rewrite Hrm, Hdet. exact Hroom4. }
  exists w'. split_and!; [|done| |done|done].
  - unfold resolve_alone, _process_round. rewrite Hroom. simpl.
    rewrite bool_decide_eq_false_2 by done. simpl. fold actions w1.
    change (5 + n)%nat with (S (S (S (S (S n))))).
    rewrite (lone_step cfg _ _ _ _ w1 (ProcProvider k actions) w1
               (Some (ProcLlm k actions)));
      [|subst w1; simpl; apply lookup_insert_eq|done|done|]; cycle 1.
    { simpl. unfold truthy. by rewrite bool_decide_eq_false_2. }
    fold w2.
    rewrite (lone_step cfg _ _ _ _ w2 (ProcLlm k actions)
               (emit (OutBroadcast (Room.get_unique_origins room1)
                        (NoticeRoundResult (Room.current_round room1) actions
                           (response_or no_response resp) (Room.timeout room1)))
                  (store k room1 w2))
               (Some (ProcResultNotice k)));
      [|subst w2; simpl; apply lookup_insert_eq|done|done|]; cycle 1.
    { simpl. unfold _process_round_llm. subst w2 w1.
      rewrite !deref_suspend, Hroom. simpl. fold actions. fold room1.
      unfold broadcast. by rewrite deref_store. }
    fold w3.
    rewrite (lone_step cfg _ _ _ _ w3 (ProcResultNotice k) wx next);
      [exact Hrun|subst w3; simpl; apply lookup_insert_eq| |done|].
    + subst w3 w2 w1. simpl. by rewrite cancel_requested_store.
    + simpl. unfold _process_round_next. subst w3.
      rewrite deref_suspend, deref_emit, deref_store. simpl. exact Hstart.
  - intros r0 Hr0. rewrite Hroom', Hrm. subst w4 w3 w2 w1.
    erewrite store_registered.
    + simpl. apply lookup_insert_eq.
    + simpl. erewrite store_registered by (simpl; exact Hr0).
      simpl. apply lookup_insert_eq.
Qed.
End resolution_facts.

Section abort_facts.
Import Plugin.
Variable cfg : Config.t.

(** A resolution that no other task interleaves with and whose backend
    fails: the notice is broadcast and the task ends; nothing else changes. *)
Lemma resolve_alone_aborted n tid k w room po lo notice :
  deref k w = Some room → tid ∉ cancel_requested w →
  Room.get_round_actions room ≠ [] →
  (po = ProviderRaise ∧ notice = NoticeRoundError)
  ∨ ((∃ id, po = ProviderId id ∧ truthy id = false) ∧ notice = NoticeNoProvider)
  ∨ ((∃ id, po = ProviderId id ∧ truthy id = true)
     ∧ lo = LlmRaise ∧ notice = NoticeRoundError) →
  resolve_alone cfg (3 + n) po lo tid k w
  = Some (set_tasks (delete tid (tasks w))
            (emit (OutBroadcast (Room.get_unique_origins room) notice) w)).
Proof.
  intros Hroom Hc Hacts Hfail.
  set (actions := Room.get_round_actions room) in *.
  set (w1 := suspend tid (Some (ProcProvider k actions)) w).
  assert (∀ m w0,
            deref k w0 = Some room → tid ∉ cancel_requested w0 →
            run_alone cfg (S m) po lo tid
              (suspend tid (Some ProcFinalNotice)
                 (emit (OutBroadcast (Room.get_unique_origins room) notice) w0))
            = Some (set_tasks (delete tid (tasks w0))
                      (emit (OutBroadcast (Room.get_unique_origins room) notice)
                         w0))) as Hfinal.
  { intros m w0 Hd0 Hc0.
    erewrite (lone_step cfg m po lo tid _ ProcFinalNotice);
      [|simpl; apply lookup_insert_eq|done|done|simpl; reflexivity].
    rewrite run_alone_done by (simpl; apply lookup_delete_eq).
    f_equal. destruct w0 as [m0 tt ts c nx d o]. simpl in *.
    unfold set_cancel_requested, set_tasks, emit. simpl. f_equal.
    - by rewrite delete_insert_eq.
    - set_solver. }
  unfold resolve_alone, _process_round. rewrite Hroom. simpl.
  rewrite bool_decide_eq_false_2 by done. simpl. fold actions w1.
  assert (tasks w1 !! tid = Some (ProcProvider k actions)) as Ht1
    by (subst w1; simpl; apply lookup_insert_eq).
  assert (deref k w1 = Some room) as Hd1
    by (subst w1; by rewrite deref_suspend).
  assert (∀ pc o w0,
            set_tasks (delete tid (tasks (suspend tid (Some pc) w0)))
              (emit o (suspend tid (Some pc) w0))
            = set_tasks (delete tid (tasks w0)) (emit o w0)) as Hsame.
  { intros pc o w0. destruct w0 as [m0 tt ts c nx d o0]. simpl.
    unfold set_tasks, emit. simpl. f_equal. by rewrite delete_insert_eq. }
  change (3 + n)%nat with (S (S (S n))).
  destruct Hfail as [[-> ->]|[[(id & -> & Hid) ->]|[(id & -> & Hid) [-> ->]]]].
  - rewrite (lone_step cfg _ _ _ _ w1 (ProcProvider k actions)
               (emit (OutBroadcast (Room.get_unique_origins room)
                        NoticeRoundError) w1) (Some ProcFinalNotice));
      [|done|done|done|].
    + rewrite Hfinal by done. subst w1. by rewrite Hsame.
    + simpl. unfold _process_round_except, broadcast. by rewrite Hd1.
  - rewrite (lone_step cfg _ _ _ _ w1 (ProcProvider k actions)
               (emit (OutBroadcast (Room.get_unique_origins room)
                        NoticeNoProvider) w1) (Some ProcFinalNotice));
      [|done|done|done|].
    + rewrite Hfinal by done. subst w1. by rewrite Hsame.
    + simpl. rewrite Hid. simpl. unfold broadcast. by rewrite Hd1.
  - rewrite (lone_step cfg _ _ _ _ w1 (ProcProvider k actions) w1
               (Some (ProcLlm k actions))); [|done|done|done|].
    2:{ simpl. by rewrite Hid. }
    set (w2 := suspend tid (Some (ProcLlm k actions)) w1).
    assert (deref k w2 = Some room) as Hd2
      by (subst w2; by rewrite deref_suspend).
    rewrite (lone_step cfg _ _ _ _ w2 (ProcLlm k actions)
               (emit (OutBroadcast (Room.get_unique_origins room)
                        NoticeRoundError) w2) (Some ProcFinalNotice));
      [|subst w2; simpl; apply lookup_insert_eq|done|done|].
    + rewrite Hfinal by done. subst w2 w1. by rewrite !Hsame.
    + simpl. unfold _process_round_except, broadcast. by rewrite Hd2.
Qed.
End abort_facts.

(** ** Round resolution and the round timer *)

(** C1. The claim fails on the code: [_process_round] cancels the round
    timer only at its end, inside [_start_timeout], after it has awaited the
    backend.  When the last player has acted and nothing interleaves, the
    round is resolved once (one record, round 2 begins).  When the round
    timer fires while that resolution awaits the backend, the timer starts a
    second resolution of the same round: two records of round 1 with the
    same actions are appended, and when both resolutions have ended the room
    is in round 3 although the players acted once. *)
Theorem race_resolves_round_twice :
  (∃ w room,
     run demo_cfg (both_acted ++ undisturbed) (Plugin.new 10) = Some w
     ∧ room_r1 w = Some room
     ∧ GameHistory.round_number <$> Room.history room = [1]
     ∧ Room.current_round room = 2)
  ∧ (∃ w room,
       run demo_cfg (both_acted ++ race) (Plugin.new 10) = Some w
       ∧ room_r1 w = Some room
       ∧ Room.history room
         = [ GameHistory.mk 1 [("Alice", "look"); ("Bob", "run")] (lit "a");
             GameHistory.mk 1 [("Alice", "look"); ("Bob", "run")] (lit "b") ])
  ∧ (∃ w room,
       run demo_cfg (both_acted ++ race_to_the_end) (Plugin.new 10) = Some w
       ∧ room_r1 w = Some room
       ∧ GameHistory.round_number <$> Room.history room = [1; 1]
       ∧ Room.current_round room = 3
       ∧ Plugin.tasks w = {[ 8%nat := RoundSleep "r1" ]}).
Proof.
  split_and!.
  - eexists _, _. split; [vm_compute; reflexivity|]. by vm_compute.
  - eexists _, _. split; [vm_compute; reflexivity|]. by vm_compute.
  - eexists _, _. split; [vm_compute; reflexivity|]. by vm_compute.
Qed.

(** C2, as the specification states it, fails: a backend failure does abort
    the round.  With both players' actions recorded in an ACTIVE room, the
    resolution started by the last player's handler leaves the room exactly
    as it was (no round record, same round number) and starts no timer,
    both when no provider is available and when the generation call
    raises. *)
Lemma backend_failure_aborts_round :
  ∃ w room,
    run demo_cfg both_acted (Plugin.new 10) = Some w
    ∧ room_r1 w = Some room
    ∧ Room.status room = RoomStatus.ACTIVE
    ∧ Room.get_round_actions room = [("Alice", "look"); ("Bob", "run")]
    ∧ Room.history room = []
    ∧ (∃ w', run_alone demo_cfg 9 (ProviderId None) LlmRaise 6 w = Some w'
             ∧ room_r1 w' = Some room
             ∧ Plugin.timeout_tasks w' = Plugin.timeout_tasks w
             ∧ Plugin.next_task w' = Plugin.next_task w)
    ∧ (∃ w', run_alone demo_cfg 9 (ProviderId (Some "p")) LlmRaise 6 w
             = Some w'
             ∧ room_r1 w' = Some room
             ∧ Plugin.timeout_tasks w' = Plugin.timeout_tasks w
             ∧ Plugin.next_task w' = Plugin.next_task w).
Proof.
  eexists _, _. split; [vm_compute; reflexivity|].
  split; [vm_compute; reflexivity|]. split_and!; try by vm_compute.
  - eexists. split; [vm_compute; reflexivity|]. by vm_compute.
  - eexists. split; [vm_compute; reflexivity|]. by vm_compute.
Qed.

(** C2, amended. For every room with a non-empty set of recorded actions,
    the backend's answer decides what a resolution does.  When a provider is
    available and the generation call returns without a text (no response
    object, no completion text, or an empty one), the resolution is not
    aborted: the placeholder is recorded as the response, the round record
    is appended, the round number is incremented and the round timer is
    started again.  When no provider id is available (none, or an empty
    one), or the provider lookup or the generation call raises, the
    resolution broadcasts a notice to the room ("❌ 无法获取AI服务" for a
    missing provider, "❌ 处理回合时出错" for a call that raised) and ends:
    the room is exactly as it was, so no round record is appended and the
    round number is not incremented, and no timer is started, stopped or
    cancelled.  (The resolution runs in task [tid] with no other task
    interleaved; for the first part the timer registered for the room, if
    any, is not itself inside [_stop_timeout].) *)
Theorem resolution_follows_backend_outcome (cfg : Config.t) (w : Plugin.t)
    (tid : nat) (k : string) (room : Room.t) :
  Plugin.deref k w = Some room →
  tid ∉ Plugin.cancel_requested w →
  Room.get_round_actions room ≠ [] →
  (loop_wf w → is_Some (Plugin.tasks w !! tid) →
   timer_idle w (Room.room_id room) →
   ∀ p resp, p ≠ "" → completion_text resp = None →
     ∃ w' room',
       resolve_alone cfg 5 (ProviderId (Some p)) (LlmResp resp) tid k w
       = Some w'
       ∧ Plugin.deref k w' = Some room'
       ∧ Room.history room'
         = Room.history room
           ++ [GameHistory.mk (Room.current_round room)
                 (Room.get_round_actions room) no_response]
       ∧ Room.current_round room' = Room.current_round room + 1
       ∧ round_timer_armed w' (Room.room_id room))
  ∧ (∀ po lo notice,
       (po = ProviderRaise ∧ notice = NoticeRoundError)
       ∨ ((∃ id, po = ProviderId id ∧ truthy id = false)
          ∧ notice = NoticeNoProvider)
       ∨ ((∃ id, po = ProviderId id ∧ truthy id = true)
          ∧ lo = LlmRaise ∧ notice = NoticeRoundError) →
       ∃ w',
         resolve_alone cfg 3 po lo tid k w = Some w'
         ∧ Plugin.outbox w'
           = Plugin.outbox w
             ++ [OutBroadcast (Room.get_unique_origins room) notice]
         ∧ Plugin.deref k w' = Some room
         ∧ Plugin.room_manager w' = Plugin.room_manager w
         ∧ Plugin.detached w' = Plugin.detached w
         ∧ Plugin.timeout_tasks w' = Plugin.timeout_tasks w
         ∧ Plugin.cancel_requested w' = Plugin.cancel_requested w
         ∧ Plugin.next_task w' = Plugin.next_task w
         ∧ Plugin.tasks w' = delete tid (Plugin.tasks w)).
Proof.
  intros Hroom Hc Hacts. split.
  - intros Hwf Hlive Hidle p resp Hp Hresp.
    destruct (resolve_alone_answered cfg 0 tid k w room p resp)
      as (w' & Hrun & Hroom' & _ & Harmed & _); try done.
    exists w', (Room.start_new_round
                  (recorded room (Room.get_round_actions room) no_response)).
    unfold response_or in Hroom'. rewrite Hresp in Hroom'.
    by split_and!.
  - intros po lo notice Hfail. eexists. split.
    + by apply (resolve_alone_aborted cfg 0 tid k w room po lo notice).
    + by split_and!.
Qed.

Lemma resolution_follows_backend_outcome_witness :
  ∃ w w' room' w'',
    run demo_cfg both_acted (Plugin.new 10) = Some w
    ∧ resolve_alone demo_cfg 5 (ProviderId (Some "p")) (LlmResp (Some None))
        6 "r1" w = Some w'
    ∧ Plugin.deref "r1" w' = Some room'
    ∧ Room.history room'
      = [GameHistory.mk 1 [("Alice", "look"); ("Bob", "run")] no_response]
    ∧ Room.current_round room' = 2
    ∧ round_timer_armed w' "r1"
    ∧ resolve_alone demo_cfg 3 ProviderRaise (LlmResp None) 6 "r1" w = Some w''
    ∧ Plugin.deref "r1" w'' = Plugin.deref "r1" w
    ∧ Plugin.timeout_tasks w'' = Plugin.timeout_tasks w
    ∧ Plugin.next_task w'' = Plugin.next_task w
    ∧ Plugin.tasks w'' = {[ 4%nat := RoundSleep "r1" ]}.
Proof.
  assert (∃ w room,
            run demo_cfg both_acted (Plugin.new 10) = Some w
            ∧ Plugin.tasks w
              = {[ 4%nat := RoundSleep "r1"; 6%nat := ActReply "r1" ]}
            ∧ Plugin.next_task w = 7%nat
            ∧ Plugin.cancel_requested w = ∅
            ∧ Plugin.timeout_tasks w !! "r1" = Some 4%nat
            ∧ Plugin.deref "r1" w = Some room
            ∧ Room.room_id room = "r1"
            ∧ Room.current_round room = 1
            ∧ Room.history room = []
            ∧ Room.get_round_actions room
              = [("Alice", "look"); ("Bob", "run")])
    as (w & room & Hw & Htasks & Hnext & Hcancel & Htimer & Hroom & Hid
        & Hround & Hhist & Hacts).
  { eexists _, _. split; [vm_compute; reflexivity|].
    do 4 (split; [by vm_compute|]). split; [vm_compute; reflexivity|].
    by vm_compute. }
  enough (∃ w' room' w'',
            resolve_alone demo_cfg 5 (ProviderId (Some "p"))
              (LlmResp (Some None)) 6 "r1" w = Some w'
            ∧ Plugin.deref "r1" w' = Some room'
            ∧ Room.history room'
              = [GameHistory.mk 1 [("Alice", "look"); ("Bob", "run")]
                   no_response]
            ∧ Room.current_round room' = 2
            ∧ round_timer_armed w' "r1"
            ∧ resolve_alone demo_cfg 3 ProviderRaise (LlmResp None) 6 "r1" w
              = Some w''
            ∧ Plugin.deref "r1" w'' = Plugin.deref "r1" w
            ∧ Plugin.timeout_tasks w'' = Plugin.timeout_tasks w
            ∧ Plugin.next_task w'' = Plugin.next_task w
            ∧ Plugin.tasks w'' = {[ 4%nat := RoundSleep "r1" ]})
    as (w' & room' & w'' & Hrest).
  { exists w, w', room', w''. split; [exact Hw | exact Hrest]. }
  clear Hw.
  destruct (resolution_follows_backend_outcome demo_cfg w 6 "r1" room)
    as [Hplace Hfail].
  - exact Hroom.
  - rewrite Hcancel. set_solver.
  - by rewrite Hacts.
  - destruct (Hplace) with (p := "p") (resp := Some (@None text))
      as (w' & room' & Hrun & Hroom' & Hhist' & Hround' & Harmed).
    + split.
      * intros t Ht. rewrite Hnext in Ht. rewrite Htasks.
        by rewrite lookup_insert_ne, lookup_singleton_ne by lia.
      * intros t Ht. rewrite Hcancel in Ht. set_solver.
    + rewrite Htasks. by rewrite lookup_insert_ne, lookup_singleton_eq.
    + intros h pc Hh Hpc. rewrite Hid, Htimer in Hh. injection Hh as <-.
      rewrite Htasks, lookup_insert_eq in Hpc. by injection Hpc as <-.
    + done.
    + done.
    + destruct (Hfail ProviderRaise (LlmResp None) NoticeRoundError)
        as (w'' & Hrun2 & _ & Hroom2 & _ & _ & Htt2 & _ & Hnext2 & Htasks2).
      { by left. }
      exists w', room', w''. rewrite Hid, Hhist, Hround, Hacts in *.
      split_and!; try done.
      * by rewrite Hroom2, Hroom.
      * rewrite Htasks2, Htasks. rewrite delete_insert_ne by lia.
        by rewrite delete_singleton_eq, insert_empty.
Defined.

(** ** The two timers *)

Section timer_facts.
Import Plugin.
Variable cfg : Config.t.
Implicit Types (w : Plugin.t) (r : Room.t).

Lemma foldl_fmap_same {A B} (g : B → A → B) (f : A → A) (l : list A) (acc : B) :
  (∀ b x, g b (f x) = g b x) → foldl g acc (f <$> l) = foldl g acc l.
Proof.
  intros Hg. revert acc. induction l as [|x l IH]; intros acc; simpl; [done|].
  by rewrite Hg, IH.
Qed.

Lemma values_map_values {V} (f : V → V) (d : Dict.t V) :
  Dict.values (Dict.map_values f d) = f <$> Dict.values d.
Proof.
  unfold Dict.values, Dict.map_values.
  induction d as [|[k v] d IH]; simpl; [done|]. f_equal. exact IH.
Qed.

(** Marking the players who timed out changes no recorded action. *)
Lemma get_round_actions_mark r :
  Room.get_round_actions (mark_timeouts r) = Room.get_round_actions r.
Proof.
  unfold Room.get_round_actions, mark_timeouts. simpl.
  rewrite values_map_values. apply foldl_fmap_same.
  intros acc p. by case_bool_decide.
Qed.

(** Every entry of the action table is the recorded, non-empty action of an
    active player, filed under that player's display name. *)
Lemma round_actions_from_acted r name a :
  (name, a) ∈ Room.get_round_actions r →
  ∃ p, p ∈ Dict.values (Room.active_players r)
       ∧ Player.display_name p = name
       ∧ Player.current_action p = Some a ∧ a ≠ "".
Proof.
  unfold Room.get_round_actions.
  generalize (Dict.values (Room.active_players r)). intros l.
  assert (∀ acc : Dict.t string,
            (name, a)
            ∈ foldl (λ acc p,
                       match Player.current_action p with
                       | Some a0 =>
                           if bool_decide (a0 = "") then acc
                           else Dict.set (Player.display_name p) a0 acc
                       | None => acc
                       end) acc l →
            (name, a) ∈ acc
            ∨ ∃ p, p ∈ l ∧ Player.display_name p = name
                   ∧ Player.current_action p = Some a ∧ a ≠ "") as Hgen.
  { induction l as [|p l IH]; intros acc; simpl; [auto|].
    intros Hin. apply IH in Hin as [Hin|(p' & Hp' & Hrest)].
    - destruct (Player.current_action p) as [a0|] eqn:Hact; [|auto].
      case_bool_decide as Hempty; [auto|].
      apply DictFacts.elem_of_set in Hin as [[= -> ->]|Hin]; [|auto].
      right. exists p. split; [apply list_elem_of_here | done].
    - right. exists p'. split; [by apply list_elem_of_further | done]. }
  intros Hin. apply Hgen in Hin as [Hin|Hin]; [by apply elem_of_nil in Hin|done].
Qed.

Lemma process_round_total k w room :
  deref k w = Some room → is_Some (_process_round k w).
Proof.
  intros Hroom. unfold _process_round, broadcast. rewrite Hroom. simpl.
  case_bool_decide; simpl; eauto.
Qed.

(** The round timer after its notice: close the room or resolve the round. *)
Lemma round_check_decide_eq room_id w m :
  deref room_id w = Some m →
  round_check_decide room_id w
  = if Room.check_all_players_timeout m
    then Some (emit (OutBroadcast (Room.get_unique_origins m) NoticeAllTimeout) w,
               Some (RoundCloseNotice room_id))
    else _process_round room_id w.
Proof.
  intros Hm. unfold round_check_decide, broadcast. rewrite Hm. simpl.
  by destruct (Room.check_all_players_timeout m).
Qed.

Lemma round_check_fire_eq room_id w r :
  RoomManager.rooms (room_manager w) !! room_id = Some r →
  Room.paused r = false → Room.status r = RoomStatus.ACTIVE →
  round_check_fire room_id w
  = if bool_decide (timeout_players r = [])
    then round_check_decide room_id (store room_id (mark_timeouts r) w)
    else Some (emit (OutBroadcast (Room.get_unique_origins (mark_timeouts r))
                       (NoticeTimeout (timeout_players r)))
                 (store room_id (mark_timeouts r) w),
               Some (RoundTimeoutNotice room_id)).
Proof.
  intros Hr Hp Hs. unfold round_check_fire, RoomManager.get_room, broadcast.
  rewrite Hr, Hp, Hs. simpl. case_bool_decide; [done|].
  by rewrite deref_store.
Qed.

Lemma close_room_registered room_id w m :
  RoomManager.rooms (room_manager w) !! room_id = Some m →
  room_manager (close_room room_id w)
  = (RoomManager.close_room room_id (room_manager w)).2
  ∧ RoomManager.rooms (room_manager (close_room room_id w)) !! room_id = None.
Proof.
  intros Hm. unfold close_room, RoomManager.get_room. rewrite Hm. simpl.
  split; [done|]. unfold RoomManager.close_room, RoomManager.get_room.
  rewrite Hm. simpl. apply lookup_delete_eq.
Qed.
End timer_facts.

(** C6. When the round timer fires for a registered room that is ACTIVE and
    not paused, every active player whose status is still ACTIVE becomes
    TIMEOUT and the others are left as they are.  If all active players are
    then TIMEOUT the timer task closes the room.  Otherwise the task goes on
    exactly as a resolution of the room with the players so marked: the
    action table is the one before the marking, each of its entries is the
    recorded action of a player who acted, and when actions exist and the
    backend answers the round record with these actions is appended, the
    next round begins and its timer is started. *)
Theorem round_timer_fires (cfg : Config.t) (w : Plugin.t) (tid : nat)
    (room_id : string) (r : Room.t) :
  Plugin.tasks w !! tid = Some (RoundSleep room_id) →
  tid ∉ Plugin.cancel_requested w →
  RoomManager.rooms (Plugin.room_manager w) !! room_id = Some r →
  Room.paused r = false → Room.status r = RoomStatus.ACTIVE →
  let marked := mark_timeouts r in
  let w1 := Plugin.store room_id marked w in
  (∀ pid,
     Dict.get pid (Room.active_players marked)
     = (λ p, if bool_decide (Player.status p = PlayerStatus.ACTIVE)
             then Player.set_status PlayerStatus.TIMEOUT p else p)
         <$> Dict.get pid (Room.active_players r))
  ∧ (Room.check_all_players_timeout marked = true →
     ∀ po lo,
       ∃ w', run_alone cfg 3 po lo tid w = Some w'
             ∧ Plugin.room_manager w'
               = (RoomManager.close_room room_id (Plugin.room_manager w1)).2
             ∧ RoomManager.rooms (Plugin.room_manager w') !! room_id = None
             ∧ Plugin.tasks w' !! tid = None)
  ∧ (Room.check_all_players_timeout marked = false →
     Room.get_round_actions marked = Room.get_round_actions r
     ∧ (∀ name a,
          (name, a) ∈ Room.get_round_actions marked →
          ∃ p, p ∈ Dict.values (Room.active_players r)
               ∧ Player.display_name p = name
               ∧ Player.current_action p = Some a ∧ a ≠ "")
     ∧ (∃ w2 steps,
          Plugin.deref room_id w2 = Some marked
          ∧ ∀ po lo n,
              run_alone cfg (steps + n) po lo tid w
              = resolve_alone cfg n po lo tid room_id w2)
     ∧ (loop_wf w → timer_idle w (Room.room_id r) →
        Room.get_round_actions r ≠ [] →
        ∀ p resp, p ≠ "" →
          ∃ w', run_alone cfg 7 (ProviderId (Some p)) (LlmResp resp) tid w
                = Some w'
                ∧ RoomManager.rooms (Plugin.room_manager w') !! room_id
                  = Some (Room.start_new_round
                            (recorded marked (Room.get_round_actions r)
                               (response_or no_response resp)))
                ∧ round_timer_armed w' (Room.room_id r))).
Proof.
  intros Htid Hc Hr Hpaused Hactive marked w1.
  pose proof (round_check_fire_eq room_id w r Hr Hpaused Hactive) as Hfire.
  fold marked in Hfire. fold w1 in Hfire.
  assert (Plugin.deref room_id w1 = Some marked) as Hm1
    by (subst w1; apply deref_store).
  assert (RoomManager.rooms (Plugin.room_manager w1) !! room_id = Some marked)
    as Hreg1.
  { subst w1. erewrite store_registered by done. simpl. apply lookup_insert_eq. }
  assert (Plugin.tasks w1 = Plugin.tasks w) as Htasks1
    by (subst w1; apply tasks_store).
  assert (Plugin.cancel_requested w1 = Plugin.cancel_requested w) as Hcancel1
    by (subst w1; apply cancel_requested_store).
  set (noticed :=
         suspend tid (Some (RoundTimeoutNotice room_id))
           (Plugin.emit
              (OutBroadcast (Room.get_unique_origins marked)
                 (NoticeTimeout (timeout_players r))) w1)) in *.
  (* the state in which the task decides between closing and resolving,
     and the number of steps it takes to get there *)
  set (w2 := if bool_decide (timeout_players r = []) then w1 else noticed).
  set (steps := if bool_decide (timeout_players r = []) then 1%nat else 2%nat).
  assert (Plugin.deref room_id w2 = Some marked) as Hm2.
  { subst w2 noticed. case_bool_decide; [done|].
    by rewrite deref_suspend, deref_emit. }
  assert (∀ po lo n,
            run_alone cfg (steps + n) po lo tid w
            = '(w3, next) ← round_check_decide room_id w2;
              run_alone cfg n po lo tid (suspend tid next w3)) as Hsteps.
  { intros po lo n. subst steps w2. case_bool_decide as Hnames.
    - change (1 + n)%nat with (S n).
      rewrite (lone_step_bind cfg _ _ _ _ _ (RoundSleep room_id)) by done.
      simpl. by rewrite Hfire.
    - change (2 + n)%nat with (S (S n)).
      rewrite (lone_step_bind cfg _ _ _ _ _ (RoundSleep room_id)) by done.
      simpl. rewrite Hfire. simpl. fold noticed.
      rewrite (lone_step_bind cfg _ _ _ _ _ (RoundTimeoutNotice room_id));
        [done| |subst noticed; simpl; by rewrite Hcancel1|done].
      subst noticed. simpl. apply lookup_insert_eq. }
  rewrite (round_check_decide_eq room_id w2 marked Hm2) in Hsteps.
  assert (Plugin.room_manager w2 = Plugin.room_manager w1) as Hrm2
    by (subst w2 noticed; by case_bool_decide).
  assert (Plugin.cancel_requested w2 = Plugin.cancel_requested w) as Hcancel2
    by (subst w2 noticed; by case_bool_decide).
  split_and!.
  - intros pid. subst marked. unfold mark_timeouts. simpl.
    apply DictFacts.get_map_values.
  - intros Hall po lo. rewrite Hall in Hsteps.
    set (closing :=
           suspend tid (Some (RoundCloseNotice room_id))
             (Plugin.emit
                (OutBroadcast (Room.get_unique_origins marked) NoticeAllTimeout)
                w2)).
    assert (RoomManager.rooms (Plugin.room_manager closing) !! room_id
            = Some marked) as Hregc by (subst closing; simpl; by rewrite Hrm2).
    destruct (close_room_registered room_id closing marked Hregc)
      as [Hclosed Hgone].
    exists (suspend tid None (Plugin.close_room room_id closing)).
    split_and!.
    + apply (run_alone_mono cfg (steps + 1)); [|subst steps; case_bool_decide; lia].
      rewrite Hsteps. simpl. fold closing.
      rewrite (lone_step cfg _ _ _ _ closing (RoundCloseNotice room_id)
                 (Plugin.close_room room_id closing) None);
        [|subst closing; simpl; apply lookup_insert_eq
         |subst closing; simpl; by rewrite Hcancel2|done|done].
      apply run_alone_done. simpl. apply lookup_delete_eq.
    + simpl. rewrite Hclosed. subst closing. simpl. by rewrite Hrm2.
    + simpl. exact Hgone.
    + simpl. apply lookup_delete_eq.
  - intros Hnot. rewrite Hnot in Hsteps. split_and!.
    + subst marked. apply get_round_actions_mark.
    + intros name a Hin. subst marked. rewrite get_round_actions_mark in Hin.
      by apply round_actions_from_acted.
    + exists w2, steps. split; [done|].
      intros po lo n. rewrite Hsteps. unfold resolve_alone.
      by destruct (_process_round room_id w2) as [[w3 next]|].
    + intros Hwf Hidle Hacts p resp Hp.
      assert (loop_wf w2) as Hwf2.
      { subst w2 noticed w1. case_bool_decide; [by apply loop_wf_store|].
        apply loop_wf_suspend; [by apply loop_wf_emit, loop_wf_store|].
        simpl. rewrite tasks_store. eauto. }
      assert (timer_idle w2 (Room.room_id marked)) as Hidle2.
      { subst w2 noticed w1. case_bool_decide; [by apply timer_idle_store|].
        apply timer_idle_suspend; [|done].
        by apply timer_idle_emit, timer_idle_store. }
      destruct (resolve_alone_answered cfg 0 tid room_id w2 marked p resp)
        as (w' & Hrun & Hroom' & Hreg' & Harmed & _); try done.
      * subst w2 noticed. case_bool_decide; simpl; rewrite ?Htasks1; eauto.
        rewrite lookup_insert_eq. eauto.
      * by rewrite Hcancel2.
      * subst marked. by rewrite get_round_actions_mark.
      * exists w'. split_and!.
        -- apply (run_alone_mono cfg (steps + 5));
             [|subst steps; case_bool_decide; lia].
           rewrite Hsteps. exact Hrun.
        -- rewrite (Hreg' marked) by (by rewrite Hrm2). rewrite Hroom'.
           subst marked. by rewrite get_round_actions_mark.
        -- exact Harmed.
Qed.

Lemma round_timer_fires_witness :
  ∃ w w' room,
    run demo_cfg alice_acted (Plugin.new 10) = Some w
    ∧ run_alone demo_cfg 7 (ProviderId (Some "p"))
        (LlmResp (Some (Some (lit "the door opens")))) 4 w = Some w'
    ∧ room_r1 w' = Some room
    ∧ Room.history room
      = [GameHistory.mk 1 [("Alice", "look")] (lit "the door opens")]
    ∧ Room.current_round room = 2
    ∧ round_timer_armed w' "r1".
Proof.
  assert (∃ w r,
            run demo_cfg alice_acted (Plugin.new 10) = Some w
            ∧ Plugin.tasks w = {[ 4%nat := RoundSleep "r1" ]}
            ∧ Plugin.next_task w = 6%nat
            ∧ Plugin.cancel_requested w = ∅
            ∧ Plugin.timeout_tasks w !! "r1" = Some 4%nat
            ∧ RoomManager.rooms (Plugin.room_manager w) !! "r1" = Some r
            ∧ Room.room_id r = "r1"
            ∧ Room.paused r = false
            ∧ Room.status r = RoomStatus.ACTIVE
            ∧ Room.check_all_players_timeout (mark_timeouts r) = false
            ∧ Room.get_round_actions r = [("Alice", "look")]
            ∧ Room.history
                (Room.start_new_round
                   (recorded (mark_timeouts r) [("Alice", "look")]
                      (lit "the door opens")))
              = [GameHistory.mk 1 [("Alice", "look")] (lit "the door opens")]
            ∧ Room.current_round
                (Room.start_new_round
                   (recorded (mark_timeouts r) [("Alice", "look")]
                      (lit "the door opens"))) = 2)
    as (w & r & Hw & Htasks & Hnext & Hcancel & Htimer & Hr & Hid & Hpaused
        & Hactive & Hnot & Hacts & Hhist & Hround).
  { eexists _, _. split; [vm_compute; reflexivity|].
    do 4 (split; [by vm_compute|]). split; [vm_compute; reflexivity|].
    by vm_compute. }
  enough (∃ w' room,
            run_alone demo_cfg 7 (ProviderId (Some "p"))
              (LlmResp (Some (Some (lit "the door opens")))) 4 w = Some w'
            ∧ room_r1 w' = Some room
            ∧ Room.history room
              = [GameHistory.mk 1 [("Alice", "look")] (lit "the door opens")]
            ∧ Room.current_round room = 2
            ∧ round_timer_armed w' "r1") as (w' & room & Hrest).
  { exists w, w', room. split; [exact Hw | exact Hrest]. }
  clear Hw.
  destruct (round_timer_fires demo_cfg w 4 "r1" r) as (_ & _ & Hresolve).
  - rewrite Htasks. apply lookup_singleton_eq.
  - rewrite Hcancel. set_solver.
  - exact Hr.
  - exact Hpaused.
  - exact Hactive.
  - destruct (Hresolve Hnot) as (_ & _ & _ & Hdone).
    destruct Hdone with (p := "p") (resp := Some (Some (lit "the door opens")))
      as (w' & Hrun & Hroom & Harmed).
    + split.
      * intros t Ht. rewrite Hnext in Ht. rewrite Htasks.
        by rewrite lookup_singleton_ne by lia.
      * intros t Ht. rewrite Hcancel in Ht. set_solver.
    + intros h pc Hh Hpc. rewrite Hid, Htimer in Hh. injection Hh as <-.
      rewrite Htasks, lookup_singleton_eq in Hpc. by injection Hpc as <-.
    + by rewrite Hacts.
    + done.
    + rewrite Hacts, Hid in *. eexists w', _. split; [exact Hrun|].
      split; [exact Hroom|]. by split_and!.
Defined.

Section game_start_facts.
Import Plugin.
Variable cfg : Config.t.
Implicit Types (w : Plugin.t) (r : Room.t).

Lemma start_game_broadcast_eq k opening w room :
  deref k w = Some room →
  _start_game_broadcast k opening w
  = Some (emit (OutBroadcast (Room.get_unique_origins room)
                  (NoticeGameStart (Room.room_name room)
                     ((λ p, (Player.character_name p, Player.player_name p))
                        <$> Dict.values (Room.active_players room))
                     opening (Room.timeout room))) w,
          Some (GameStartNotice k)).
Proof.
  intros Hroom. unfold _start_game_broadcast, broadcast. by rewrite Hroom.
Qed.

(** The game start once its message is out: the round timer is started. *)
Lemma game_start_notice_alone n po lo tid k w room :
  loop_wf w → deref k w = Some room →
  tasks w !! tid = Some (GameStartNotice k) → tid ∉ cancel_requested w →
  timer_idle w (Room.room_id room) →
  ∃ w', run_alone cfg (3 + n) po lo tid w = Some w'
        ∧ room_manager w' = room_manager w
        ∧ round_timer_armed w' (Room.room_id room)
        ∧ tasks w' !! tid = None.
Proof.
  intros Hwf Hroom Htid Hc Hidle.
  destruct (start_timeout_total k w room Hroom) as (wx & next & Hstart).
  destruct (start_timeout_alone cfg n po lo tid k w room (GameStartNotice k)
              wx next) as (w' & Hrun & Hrm & _ & _ & Harmed & Hdone);
    try done.
  exists w'. split_and!; try done.
  change (3 + n)%nat with (S (S (S n))).
  by rewrite (lone_step cfg _ _ _ _ w (GameStartNotice k) wx next).
Qed.

(** [_generate_opening] and the rest of the game start, whatever the
    backend does. *)
Lemma opening_alone n po lo tid k w room :
  loop_wf w → deref k w = Some room →
  tasks w !! tid = Some (OpeningProvider k) → tid ∉ cancel_requested w →
  timer_idle w (Room.room_id room) →
  ∃ w', run_alone cfg (5 + n) po lo tid w = Some w'
        ∧ room_manager w' = room_manager w
        ∧ round_timer_armed w' (Room.room_id room)
        ∧ tasks w' !! tid = None.
Proof.
  intros Hwf Hroom Htid Hc Hidle.
  assert (is_Some (tasks w !! tid)) as Hlive by eauto.
  (* the state in which the opening is broadcast, after [steps] steps *)
  assert (∃ steps opening wb,
            (steps ≤ 2)%nat
            ∧ (∀ m, run_alone cfg (steps + m) po lo tid w
                    = run_alone cfg m po lo tid
                        (suspend tid (Some (GameStartNotice k))
                           (emit (OutBroadcast (Room.get_unique_origins room)
                                    (NoticeGameStart (Room.room_name room)
                                       ((λ p, (Player.character_name p,
                                               Player.player_name p))
                                          <$> Dict.values
                                                (Room.active_players room))
                                       opening (Room.timeout room))) wb)))
            ∧ loop_wf wb ∧ deref k wb = Some room
            ∧ is_Some (tasks wb !! tid)
            ∧ cancel_requested wb = cancel_requested w
            ∧ room_manager wb = room_manager w
            ∧ timer_idle wb (Room.room_id room))
    as (steps & opening & wb & Hle & Hsteps & Hwfb & Hroomb & Hliveb & Hcb
        & Hrmb & Hidleb).
  { assert (∀ m,
              run_alone cfg (1 + m) po lo tid w
              = '(w1, next) ← resume (OpeningProvider k) (GotProvider po) w;
                run_alone cfg m po lo tid (suspend tid next w1)) as Hfirst.
    { intros m.
      by rewrite (lone_step_bind cfg _ _ _ _ _ (OpeningProvider k)). }
    destruct po as [|id].
    - exists 1%nat, default_opening, w. split; [lia|]. split; [|done].
      intros m. rewrite Hfirst. simpl.
      by rewrite (start_game_broadcast_eq _ _ _ room).
    - destruct (truthy id) eqn:Hid.
      + set (wl := suspend tid (Some (OpeningLlm k)) w).
        assert (∀ m, run_alone cfg (2 + m) (ProviderId id) lo tid w
                     = '(w1, next) ← resume (OpeningLlm k) (GotLlm lo) wl;
                       run_alone cfg m (ProviderId id) lo tid
                         (suspend tid next w1))
          as Hsecond.
        { intros m. change (2 + m)%nat with (1 + S m)%nat.
          rewrite Hfirst. simpl. rewrite Hid. simpl.
          fold wl.
          rewrite (lone_step_bind cfg _ _ _ _ _ (OpeningLlm k));
            [done|subst wl; simpl; apply lookup_insert_eq|done|done]. }
        assert (loop_wf wl) by (by apply loop_wf_suspend).
        assert (deref k wl = Some room) by (subst wl; by rewrite deref_suspend).
        assert (is_Some (tasks wl !! tid))
          by (subst wl; simpl; rewrite lookup_insert_eq; eauto).
        assert (timer_idle wl (Room.room_id room))
          by (by apply timer_idle_suspend).
        destruct lo as [|resp].
        * exists 2%nat, default_opening, wl. split; [lia|].
          split; [|done]. intros m. rewrite Hsecond. simpl.
          by rewrite (start_game_broadcast_eq _ _ _ room).
        * exists 2%nat, (response_or default_opening resp), wl.
          split; [lia|]. split; [|done]. intros m. rewrite Hsecond. simpl.
          by rewrite (start_game_broadcast_eq _ _ _ room).
      + exists 1%nat, default_opening, w. split; [lia|]. split; [|done].
        intros m. rewrite Hfirst. simpl. rewrite Hid. simpl.
        by rewrite (start_game_broadcast_eq _ _ _ room). }
  destruct (game_start_notice_alone n po lo tid k
              (suspend tid (Some (GameStartNotice k))
                 (emit (OutBroadcast (Room.get_unique_origins room)
                          (NoticeGameStart (Room.room_name room)
                             ((λ p, (Player.character_name p,
                                     Player.player_name p))
                                <$> Dict.values (Room.active_players room))
                             opening (Room.timeout room))) wb)) room)
    as (w' & Hrun & Hrm & Harmed & Hdone).
  - by apply loop_wf_suspend; [apply loop_wf_emit|].
  - by rewrite deref_suspend, deref_emit.
  - simpl. apply lookup_insert_eq.
  - simpl. by rewrite Hcb.
  - apply timer_idle_suspend; [|done]. by apply timer_idle_emit.
  - exists w'. split_and!; [|by rewrite Hrm|done|done].
    apply (run_alone_mono cfg (steps + (3 + n))); [|lia].
    by rewrite Hsteps.
Qed.
End game_start_facts.

(** C7. When the character-creation timer fires for a registered room that
    is in CHARACTER_CREATION, every player whose status is still
    CREATING_CHAR gets the default character (its own player name and the
    stock setting) and status CHAR_DONE, the others are left as they are,
    and the game start then runs whatever the statuses were and whatever
    the backend does: the room becomes ACTIVE, the next round begins with
    every player ACTIVE, and the round timer is started. *)
Theorem char_timer_fires (cfg : Config.t) (w : Plugin.t) (tid : nat)
    (k : string) (r : Room.t) (po : ProviderOutcome) (lo : LlmOutcome) :
  loop_wf w →
  Plugin.tasks w !! tid = Some (CharSleep k) →
  tid ∉ Plugin.cancel_requested w →
  RoomManager.rooms (Plugin.room_manager w) !! k = Some r →
  Room.room_id r = k →
  Room.status r = RoomStatus.CHARACTER_CREATION →
  timer_idle w k →
  let assigned := assign_default_characters r in
  (∀ pid,
     Dict.get pid (Room.active_players assigned)
     = (λ p, if bool_decide (Player.status p = PlayerStatus.CREATING_CHAR)
             then Player.set_status PlayerStatus.CHAR_DONE
                    (Player.set_character (Some (Player.player_name p))
                       (Some "一位神秘的冒险者") p)
             else p)
         <$> Dict.get pid (Room.active_players r))
  ∧ ∃ w' room',
      run_alone cfg 7 po lo tid w = Some w'
      ∧ RoomManager.rooms (Plugin.room_manager w') !! k = Some room'
      ∧ room' = Room.start_new_round (Room.set_status RoomStatus.ACTIVE assigned)
      ∧ Room.status room' = RoomStatus.ACTIVE
      ∧ Room.current_round room' = Room.current_round r + 1
      ∧ round_timer_armed w' k
      ∧ Plugin.tasks w' !! tid = None.
Proof.
  intros Hwf Htid Hc Hr Hid Hstatus Hidle assigned. split.
  { intros pid. subst assigned. unfold assign_default_characters. simpl.
    apply DictFacts.get_map_values. }
  set (started := Room.start_new_round
                    (Room.set_status RoomStatus.ACTIVE assigned)).
  set (w1 := Plugin.store k assigned w).
  set (noticed :=
         suspend tid (Some (CharTimeoutNotice k))
           (Plugin.emit (OutBroadcast (Room.get_unique_origins assigned)
                           (NoticeCharTimeout (char_timeout_players r))) w1)).
  set (w2 := if bool_decide (char_timeout_players r = []) then w1 else noticed).
  set (steps := if bool_decide (char_timeout_players r = [])
                then 1%nat else 2%nat).
  set (w3 := suspend tid (Some (OpeningProvider k)) (Plugin.store k started w2)).
  assert (Plugin.deref k w = Some r) as Hderef by by apply deref_registered.
  assert (Plugin.deref k w1 = Some assigned) as Hm1
    by (subst w1; apply deref_store).
  assert (Plugin.deref k w2 = Some assigned) as Hm2.
  { subst w2 noticed. case_bool_decide; [done|].
    by rewrite deref_suspend, deref_emit. }
  assert (char_check_fire k w
          = if bool_decide (char_timeout_players r = [])
            then _start_game_after_characters k w1
            else Some (Plugin.emit
                         (OutBroadcast (Room.get_unique_origins assigned)
                            (NoticeCharTimeout (char_timeout_players r))) w1,
                       Some (CharTimeoutNotice k))) as Hfire.
  { unfold char_check_fire, RoomManager.get_room, Plugin.broadcast.
    rewrite Hderef. simpl. rewrite Hid, Hr, Hstatus. simpl.
    fold assigned. fold w1. case_bool_decide; [done|]. by rewrite Hm1. }
  assert (∀ wx, Plugin.deref k wx = Some assigned →
                _start_game_after_characters k wx
                = Some (Plugin.store k started wx, Some (OpeningProvider k)))
    as Hstart.
  { intros wx Hx. unfold _start_game_after_characters. by rewrite Hx. }
  assert (∀ n, run_alone cfg (steps + n) po lo tid w
               = run_alone cfg n po lo tid w3) as Hsteps.
  { intros n. subst steps w3 w2. case_bool_decide as Hnames.
    - change (1 + n)%nat with (S n).
      rewrite (lone_step_bind cfg _ _ _ _ _ (CharSleep k)) by done.
      simpl. rewrite Hfire. by rewrite Hstart.
    - change (2 + n)%nat with (S (S n)).
      rewrite (lone_step_bind cfg _ _ _ _ _ (CharSleep k)) by done.
      simpl. rewrite Hfire. simpl. fold noticed.
      rewrite (lone_step_bind cfg _ _ _ _ _ (CharTimeoutNotice k));
        [|subst noticed; simpl; apply lookup_insert_eq
         |subst noticed w1; simpl; by rewrite cancel_requested_store|done].
      simpl. by rewrite Hstart. }
  assert (loop_wf w2 ∧ is_Some (Plugin.tasks w2 !! tid)
          ∧ Plugin.cancel_requested w2 = Plugin.cancel_requested w
          ∧ timer_idle w2 k
          ∧ RoomManager.rooms (Plugin.room_manager w2) !! k = Some assigned)
    as (Hwf2 & Hlive2 & Hc2 & Hidle2 & Hreg2).
  { assert (RoomManager.rooms (Plugin.room_manager w1) !! k = Some assigned)
      as Hreg1.
    { subst w1. erewrite store_registered by done. simpl.
      apply lookup_insert_eq. }
    subst w2 noticed w1. case_bool_decide.
    - split_and!; [by apply loop_wf_store|rewrite tasks_store; eauto
                  |apply cancel_requested_store|by apply timer_idle_store|done].
    - split_and!.
      + apply loop_wf_suspend; [by apply loop_wf_emit, loop_wf_store|].
        simpl. rewrite tasks_store. eauto.
      + simpl. rewrite lookup_insert_eq. eauto.
      + simpl. apply cancel_requested_store.
      + apply timer_idle_suspend; [|done].
        by apply timer_idle_emit, timer_idle_store.
      + done. }
  destruct (opening_alone cfg 0 po lo tid k w3 started)
    as (w' & Hrun & Hrm & Harmed & Hdone).
  - subst w3. apply loop_wf_suspend; [by apply loop_wf_store|].
    by rewrite tasks_store.
  - subst w3. by rewrite deref_suspend, deref_store.
  - subst w3. simpl. apply lookup_insert_eq.
  - subst w3. simpl. by rewrite cancel_requested_store, Hc2.
  - subst w3 started. simpl. unfold assigned, assign_default_characters.
    simpl. rewrite Hid. apply timer_idle_suspend; [|done].
    by apply timer_idle_store.
  - exists w', started. split_and!.
    + apply (run_alone_mono cfg (steps + 5)); [|subst steps; case_bool_decide; lia].
      by rewrite Hsteps.
    + rewrite Hrm. subst w3. simpl. erewrite store_registered by done.
      simpl. apply lookup_insert_eq.
    + done.
    + done.
    + done.
    + subst started assigned. simpl in Harmed.
      unfold assign_default_characters in Harmed. simpl in Harmed.
      by rewrite Hid in Harmed.
    + done.
Qed.

Lemma char_timer_fires_witness :
  ∃ w w' room',
    run demo_cfg char_creation_started (Plugin.new 10) = Some w
    ∧ run_alone demo_cfg 7 ProviderRaise LlmRaise 3 w = Some w'
    ∧ room_r1 w' = Some room'
    ∧ Room.status room' = RoomStatus.ACTIVE
    ∧ Room.current_round room' = 1
    ∧ Player.character_name <$> Dict.get "bob" (Room.active_players room')
      = Some (Some "Bob")
    ∧ round_timer_armed w' "r1".
Proof.
  assert (∃ w r,
            run demo_cfg char_creation_started (Plugin.new 10) = Some w
            ∧ Plugin.tasks w = {[ 3%nat := CharSleep "r1" ]}
            ∧ Plugin.next_task w = 4%nat
            ∧ Plugin.cancel_requested w = ∅
            ∧ Plugin.timeout_tasks w !! "r1" = None
            ∧ RoomManager.rooms (Plugin.room_manager w) !! "r1" = Some r
            ∧ Room.room_id r = "r1"
            ∧ Room.status r = RoomStatus.CHARACTER_CREATION
            ∧ Room.current_round r = 0
            ∧ Player.character_name
                <$> Dict.get "bob"
                      (Room.active_players
                         (Room.start_new_round
                            (Room.set_status RoomStatus.ACTIVE
                               (assign_default_characters r))))
              = Some (Some "Bob"))
    as (w & r & Hw & Htasks & Hnext & Hcancel & Htimer & Hr & Hid & Hstatus
        & Hround & Hbob).
  { eexists _, _. split; [vm_compute; reflexivity|].
    do 4 (split; [by vm_compute|]). split; [vm_compute; reflexivity|].
    by vm_compute. }
  enough (∃ w' room',
            run_alone demo_cfg 7 ProviderRaise LlmRaise 3 w = Some w'
            ∧ room_r1 w' = Some room'
            ∧ Room.status room' = RoomStatus.ACTIVE
            ∧ Room.current_round room' = 1
            ∧ Player.character_name
                <$> Dict.get "bob" (Room.active_players room')
              = Some (Some "Bob")
            ∧ round_timer_armed w' "r1") as (w' & room' & Hrest).
  { exists w, w', room'. split; [exact Hw | exact Hrest]. }
  clear Hw.
  destruct (char_timer_fires demo_cfg w 3 "r1" r ProviderRaise LlmRaise)
    as (_ & w' & room' & Hrun & Hroom' & Heq & Hactive & Hnext_round
        & Harmed & _).
  - split.
    + intros t Ht. rewrite Hnext in Ht. rewrite Htasks.
      by rewrite lookup_singleton_ne by lia.
    + intros t Ht. rewrite Hcancel in Ht. set_solver.
  - rewrite Htasks. apply lookup_singleton_eq.
  - rewrite Hcancel. set_solver.
  - exact Hr.
  - exact Hid.
  - exact Hstatus.
  - intros h pc Hh. by rewrite Htimer in Hh.
  - exists w', room'. rewrite Hround in Hnext_round. subst room'.
    by split_and!.
Defined.

(** ** The registry: bounds, phases and round trips *)

Section registry_bounds.
Implicit Types (m : RoomManager.t) (r : Room.t).

Lemma length_set_le {V} k (v : V) (d : Dict.t V) :
  (length (Dict.set k v d) ≤ S (length d))%nat.
Proof.
  induction d as [|[k' v'] d IH]; simpl; [lia|].
  destruct (decide (k = k')); simpl; lia.
Qed.

Lemma length_pop_le {V} k (d : Dict.t V) :
  (length (Dict.pop k d) ≤ length d)%nat.
Proof.
  induction d as [|[k' v'] d IH]; simpl; [lia|].
  destruct (decide (k = k')); simpl; lia.
Qed.

Lemma pop_set_new {V} k (v : V) (d : Dict.t V) :
  k ∉ Dict.keys d → Dict.pop k (Dict.set k v d) = d.
Proof.
  induction d as [|[k' v'] d IH]; simpl; intros Hk.
  - by rewrite decide_True.
  - apply not_elem_of_cons in Hk as [Hne Hk].
    rewrite decide_False by done. simpl. rewrite decide_False by done.
    f_equal. by apply IH.
Qed.

Lemma length_activate_le (a pend : Dict.t Player.t) :
  (length
     (foldl (λ act kp, Dict.set kp.1 (Player.set_status PlayerStatus.ACTIVE kp.2) act)
        a pend)
   ≤ length a + length pend)%nat.
Proof.
  revert a. induction pend as [|[k p] pend IH]; intros a; simpl; [lia|].
  etrans; [apply IH|]. pose proof (length_set_le k (Player.set_status PlayerStatus.ACTIVE p) a).
  simpl. lia.
Qed.

Lemma head_count_activate r :
  head_count (Room.activate_pending_players r) ≤ head_count r.
Proof.
  unfold head_count, Room.activate_pending_players. simpl.
  pose proof (length_activate_le (Room.active_players r) (Room.pending_players r)).
  lia.
Qed.

Lemma head_count_leave pid r :
  head_count
    (Room.set_pending_players (Dict.pop pid (Room.pending_players r))
       (Room.set_active_players (Dict.pop pid (Room.active_players r)) r))
  ≤ head_count r.
Proof.
  unfold head_count. simpl.
  pose proof (length_pop_le pid (Room.active_players r)).
  pose proof (length_pop_le pid (Room.pending_players r)). lia.
Qed.

Lemma close_room_rooms rid m :
  RoomManager.rooms (RoomManager.close_room rid m).2
  = delete rid (RoomManager.rooms m).
Proof.
  unfold RoomManager.close_room, RoomManager.get_room.
  destruct (RoomManager.rooms m !! rid) eqn:E; simpl; [done|].
  by rewrite delete_id.
Qed.

Lemma close_room_max_rooms rid m :
  RoomManager.max_rooms (RoomManager.close_room rid m).2 = RoomManager.max_rooms m.
Proof.
  unfold RoomManager.close_room. by destruct (RoomManager.get_room rid m).
Qed.

(** What one operation does to the table of rooms: a room of the new table
    is a room of the old one, or the room the operation made. *)
Lemma apply_op_rooms (P : Room.t → Prop) op m :
  (∀ rid r, RoomManager.rooms m !! rid = Some r → P r) →
  (∀ fresh host name umo rname world t ct orig,
     op = OpCreate fresh host name umo rname world t ct orig →
     P (Room.mk fresh rname host umo world orig RoomStatus.WAITING false
          [(host, Player.new host name umo)] [] t ct PendingConfig.new 0 [])) →
  (∀ rid pid name umo max r,
     op = OpJoin rid pid name umo max → P r →
     Room.status r ≠ RoomStatus.CLOSED →
     Room.status r ≠ RoomStatus.CHARACTER_CREATION →
     Room.status r ≠ RoomStatus.ACTIVE →
     head_count r < max →
     (Room.paused r = true →
      P (Room.set_pending_players
           (Dict.set pid (Player.set_status PlayerStatus.PENDING
                            (Player.new pid name umo))
              (Room.pending_players r)) r))
     ∧ (Room.paused r = false →
        P (Room.set_active_players
             (Dict.set pid (Player.new pid name umo) (Room.active_players r)) r))) →
  (∀ pid key r, op = OpLeave pid → P r →
     RoomManager.rooms m !! key = Some r →
     (pid = Room.host_id r → Room.room_id r ≠ key) →
     P (Room.set_pending_players (Dict.pop pid (Room.pending_players r))
          (Room.set_active_players (Dict.pop pid (Room.active_players r)) r))) →
  (∀ r, P r → Room.paused r = false →
     P (Room.set_status RoomStatus.PAUSED (Room.set_paused true r))) →
  (∀ r, P r → Room.paused r = true →
     P (Room.set_status RoomStatus.ACTIVE
          (Room.set_paused false
             (Room.activate_pending_players (Room.apply_pending_config r))))) →
  ∀ rid r, RoomManager.rooms (apply_op op m) !! rid = Some r → P r.
Proof.
  intros Hold Hcreate Hjoin Hleave Hpause Hresume rid r.
  destruct op as [fresh host name umo rname world t ct orig
                 |jrid pid name umo max|pid|crid|prid pid|rrid pid]; simpl.
  - unfold RoomManager.create_room.
    destruct (negb _ || _); simpl; [apply Hold|].
    intros [[<- <-]|[_ Hr]]%lookup_insert_Some; [|by eapply Hold].
    by eapply Hcreate.
  - unfold RoomManager.join_room, RoomManager.get_room.
    destruct (RoomManager.rooms m !! jrid) as [room|] eqn:Eroom; [|apply Hold].
    repeat case_bool_decide; simpl; try apply Hold.
    all: try (rewrite orb_true_r || rewrite orb_true_l); simpl; try apply Hold.
    intros [[<- <-]|[_ Hr]]%lookup_insert_Some; [|by eapply Hold].
    assert (head_count room < max) as Hc by (unfold head_count, Room.get_active_player_count in *; lia).
    destruct (Hjoin jrid pid name umo max room eq_refl (Hold _ _ Eroom)) as [Hp Ha];
      try done.
    destruct (Room.paused room); [by apply Hp|by apply Ha].
  - unfold RoomManager.leave_room.
    destruct (RoomManager.get_room_by_player pid m) as [room|] eqn:Eroom;
      [|apply Hold].
    apply get_room_by_player_Some in Eroom as (key & Hkey & Hroom).
    rewrite Hkey. simpl. case_bool_decide as Hhost; simpl.
    + rewrite close_room_rooms. simpl.
      intros [Hne Hr]%lookup_delete_Some.
      apply lookup_insert_Some in Hr as [[<- <-]|[_ Hr]]; [|by eapply Hold].
      eapply Hleave; eauto.
    + intros [[<- <-]|[_ Hr]]%lookup_insert_Some; [|by eapply Hold].
      eapply Hleave; eauto.
  - rewrite close_room_rooms. intros [_ Hr]%lookup_delete_Some. by eapply Hold.
  - unfold RoomManager.pause_room, RoomManager.get_room.
    destruct (RoomManager.rooms m !! prid) as [room|] eqn:Eroom; [|apply Hold].
    destruct (negb _); [apply Hold|].
    destruct (Room.paused room) eqn:Ep; [apply Hold|]. simpl.
    intros [[<- <-]|[_ Hr]]%lookup_insert_Some; [|by eapply Hold].
    apply Hpause; eauto.
  - unfold RoomManager.resume_room, RoomManager.get_room.
    destruct (RoomManager.rooms m !! rrid) as [room|] eqn:Eroom; [|apply Hold].
    destruct (negb _); [apply Hold|].
    destruct (Room.paused room) eqn:Ep; [|apply Hold]. simpl.
    intros [[<- <-]|[_ Hr]]%lookup_insert_Some; [|by eapply Hold].
    apply Hresume; eauto.
Qed.

Lemma apply_op_max_rooms op m :
  RoomManager.max_rooms (apply_op op m) = RoomManager.max_rooms m.
Proof.
  destruct op; simpl.
  - unfold RoomManager.create_room. by destruct (negb _ || _).
  - unfold RoomManager.join_room. destruct (RoomManager.get_room _ _); [|done].
    repeat (case_bool_decide; simpl; try done).
  - unfold RoomManager.leave_room.
    destruct (RoomManager.get_room_by_player _ _); [|done].
    case_bool_decide; simpl; [|done]. by rewrite close_room_max_rooms.
  - apply close_room_max_rooms.
  - unfold RoomManager.pause_room. destruct (RoomManager.get_room _ _); [|done].
    destruct (negb _); [done|]. by destruct (Room.paused _).
  - unfold RoomManager.resume_room. destruct (RoomManager.get_room _ _); [|done].
    destruct (negb _); [done|]. by destruct (negb _).
Qed.

Lemma size_insert_present `{Countable K} {A} (mp : gmap K A) k x y :
  mp !! k = Some x → size (<[k := y]> mp) = size mp.
Proof. intros Hk. rewrite map_size_insert, Hk. done. Qed.

Lemma size_delete_le `{Countable K} {A} (mp : gmap K A) k :
  (size (delete k mp) ≤ size mp)%nat.
Proof. rewrite map_size_delete. destruct (mp !! k); simpl; unfold id; lia. Qed.

Lemma apply_op_size op m :
  Z.of_nat (size (RoomManager.rooms (apply_op op m)))
  ≤ Z.max (Z.of_nat (size (RoomManager.rooms m))) (RoomManager.max_rooms m).
Proof.
  destruct op as [fresh host name umo rname world t ct orig
                 |jrid pid name umo max|pid|crid|prid pid|rrid pid]; simpl.
  - unfold RoomManager.create_room, RoomManager.can_create_room.
    case_bool_decide as Hsz; simpl; [|simpl; lia].
    destruct (bool_decide _); simpl; [lia|].
    rewrite map_size_insert. destruct (_ !! fresh); simpl; lia.
  - unfold RoomManager.join_room, RoomManager.get_room.
    destruct (RoomManager.rooms m !! jrid) as [room|] eqn:Eroom; [|simpl; lia].
    repeat (case_bool_decide; simpl; try lia).
    erewrite size_insert_present by done. lia.
  - unfold RoomManager.leave_room.
    destruct (RoomManager.get_room_by_player pid m) as [room|] eqn:Eroom; [|simpl; lia].
    apply get_room_by_player_Some in Eroom as (key & Hkey & Hroom).
    rewrite Hkey. simpl.
    assert (∀ x, size (<[key := x]> (RoomManager.rooms m))
                 = size (RoomManager.rooms m)) as Hsz.
    { intros x. by eapply size_insert_present. }
    case_bool_decide; simpl.
    + rewrite close_room_rooms. simpl.
      etrans; [apply inj_le, size_delete_le|]. rewrite Hsz. lia.
    + rewrite Hsz. lia.
  - rewrite close_room_rooms. pose proof (size_delete_le (RoomManager.rooms m) crid). lia.
  - unfold RoomManager.pause_room, RoomManager.get_room.
    destruct (RoomManager.rooms m !! prid) as [room|] eqn:Eroom; [|simpl; lia].
    destruct (negb _); [simpl; lia|]. destruct (Room.paused room); simpl; [lia|].
    erewrite size_insert_present by done. lia.
  - unfold RoomManager.resume_room, RoomManager.get_room.
    destruct (RoomManager.rooms m !! rrid) as [room|] eqn:Eroom; [|simpl; lia].
    destruct (negb _); [simpl; lia|]. destruct (negb _); simpl; [lia|].
    erewrite size_insert_present by done. lia.
Qed.

Lemma run_ops_size ops m :
  RoomManager.max_rooms (run_ops ops m) = RoomManager.max_rooms m
  ∧ Z.of_nat (size (RoomManager.rooms (run_ops ops m)))
    ≤ Z.max (Z.of_nat (size (RoomManager.rooms m))) (RoomManager.max_rooms m).
Proof.
  revert m. induction ops as [|op ops IH]; intros m; simpl; [lia|].
  destruct (IH (apply_op op m)) as [Hmax Hsz].
  pose proof (apply_op_max_rooms op m). pose proof (apply_op_size op m).
  split; [congruence|lia].
Qed.

Lemma run_ops_rooms (P : Room.t → Prop) (Q : RegistryOp → Prop) ops m :
  (∀ op m, Q op →
     (∀ rid r, RoomManager.rooms m !! rid = Some r → P r) →
     ∀ rid r, RoomManager.rooms (apply_op op m) !! rid = Some r → P r) →
  Forall Q ops →
  (∀ rid r, RoomManager.rooms m !! rid = Some r → P r) →
  ∀ rid r, RoomManager.rooms (run_ops ops m) !! rid = Some r → P r.
Proof.
  intros Hstep Hops. revert m.
  induction Hops as [|op ops Hop Hops IH]; intros m Hm; simpl; [done|].
  apply IH. by apply Hstep.
Qed.

Lemma apply_op_head_count M op m :
  joins_with M op →
  (∀ rid r, RoomManager.rooms m !! rid = Some r → head_count r ≤ Z.max 1 M) →
  ∀ rid r, RoomManager.rooms (apply_op op m) !! rid = Some r →
           head_count r ≤ Z.max 1 M.
Proof.
  intros Hop Hold. apply apply_op_rooms; [done|..].
  - intros. unfold head_count. simpl. lia.
  - intros rid pid name umo max r -> Hr _ _ _ Hlt. simpl in Hop. subst max.
    unfold head_count in *. simpl.
    pose proof (length_set_le pid
                  (Player.set_status PlayerStatus.PENDING (Player.new pid name umo))
                  (Room.pending_players r)).
    pose proof (length_set_le pid (Player.new pid name umo) (Room.active_players r)).
    lia.
  - intros pid key r _ Hr _ _. etrans; [apply head_count_leave|done].
  - done.
  - intros r Hr _. etrans; [|exact Hr].
    change (head_count (Room.activate_pending_players (Room.apply_pending_config r))
            ≤ head_count r).
    etrans; [apply head_count_activate|].
    unfold Room.apply_pending_config. by destruct (PendingConfig.timeout _).
Qed.

Lemma apply_op_phase_ok op m :
  (∀ rid r, RoomManager.rooms m !! rid = Some r → phase_ok r) →
  ∀ rid r, RoomManager.rooms (apply_op op m) !! rid = Some r → phase_ok r.
Proof.
  intros Hold. apply apply_op_rooms; [done|..]; unfold phase_ok; simpl.
  - intros. split_and!; done.
  - intros; split; done.
  - done.
  - intros r _ _. split_and!; done.
  - intros r _ _. split_and!; done.
Qed.

Lemma elem_of_keys_activate (a pend : Dict.t Player.t) k :
  k ∈ Dict.keys a →
  k ∈ Dict.keys
        (foldl (λ act kp, Dict.set kp.1 (Player.set_status PlayerStatus.ACTIVE kp.2) act)
           a pend).
Proof.
  revert a. induction pend as [|[k' p] pend IH]; intros a Hk; simpl; [done|].
  apply IH. apply DictFacts.elem_of_keys_set. by right.
Qed.

Lemma apply_op_host_present op m :
  registry_inv m → host_present m → host_present (apply_op op m).
Proof.
  intros [Hwf _] Hold. unfold host_present. apply apply_op_rooms; [done|..]; simpl.
  - intros. apply list_elem_of_here.
  - intros rid pid name umo max r _ Hr _ _ _ _. split; intros _; [done|].
    apply DictFacts.elem_of_keys_set. by right.
  - intros pid key r _ Hr Hkey Hne. apply DictFacts.elem_of_keys_pop.
    split; [|done]. intros Heq. apply (Hne (eq_sym Heq)).
    by destruct (Hwf _ _ Hkey).
  - done.
  - intros r Hr _. apply elem_of_keys_activate.
    unfold Room.apply_pending_config. by destruct (PendingConfig.timeout _).
Qed.

Lemma run_ops_host_present ops m :
  registry_inv m → ids_fresh ops m → host_present m →
  host_present (run_ops ops m).
Proof.
  revert m. induction ops as [|op ops IH]; intros m Hinv Hfresh Hhost; simpl;
    [done|].
  destruct Hfresh as [Hop Hfresh]. apply IH; [|done|by apply apply_op_host_present].
  apply apply_op_inv; [done|]. simpl. done.
Qed.
End registry_bounds.

(** X1. The registry never holds more rooms than [max_rooms], whatever
    sequence of operations is applied to the empty registry, and
    [max_rooms] itself is never changed. *)
Theorem rooms_within_max_rooms (max_rooms : Z) (ops : list RegistryOp) :
  let m := run_ops ops (RoomManager.new max_rooms) in
  RoomManager.max_rooms m = max_rooms
  ∧ Z.of_nat (size (RoomManager.rooms m)) ≤ Z.max 0 max_rooms.
Proof.
  intros m. destruct (run_ops_size ops (RoomManager.new max_rooms)) as [H1 H2].
  split; [exact H1|]. subst m. simpl in H2. rewrite map_size_empty in H2. lia.
Qed.

(** X2. When every join is made under the same limit [max_players], no
    registered room ever has more than [max_players] players, active and
    pending together (a room always has room for its creator, so the bound is
    1 when the limit is below 1). *)
Theorem room_within_max_players (max_rooms max_players : Z)
    (ops : list RegistryOp) :
  Forall (joins_with max_players) ops →
  ∀ rid room,
    RoomManager.rooms (run_ops ops (RoomManager.new max_rooms)) !! rid = Some room →
    Z.of_nat (length (Room.active_players room))
    + Z.of_nat (length (Room.pending_players room))
    ≤ Z.max 1 max_players.
Proof.
  intros Hops.
  apply (run_ops_rooms (λ r, head_count r ≤ Z.max 1 max_players)
           (joins_with max_players)); [|done|].
  - intros op m Hop. by apply apply_op_head_count.
  - intros rid r Hr. simpl in Hr. by rewrite lookup_empty in Hr.
Qed.

Lemma room_within_max_players_witness :
  Forall (joins_with 8) busy_ops
  ∧ ∀ rid room,
      RoomManager.rooms (run_ops busy_ops (RoomManager.new 10)) !! rid = Some room →
      Z.of_nat (length (Room.active_players room))
      + Z.of_nat (length (Room.pending_players room))
      ≤ Z.max 1 8.
Proof.
  assert (Forall (joins_with 8) busy_ops) as H.
  { unfold busy_ops. repeat constructor. }
  split; [exact H|]. exact (room_within_max_players 10 8 busy_ops H).
Defined.

(** X3. Under the registry's own operations (each create drawing an unused
    room id), the creator of every registered room is one of its active
    players: a creator never leaves a room behind. *)
Theorem host_is_active_member (max_rooms : Z) (ops : list RegistryOp) :
  ids_fresh ops (RoomManager.new max_rooms) →
  ∀ rid room,
    RoomManager.rooms (run_ops ops (RoomManager.new max_rooms)) !! rid = Some room →
    Room.host_id room ∈ Dict.keys (Room.active_players room)
    ∧ RoomManager.get_room_by_player (Room.host_id room)
        (run_ops ops (RoomManager.new max_rooms))
      = (if bool_decide (rid = "") then None else Some room).
Proof.
  intros Hfresh rid room Hroom.
  pose proof (run_ops_inv ops _ (registry_inv_new max_rooms) Hfresh) as Hinv.
  assert (Room.host_id room ∈ Dict.keys (Room.active_players room)) as Hhost.
  { eapply (run_ops_host_present ops); [apply registry_inv_new|done| |done].
    intros ? ? Hr. simpl in Hr. by rewrite lookup_empty in Hr. }
  split; [done|].
  unfold RoomManager.get_room_by_player.
  erewrite member_indexed; [|done|done|].
  - by case_bool_decide.
  - unfold members. apply elem_of_app. by left.
Qed.

Lemma host_is_active_member_witness :
  ids_fresh busy_ops (RoomManager.new 10)
  ∧ ∀ rid room,
      RoomManager.rooms (run_ops busy_ops (RoomManager.new 10)) !! rid = Some room →
      Room.host_id room ∈ Dict.keys (Room.active_players room)
      ∧ RoomManager.get_room_by_player (Room.host_id room)
          (run_ops busy_ops (RoomManager.new 10))
        = (if bool_decide (rid = "") then None else Some room).
Proof.
  assert (ids_fresh busy_ops (RoomManager.new 10)) as H.
  { vm_compute. repeat split. }
  split; [exact H|]. exact (host_is_active_member 10 busy_ops H).
Defined.

(** X4. The registry's own operations keep the [paused] flag and the phase
    PAUSED in step and never leave a registered room CLOSED or in
    CHARACTER_CREATION; so [join_room] never answers that the room is
    closed: a closed room is gone from the registry. *)
Theorem registry_phases (max_rooms : Z) (ops : list RegistryOp) :
  let m := run_ops ops (RoomManager.new max_rooms) in
  (∀ rid room, RoomManager.rooms m !! rid = Some room →
     (Room.paused room = true ↔ Room.status room = RoomStatus.PAUSED)
     ∧ Room.status room ≠ RoomStatus.CLOSED
     ∧ Room.status room ≠ RoomStatus.CHARACTER_CREATION)
  ∧ (∀ room_id player_id player_name player_umo max_players,
       (RoomManager.join_room room_id player_id player_name player_umo
          max_players m).1.2 ≠ "房间已关闭").
Proof.
  intros m.
  assert (∀ rid room, RoomManager.rooms m !! rid = Some room → phase_ok room)
    as Hphase.
  { apply (run_ops_rooms phase_ok (λ _, True)).
    - intros op m' _. apply apply_op_phase_ok.
    - by apply Forall_true.
    - intros rid r Hr. simpl in Hr. by rewrite lookup_empty in Hr. }
  split; [exact Hphase|].
  intros rid pid name umo max. unfold RoomManager.join_room, RoomManager.get_room.
  destruct (RoomManager.rooms m !! rid) as [room|] eqn:Eroom; [|done].
  destruct (Hphase _ _ Eroom) as (_ & Hclosed & _).
  rewrite bool_decide_eq_false_2 by done.
  repeat (case_bool_decide; simpl; try done).
Qed.

Section registry_round_trips.
Implicit Types (m : RoomManager.t) (r : Room.t).

Lemma room_eta r :
  Room.mk (Room.room_id r) (Room.room_name r) (Room.host_id r) (Room.host_umo r)
    (Room.world_setting r) (Room.original_world_setting r) (Room.status r)
    (Room.paused r) (Room.active_players r) (Room.pending_players r)
    (Room.timeout r) (Room.char_creation_timeout r) (Room.pending_config r)
    (Room.current_round r) (Room.history r) = r.
Proof. by destruct r. Qed.

Lemma close_room_index rid room m :
  registry_inv m → RoomManager.rooms m !! rid = Some room →
  ∀ p, RoomManager.player_room_map (RoomManager.close_room rid m).2 !! p
       = if decide (p ∈ members room) then None
         else RoomManager.player_room_map m !! p.
Proof.
  intros [Hwf _] Hroom p. unfold RoomManager.close_room, RoomManager.get_room.
  rewrite Hroom. simpl. rewrite lookup_foldl_delete.
  by rewrite (player_ids_members rid) by eauto.
Qed.

Lemma registry_inv_paused_registry : registry_inv paused_registry.
Proof.
  apply run_ops_inv; [apply registry_inv_new|]. vm_compute. repeat split.
Qed.

Lemma registry_inv_party : registry_inv party.
Proof.
  apply run_ops_inv; [apply registry_inv_new|]. vm_compute. repeat split.
Qed.
End registry_round_trips.

(** X5. Joining a room and leaving it again restores the registry exactly:
    in a consistent registry, when [join_room] accepts a player who is not
    the room's creator into a room with a non-empty id, [leave_room] for that
    player answers that the player has left and yields the registry as it was
    before the join, whether the player had been made active or pending. *)
Theorem join_then_leave_restores (m : RoomManager.t)
    (room_id player_id player_name player_umo : string) (max_players : Z)
    (room : Room.t) :
  registry_inv m →
  RoomManager.rooms m !! room_id = Some room →
  room_id ≠ "" →
  player_id ≠ Room.host_id room →
  (RoomManager.join_room room_id player_id player_name player_umo
     max_players m).1.1 = true →
  RoomManager.leave_room player_id
    (RoomManager.join_room room_id player_id player_name player_umo
       max_players m).2
  = ((true, "已离开"), m).
Proof.
  intros Hinv Hroom Hrid Hhost.
  unfold RoomManager.join_room, RoomManager.get_room. rewrite Hroom.
  destruct (bool_decide (Room.status room = RoomStatus.CLOSED)); [done|].
  destruct (_ || _); [done|].
  case_bool_decide as Hidx; [done|].
  destruct (bool_decide (max_players ≤ _)); [done|]. intros _.
  assert (RoomManager.player_room_map m !! player_id = None) as Hnone.
  { destruct (RoomManager.player_room_map m !! player_id) eqn:E; [|done].
    destruct Hidx. eauto. }
  assert (player_id ∉ members room) as Hmem.
  { intros Hin. by rewrite (member_indexed m room_id room player_id) in Hnone. }
  apply not_elem_of_app in Hmem as [Hact Hpend].
  cbn [snd]. unfold RoomManager.leave_room, RoomManager.get_room_by_player.
  cbn [RoomManager.player_room_map RoomManager.rooms RoomManager.max_rooms].
  rewrite !lookup_insert_eq. rewrite bool_decide_eq_false_2 by done.
  cbn [default].
  assert (∀ room',
            Room.host_id room' = Room.host_id room →
            Room.set_pending_players (Dict.pop player_id (Room.pending_players room'))
              (Room.set_active_players
                 (Dict.pop player_id (Room.active_players room')) room') = room →
            (if bool_decide
                  (player_id
                   = Room.host_id
                       (Room.set_pending_players
                          (Dict.pop player_id (Room.pending_players room'))
                          (Room.set_active_players
                             (Dict.pop player_id (Room.active_players room')) room')))
             then
               ((true, "房主离开，房间关闭"),
                (RoomManager.close_room
                   (Room.room_id
                      (Room.set_pending_players
                         (Dict.pop player_id (Room.pending_players room'))
                         (Room.set_active_players
                            (Dict.pop player_id (Room.active_players room')) room')))
                   (RoomManager.mk
                      (<[room_id :=
                           Room.set_pending_players
                             (Dict.pop player_id (Room.pending_players room'))
                             (Room.set_active_players
                                (Dict.pop player_id (Room.active_players room'))
                                room')]>
                         (<[room_id := room']> (RoomManager.rooms m)))
                      (delete player_id
                         (<[player_id := room_id]> (RoomManager.player_room_map m)))
                      (RoomManager.max_rooms m))).2)
             else
               ((true, "已离开"),
                RoomManager.mk
                  (<[room_id :=
                       Room.set_pending_players
                         (Dict.pop player_id (Room.pending_players room'))
                         (Room.set_active_players
                            (Dict.pop player_id (Room.active_players room'))
                            room')]>
                     (<[room_id := room']> (RoomManager.rooms m)))
                  (delete player_id
                     (<[player_id := room_id]> (RoomManager.player_room_map m)))
                  (RoomManager.max_rooms m)))
            = ((true, "已离开"), m)) as Hgo.
  { intros room' Hh ->. rewrite bool_decide_eq_false_2 by done.
    rewrite insert_insert_eq, insert_id by done.
    rewrite delete_insert_eq, delete_id by done. by destruct m. }
  destruct (Room.paused room) eqn:Ep; apply Hgo; try done.
  - unfold Room.set_pending_players, Room.set_active_players. simpl.
    rewrite pop_set_new by done. rewrite DictFacts.pop_not_in by done.
    apply room_eta.
  - unfold Room.set_pending_players, Room.set_active_players. simpl.
    rewrite pop_set_new by done. rewrite DictFacts.pop_not_in by done.
    apply room_eta.
Qed.

Lemma join_then_leave_restores_witness :
  (RoomManager.join_room "r1" "bob" "Bob" "umoB" 8 paused_registry).1
  = (true, "已加入")
  ∧ RoomManager.leave_room "bob"
      (RoomManager.join_room "r1" "bob" "Bob" "umoB" 8 paused_registry).2
    = ((true, "已离开"), paused_registry).
Proof.
  split; [by vm_compute|].
  eapply (join_then_leave_restores paused_registry "r1" "bob" "Bob" "umoB" 8).
  - apply registry_inv_paused_registry.
  - by vm_compute.
  - done.
  - by vm_compute.
  - by vm_compute.
Defined.

(** X6. [close_room] on a registered room of a consistent registry returns
    True, deletes the room, removes exactly its members from the reverse
    index and leaves a consistent registry; closing the same id again returns
    False and changes nothing. *)
Theorem close_room_frees_members (m : RoomManager.t) (room_id : string)
    (room : Room.t) :
  registry_inv m →
  RoomManager.rooms m !! room_id = Some room →
  let res := RoomManager.close_room room_id m in
  res.1 = true
  ∧ RoomManager.rooms res.2 = delete room_id (RoomManager.rooms m)
  ∧ (∀ p, RoomManager.player_room_map res.2 !! p
          = if decide (p ∈ members room) then None
            else RoomManager.player_room_map m !! p)
  ∧ registry_inv res.2
  ∧ RoomManager.close_room room_id res.2 = (false, res.2).
Proof.
  intros Hinv Hroom res. split_and!.
  - subst res. unfold RoomManager.close_room, RoomManager.get_room.
    by rewrite Hroom.
  - apply close_room_rooms.
  - by apply close_room_index.
  - by apply close_room_inv.
  - unfold RoomManager.close_room at 1. unfold RoomManager.get_room.
    subst res. rewrite close_room_rooms, lookup_delete_eq. done.
Qed.

Lemma close_room_frees_members_witness :
  RoomManager.rooms (RoomManager.close_room "r1" party).2 !! "r1" = None
  ∧ RoomManager.player_room_map (RoomManager.close_room "r1" party).2 !! "carol"
    = None
  ∧ RoomManager.close_room "r1" (RoomManager.close_room "r1" party).2
    = (false, (RoomManager.close_room "r1" party).2).
Proof.
  assert (RoomManager.rooms party !! "r1" = Some party_room) as Hroom
    by (by vm_compute).
  destruct (close_room_frees_members party "r1" party_room
              registry_inv_party Hroom) as (_ & Hrooms & Hidx & _ & Hagain).
  split_and!.
  - rewrite Hrooms. apply lookup_delete_eq.
  - rewrite Hidx. apply decide_True. unfold members, party_room. simpl.
    clear. set_solver.
  - exact Hagain.
Defined.

(** X7. When a player who is not the creator leaves, the room stays
    registered with exactly that player removed: the other players are
    still in it, unchanged and in the same order, and still resolve to the
    room; the leaver resolves to no room, and leaving a second time is
    rejected and changes nothing. *)
Theorem member_leave_keeps_room (m : RoomManager.t) (player_id : string)
    (room : Room.t) :
  registry_inv m →
  RoomManager.get_room_by_player player_id m = Some room →
  player_id ≠ Room.host_id room →
  let res := RoomManager.leave_room player_id m in
  ∃ room',
    res.1 = (true, "已离开")
    ∧ RoomManager.rooms res.2
      = <[Room.room_id room := room']> (RoomManager.rooms m)
    ∧ Room.active_players room'
      = filter (λ kp, kp.1 ≠ player_id) (Room.active_players room)
    ∧ Room.pending_players room'
      = filter (λ kp, kp.1 ≠ player_id) (Room.pending_players room)
    ∧ head_count room' + 1 = head_count room
    ∧ RoomManager.get_room_by_player player_id res.2 = None
    ∧ (∀ q, q ≠ player_id → q ∈ members room →
            RoomManager.get_room_by_player q res.2 = Some room')
    ∧ RoomManager.leave_room player_id res.2 = ((false, "不在房间中"), res.2).
Proof.
  intros Hinv Hget Hhost res.
  pose proof Hget as Hget'.
  apply get_room_by_player_Some in Hget' as (key & Hkey & Hroom).
  destruct Hinv as [Hwf Hidx]. destruct (Hwf _ _ Hroom) as [Hid Hnd _].
  assert (key ≠ "") as Hne.
  { intros ->. unfold RoomManager.get_room_by_player in Hget.
    by rewrite Hkey in Hget. }
  assert (∀ (d : list (string * Player.t)),
            Dict.pop player_id d = filter (λ kp, kp.1 ≠ player_id) d) as Hpop.
  { induction d as [|[k v] d IH]; [done|]. rewrite filter_cons. simpl.
    destruct (decide (player_id = k)) as [->|Hk].
    - by rewrite decide_False by (by intros ?).
    - rewrite decide_True by done. by rewrite IH. }
  set (room' := Room.set_pending_players
                  (Dict.pop player_id (Room.pending_players room))
                  (Room.set_active_players
                     (Dict.pop player_id (Room.active_players room)) room)).
  exists room'. subst res. unfold RoomManager.leave_room. rewrite Hget, Hkey.
  cbn [default from_option id]. fold room'. rewrite bool_decide_eq_false_2 by done.
  cbn [fst snd RoomManager.rooms].
  split; [reflexivity|]. rewrite Hid.
  split; [reflexivity|].
  split; [apply Hpop|]. split; [apply Hpop|].
  assert (player_id ∈ members room) as Hmem.
  { assert (∃ r, RoomManager.rooms m !! key = Some r ∧ player_id ∈ members r)
      as (r & Hr & Hin) by (by apply Hidx).
    by simplify_eq. }
  split.
  { unfold head_count. simpl. unfold members in Hnd, Hmem.
    apply NoDup_app in Hnd as (Hna & Hdisj & Hnp).
    apply elem_of_app in Hmem as [Hin|Hin].
    - pose proof (DictFacts.length_pop_in _ _ Hna Hin).
      rewrite (DictFacts.pop_not_in player_id (Room.pending_players room))
        by (by apply Hdisj). lia.
    - pose proof (DictFacts.length_pop_in _ _ Hnp Hin).
      rewrite (DictFacts.pop_not_in player_id (Room.active_players room)). 
      + lia.
      + intros Ha. by apply (Hdisj _ Ha). }
  assert (RoomManager.get_room_by_player player_id
            (RoomManager.mk (<[key := room']> (RoomManager.rooms m))
               (delete player_id (RoomManager.player_room_map m))
               (RoomManager.max_rooms m)) = None) as Hgone.
  { unfold RoomManager.get_room_by_player. simpl. by rewrite lookup_delete_eq. }
  split; [exact Hgone|]. split.
  - intros q Hq Hin. unfold RoomManager.get_room_by_player. simpl.
    rewrite lookup_delete_ne by done.
    assert (RoomManager.player_room_map m !! q = Some key) as ->.
    { apply Hidx. eauto. }
    rewrite bool_decide_eq_false_2 by done. by rewrite lookup_insert_eq.
  - unfold RoomManager.leave_room. by rewrite Hgone.
Qed.

Lemma member_leave_keeps_room_witness :
  ∃ room',
    RoomManager.rooms (RoomManager.leave_room "bob" party).2 !! "r1" = Some room'
    ∧ Dict.keys (Room.active_players room') = ["alice"; "carol"; "dave"]
    ∧ RoomManager.get_room_by_player "carol" (RoomManager.leave_room "bob" party).2
      = Some room'.
Proof.
  assert (RoomManager.get_room_by_player "bob" party = Some party_room) as Hget
    by (by vm_compute).
  assert ("bob" ≠ Room.host_id party_room) as Hhost by done.
  destruct (member_leave_keeps_room party "bob" party_room registry_inv_party
              Hget Hhost) as (room' & _ & Hrooms & Hact & _ & _ & _ & Hothers & _).
  exists room'. split_and!.
  - rewrite Hrooms. apply lookup_insert_eq.
  - rewrite Hact. by vm_compute.
  - apply Hothers; [done|]. unfold members, party_room. simpl. clear. set_solver.
Defined.

(** X8. One room per creator. When [create_room] succeeds, the new room
    is registered under the drawn id in phase WAITING with the creator as
    its only player, and the creator resolves to it (for a non-empty id).
    Whether it succeeded or not, a second [create_room] for the same player
    returns None and changes nothing; and after a success every [join_room]
    by the creator is rejected and changes nothing. *)
Theorem one_room_per_creator (m : RoomManager.t)
    (fresh_id host_id host_name host_umo room_name : string)
    (world_setting : text) (timeout char_timeout : Z)
    (original_world_setting : option text) :
  let res := RoomManager.create_room fresh_id host_id host_name host_umo
               room_name world_setting timeout char_timeout
               original_world_setting m in
  (∀ room, res.1 = Some room →
     RoomManager.get_room fresh_id res.2 = Some room
     ∧ (fresh_id ≠ "" → RoomManager.get_room_by_player host_id res.2 = Some room)
     ∧ Room.status room = RoomStatus.WAITING
     ∧ Room.paused room = false
     ∧ Room.active_players room
       = [(host_id, Player.new host_id host_name host_umo)]
     ∧ Room.pending_players room = []
     ∧ (∀ room_id name umo max_players,
          (RoomManager.join_room room_id host_id name umo max_players res.2).1.1
          = false
          ∧ (RoomManager.join_room room_id host_id name umo max_players res.2).2
            = res.2))
  ∧ (res.1 = None → res.2 = m)
  ∧ (∀ fresh_id' name umo room_name' world t ct orig,
       RoomManager.create_room fresh_id' host_id name umo room_name' world t ct
         orig res.2
       = (None, res.2)).
Proof.
  intros res. subst res. unfold RoomManager.create_room at 1 2 3 4 5 6 7 8 9 10 11.
  destruct (negb (RoomManager.can_create_room m)
            || bool_decide (is_Some (RoomManager.player_room_map m !! host_id)))
    eqn:Hrej; cbn [fst snd].
  - split_and!; [done|done|].
    intros. unfold RoomManager.create_room. by rewrite Hrej.
  - split_and!; [|done|].
    + intros room [= <-]. unfold RoomManager.get_room, RoomManager.get_room_by_player.
      cbn [RoomManager.rooms RoomManager.player_room_map Room.status Room.paused
           Room.active_players Room.pending_players].
      rewrite !lookup_insert_eq. split_and!; try done.
      * intros Hne. by rewrite bool_decide_eq_false_2.
      * intros rid name umo max. unfold RoomManager.join_room.
        destruct (RoomManager.get_room rid _) as [r|]; [|done].
        cbn [RoomManager.player_room_map]. rewrite lookup_insert_eq.
        rewrite (bool_decide_eq_true_2 (is_Some (Some fresh_id))) by eauto.
        destruct (bool_decide (Room.status r = RoomStatus.CLOSED)); [done|].
        by destruct (bool_decide (Room.status r = RoomStatus.CHARACTER_CREATION)
                     || bool_decide (Room.status r = RoomStatus.ACTIVE)).
    + intros. unfold RoomManager.create_room.
      cbn [RoomManager.player_room_map]. rewrite lookup_insert_eq.
      rewrite (bool_decide_eq_true_2 (is_Some (Some fresh_id))) by eauto.
      by rewrite orb_true_r.
Qed.

(** X9. Pausing and resuming are the creator's alone and never repeat: a
    call of [pause_room] or [resume_room] that is rejected changes nothing;
    any caller who is not the room's creator is rejected; once a pause has
    succeeded every further pause of that room is rejected until it is
    resumed, and once a resume has succeeded every further resume is rejected;
    and no room accepts both a pause and a resume in the same state. *)
Theorem pause_resume_rejections (m : RoomManager.t) (room_id player_id : string) :
  let p := RoomManager.pause_room room_id player_id m in
  let r := RoomManager.resume_room room_id player_id m in
  (p.1.1 = false → p.2 = m)
  ∧ (r.1.1 = false → r.2 = m)
  ∧ ((∀ room, RoomManager.rooms m !! room_id = Some room →
              player_id ≠ Room.host_id room) →
     p.1.1 = false ∧ r.1.1 = false)
  ∧ (p.1.1 = true →
     ∀ caller, (RoomManager.pause_room room_id caller p.2).1.1 = false)
  ∧ (r.1.1 = true →
     ∀ caller, (RoomManager.resume_room room_id caller r.2).1.1 = false)
  ∧ ¬ (p.1.1 = true ∧ r.1.1 = true).
Proof.
  intros p r. subst p r.
  unfold RoomManager.pause_room, RoomManager.resume_room, RoomManager.get_room,
    Room.is_host.
  destruct (RoomManager.rooms m !! room_id) as [room|] eqn:Eroom;
    [|cbn [fst snd]; split_and!; try done; intros [? ?]; done].
  destruct (decide (player_id = Room.host_id room)) as [Hhost|Hhost].
  - rewrite (bool_decide_eq_true_2 _ Hhost). cbn [negb].
    destruct (Room.paused room) eqn:Ep; cbn [negb fst snd].
    + split_and!; try done.
      * intros Hno. by destruct (Hno room eq_refl).
      * intros _ caller. cbn [RoomManager.rooms]. rewrite lookup_insert_eq.
        cbn [Room.host_id Room.set_status Room.set_paused Room.paused
             Room.activate_pending_players Room.set_pending_players
             Room.set_active_players].
        destruct (negb _); [done|]. done.
      * intros [? ?]; done.
    + split_and!; try done.
      * intros Hno. by destruct (Hno room eq_refl).
      * intros _ caller. cbn [RoomManager.rooms]. rewrite lookup_insert_eq.
        cbn [Room.host_id Room.set_status Room.set_paused Room.paused].
        destruct (negb _); done.
      * intros [? ?]; done.
  - rewrite (bool_decide_eq_false_2 _ Hhost). cbn [negb fst snd].
    split_and!; try done. intros [? ?]; done.
Qed.

(** X10. Resuming lets in the waiting players behind the active ones, in
    the order they joined: in a room whose identities are distinct, the
    active players after [resume_room] are the former active players followed
    by the former pending players, so the active count grows by the number
    of pending players and nobody is lost. *)
Theorem resume_room_appends_pending (m : RoomManager.t)
    (room_id player_id : string) (room : Room.t) :
  registry_inv m →
  RoomManager.rooms m !! room_id = Some room →
  player_id = Room.host_id room →
  Room.paused room = true →
  ∃ room2,
    RoomManager.rooms (RoomManager.resume_room room_id player_id m).2 !! room_id
    = Some room2
    ∧ Dict.keys (Room.active_players room2)
      = Dict.keys (Room.active_players room)
        ++ Dict.keys (Room.pending_players room)
    ∧ Room.get_active_player_count room2
      = Room.get_active_player_count room
        + Z.of_nat (length (Room.pending_players room)).
Proof.
  intros [Hwf _] Hroom -> Hp. destruct (Hwf _ _ Hroom) as [_ Hnd _].
  unfold RoomManager.resume_room, RoomManager.get_room, Room.is_host.
  rewrite Hroom, bool_decide_eq_true_2, Hp by done. cbn [negb snd RoomManager.rooms].
  eexists. rewrite lookup_insert_eq. split; [reflexivity|].
  assert (Dict.keys
            (Room.active_players
               (Room.set_status RoomStatus.ACTIVE
                  (Room.set_paused false
                     (Room.activate_pending_players
                        (Room.apply_pending_config room)))))
          = Dict.keys (Room.active_players room)
            ++ Dict.keys (Room.pending_players room)) as Hkeys.
  { unfold Room.apply_pending_config.
    destruct (PendingConfig.timeout _); simpl; by apply activate_keys. }
  split; [exact Hkeys|].
  unfold Room.get_active_player_count.
  rewrite <- !DictFacts.length_keys, Hkeys, length_app. lia.
Qed.

Lemma resume_room_appends_pending_witness :
  ∃ room2,
    RoomManager.rooms (RoomManager.resume_room "r1" "alice" staged_registry).2 !! "r1"
    = Some room2
    ∧ Dict.keys (Room.active_players room2) = ["alice"; "bob"].
Proof.
  assert (registry_inv staged_registry) as Hinv.
  { split.
    - intros rid r Hr. unfold staged_registry in Hr. simpl in Hr.
      apply lookup_singleton_Some in Hr as [<- <-].
      split; [done| |].
      + unfold members, staged_room. simpl. apply NoDup_cons. split; [set_solver|].
        apply NoDup_singleton.
      + intros k p Hin. unfold staged_room in Hin. simpl in Hin.
        apply elem_of_cons in Hin as [[= -> ->]|Hin]; [done|].
        apply list_elem_of_singleton in Hin as [= -> ->]. done.
    - intros pid rid. unfold staged_registry. simpl. split.
      + intros [[<- <-]|[_ [<- <-]%lookup_singleton_Some]]%lookup_insert_Some.
        * exists staged_room. split; [apply lookup_singleton_eq|].
          unfold members, staged_room. simpl. set_solver.
        * exists staged_room. split; [apply lookup_singleton_eq|].
          unfold members, staged_room. simpl. set_solver.
      + intros (r & [<- <-]%lookup_singleton_Some & Hin).
        unfold members, staged_room in Hin. simpl in Hin.
        apply elem_of_cons in Hin as [->|Hin]; [apply lookup_insert_eq|].
        apply list_elem_of_singleton in Hin as ->.
        rewrite lookup_insert_ne by done. apply lookup_singleton_eq. }
  destruct (resume_room_appends_pending staged_registry "r1" "alice" staged_room
              Hinv) as (room2 & Hr & Hk & _); [done..|].
  exists room2. split; [exact Hr|]. rewrite Hk. done.
Defined.

(** ** Rooms: rounds, time-outs and characters *)

Section round_facts.
Implicit Types (r : Room.t) (p : Player.t).

(** The step of the comprehension of [get_round_actions]. *)
Local Abbreviation record_action :=
  (λ (acc : Dict.t string) (p : Player.t),
     match Player.current_action p with
     | Some a =>
         if bool_decide (a = "") then acc
         else Dict.set (Player.display_name p) a acc
     | None => acc
     end).

Lemma record_action_get name acc l :
  Dict.get name (foldl record_action acc l)
  = match last (omap (action_as name) l) with
    | Some a => Some a
    | None => Dict.get name acc
    end.
Proof.
  revert acc. induction l as [|p l IH]; intros acc; simpl; [done|].
  rewrite IH. unfold action_as at 2.
  destruct (Player.current_action p) as [a|]; simpl; [|done].
  case_bool_decide as Ha; simpl; [done|].
  case_bool_decide as Hn; simpl.
  - rewrite last_cons. destruct (last _); [done|].
    subst name. by rewrite DictFacts.get_set_eq.
  - destruct (last _); [done|]. by rewrite DictFacts.get_set_ne.
Qed.

Lemma record_action_NoDup acc l :
  NoDup (Dict.keys acc) → NoDup (Dict.keys (foldl record_action acc l)).
Proof.
  revert acc. induction l as [|p l IH]; intros acc Hnd; simpl; [done|].
  apply IH. destruct (Player.current_action p); [|done].
  case_bool_decide; [done|]. by apply DictFacts.NoDup_keys_set.
Qed.

Lemma record_action_length acc l :
  (length (foldl record_action acc l) ≤ length acc + length l)%nat.
Proof.
  revert acc. induction l as [|p l IH]; intros acc; simpl; [lia|].
  etrans; [apply IH|]. destruct (Player.current_action p); [|lia].
  case_bool_decide; [lia|].
  pose proof (length_set_le (Player.display_name p) s acc). lia.
Qed.

Lemma record_action_none acc l :
  Forall (λ p, Player.current_action p = None) l →
  foldl record_action acc l = acc.
Proof.
  revert acc. induction l as [|p l IH]; intros acc Hl; simpl; [done|].
  apply Forall_cons in Hl as [Hp Hl]. rewrite Hp. by apply IH.
Qed.

Lemma forallb_fmap {A B} (f : A → B) (g : B → bool) (l : list A) :
  forallb g (f <$> l) = forallb (g ∘ f) l.
Proof. induction l; simpl; [done|]. by f_equal. Qed.

Lemma forallb_ext_in {A} (f g : A → bool) (l : list A) :
  (∀ x, x ∈ l → f x = g x) → forallb f l = forallb g l.
Proof.
  induction l as [|x l IH]; intros Hfg; simpl; [done|].
  rewrite Hfg by apply list_elem_of_here. f_equal. apply IH.
  intros y Hy. apply Hfg. by apply list_elem_of_further.
Qed.

Lemma forallb_const_false {A} (l : list A) :
  forallb (λ _, false) l = true ↔ l = [].
Proof. destruct l; simpl; split; done. Qed.

Lemma forallb_const_true {A} (l : list A) : forallb (λ _, true) l = true.
Proof. induction l; simpl; done. Qed.

Lemma start_new_round_values r p :
  p ∈ Dict.values (Room.active_players (Room.start_new_round r)) →
  Player.status p = PlayerStatus.ACTIVE ∧ Player.current_action p = None.
Proof.
  unfold Room.start_new_round.
  cbn [Room.active_players Room.set_active_players].
  rewrite values_map_values. intros (p0 & -> & _)%list_elem_of_fmap. done.
Qed.

Lemma filter_none {A} (P : A → Prop) `{∀ x, Decision (P x)} (l : list A) :
  Forall (λ x, ¬ P x) l → filter P l = [].
Proof.
  induction 1 as [|x l Hx Hl IH]; [done|].
  rewrite filter_cons, decide_False by done. exact IH.
Qed.

Lemma map_values_idem {V} (f : V → V) (d : Dict.t V) :
  (∀ v, f (f v) = f v) →
  Dict.map_values f (Dict.map_values f d) = Dict.map_values f d.
Proof.
  intros Hf. unfold Dict.map_values. rewrite <- list_fmap_compose.
  apply list_fmap_ext. intros i [k v] _. simpl. unfold prod_map. simpl.
  by rewrite Hf.
Qed.

Lemma values_nil {V} (d : Dict.t V) : Dict.values d = [] ↔ d = [].
Proof. destruct d; simpl; split; done. Qed.
End round_facts.

(** X11. What [get_round_actions] keeps. Under a display name the table
    holds the action of the last active player (in joining order) who has a
    non-empty action and that display name, and nothing when there is none:
    of two players with the same display name only the later one's action
    survives. No name occurs twice and the table never has more entries than
    there are active players. *)
Theorem get_round_actions_last_wins (r : Room.t) (name : string) :
  Dict.get name (Room.get_round_actions r)
  = last (omap (action_as name) (Dict.values (Room.active_players r)))
  ∧ NoDup (Dict.keys (Room.get_round_actions r))
  ∧ (length (Room.get_round_actions r) ≤ length (Room.active_players r))%nat.
Proof.
  unfold Room.get_round_actions. split_and!.
  - rewrite record_action_get. simpl. by destruct (last _).
  - apply record_action_NoDup. simpl. apply NoDup_nil_2.
  - etrans; [apply record_action_length|]. simpl.
    unfold Dict.values. by rewrite length_fmap.
Qed.

(** X12. [start_new_round] opens a clean round: the round number goes up
    by one, the same players are active in the same order, each with status
    ACTIVE and no action, so no action is on record, and neither "everybody
    has acted" nor "everybody has timed out" holds unless the room has no
    active player at all (both checks hold vacuously for an empty room). *)
Theorem start_new_round_is_clean (r : Room.t) :
  let r' := Room.start_new_round r in
  Room.current_round r' = Room.current_round r + 1
  ∧ Dict.keys (Room.active_players r') = Dict.keys (Room.active_players r)
  ∧ (∀ p, p ∈ Dict.values (Room.active_players r') →
          Player.status p = PlayerStatus.ACTIVE ∧ Player.current_action p = None)
  ∧ Room.get_round_actions r' = []
  ∧ (Room.check_all_players_acted r' = true ↔ Room.active_players r = [])
  ∧ (Room.check_all_players_timeout r' = true ↔ Room.active_players r = []).
Proof.
  intros r'. subst r'. unfold Room.start_new_round.
  cbn [Room.current_round Room.set_active_players Room.set_current_round
       Room.active_players].
  pose proof (start_new_round_values r) as Hreset.
  unfold Room.start_new_round in Hreset.
  cbn [Room.active_players Room.set_active_players] in Hreset.
  split_and!.
  - done.
  - apply DictFacts.keys_map_values.
  - exact Hreset.
  - unfold Room.get_round_actions. cbn [Room.active_players Room.set_active_players].
    apply record_action_none. apply Forall_forall. intros p Hp.
    by apply Hreset.
  - unfold Room.check_all_players_acted. cbn [Room.active_players Room.set_active_players].
    rewrite values_map_values, forallb_fmap.
    rewrite (forallb_ext_in _ (λ _, false)).
    + by rewrite forallb_const_false, values_nil.
    + intros p _. reflexivity.
  - unfold Room.check_all_players_timeout. cbn [Room.active_players Room.set_active_players].
    rewrite values_map_values, forallb_fmap.
    rewrite (forallb_ext_in _ (λ _, false)).
    + by rewrite forallb_const_false, values_nil.
    + intros p _. reflexivity.
Qed.

(** X13. The round timer's marking. After the loop of the round timer
    ([mark_timeouts]) no player is left ACTIVE: everybody counts as having
    acted and a second pass would time out nobody and change nothing; the
    actions on record are untouched.  Everybody has timed out afterwards
    exactly when no player had acted before, so a round in which nobody
    acts always ends with the room closed; and whenever everybody has timed
    out, everybody counts as having acted. *)
Theorem mark_timeouts_settles_round (r : Room.t) :
  Room.check_all_players_acted (mark_timeouts r) = true
  ∧ timeout_players (mark_timeouts r) = []
  ∧ mark_timeouts (mark_timeouts r) = mark_timeouts r
  ∧ Room.get_round_actions (mark_timeouts r) = Room.get_round_actions r
  ∧ (Room.check_all_players_timeout (mark_timeouts r) = true
     ↔ ∀ p, p ∈ Dict.values (Room.active_players r) →
            Player.status p = PlayerStatus.ACTIVE
            ∨ Player.status p = PlayerStatus.TIMEOUT)
  ∧ Room.check_all_players_timeout (mark_timeouts (Room.start_new_round r)) = true
  ∧ (Room.check_all_players_timeout r = true →
     Room.check_all_players_acted r = true).
Proof.
  set (mark := λ p : Player.t,
         if bool_decide (Player.status p = PlayerStatus.ACTIVE)
         then Player.set_status PlayerStatus.TIMEOUT p else p).
  assert (∀ p, Player.status (mark p) ≠ PlayerStatus.ACTIVE) as Hmark.
  { intros p. unfold mark. case_bool_decide; simpl; done. }
  assert (∀ r0, Dict.values (Room.active_players (mark_timeouts r0))
                = mark <$> Dict.values (Room.active_players r0)) as Hvals.
  { intros r0. unfold mark_timeouts. cbn [Room.active_players Room.set_active_players].
    apply values_map_values. }
  assert (∀ r0, Room.check_all_players_timeout (mark_timeouts r0) = true
                ↔ ∀ p, p ∈ Dict.values (Room.active_players r0) →
                       Player.status p = PlayerStatus.ACTIVE
                       ∨ Player.status p = PlayerStatus.TIMEOUT) as Hall.
  { intros r0. unfold Room.check_all_players_timeout. rewrite Hvals, forallb_fmap.
    rewrite forallb_forall. split.
    - intros H p Hp. apply list_elem_of_In in Hp. specialize (H p Hp).
      simpl in H. apply bool_decide_eq_true in H. unfold mark in H.
      case_bool_decide; [by left|by right].
    - intros H p Hp. apply list_elem_of_In in Hp. simpl.
      apply bool_decide_eq_true. unfold mark.
      case_bool_decide as Hs; [done|]. by destruct (H p Hp). }
  split_and!.
  - unfold Room.check_all_players_acted. rewrite Hvals, forallb_fmap.
    rewrite (forallb_ext_in _ (λ _, true)); [apply forallb_const_true|].
    intros p _. simpl. by apply bool_decide_eq_true_2.
  - unfold timeout_players. rewrite Hvals.
    rewrite filter_none; [done|].
    apply Forall_forall. intros p (p0 & -> & _)%list_elem_of_fmap. apply Hmark.
  - destruct r as [? ? ? ? ? ? ? ? act ? ? ? ? ? ?].
    unfold mark_timeouts, Room.set_active_players. simpl. f_equal.
    apply map_values_idem. intros p.
    destruct (bool_decide (Player.status p = PlayerStatus.ACTIVE)) eqn:E;
      simpl; [done|]. by rewrite E.
  - apply get_round_actions_mark.
  - apply Hall.
  - apply Hall. intros p Hp. left.
    by apply (start_new_round_values r).
  - unfold Room.check_all_players_timeout, Room.check_all_players_acted.
    rewrite !forallb_forall. intros H p Hp. specialize (H p Hp).
    apply bool_decide_eq_true in H. apply bool_decide_eq_true_2. by rewrite H.
Qed.

(** X14. Character creation always completes by default. After
    [start_character_creation] the room is in CHARACTER_CREATION with the
    same players, all of them still to write a character (so the phase is
    complete only for a room without active players), and the pending
    players untouched.  When the character timer's loop then assigns the
    default characters, every active player is CHAR_DONE and has a character
    named after the player, nobody is left for a second pass, and the phase
    is complete. *)
Theorem default_characters_complete_creation (r : Room.t) :
  let started := Room.start_character_creation r in
  let assigned := assign_default_characters started in
  Room.status started = RoomStatus.CHARACTER_CREATION
  ∧ Dict.keys (Room.active_players started) = Dict.keys (Room.active_players r)
  ∧ Room.pending_players started = Room.pending_players r
  ∧ (Room.check_all_characters_done started = true ↔ Room.active_players r = [])
  ∧ char_timeout_players started
    = Player.player_name <$> Dict.values (Room.active_players r)
  ∧ Room.check_all_characters_done assigned = true
  ∧ (∀ p, p ∈ Dict.values (Room.active_players assigned) →
          Player.status p = PlayerStatus.CHAR_DONE
          ∧ Player.has_character p = true
          ∧ Player.character_name p = Some (Player.player_name p))
  ∧ char_timeout_players assigned = []
  ∧ assign_default_characters assigned = assigned.
Proof.
  intros started assigned.
  set (dflt := λ p : Player.t,
         if bool_decide (Player.status p = PlayerStatus.CREATING_CHAR)
         then Player.set_status PlayerStatus.CHAR_DONE
                (Player.set_character (Some (Player.player_name p))
                   (Some "一位神秘的冒险者") p)
         else p).
  assert (Dict.values (Room.active_players started)
          = Player.set_status PlayerStatus.CREATING_CHAR
              <$> Dict.values (Room.active_players r)) as Hstarted.
  { subst started. unfold Room.start_character_creation.
    cbn [Room.active_players Room.set_active_players]. apply values_map_values. }
  assert (Dict.values (Room.active_players assigned)
          = dflt <$> Dict.values (Room.active_players started)) as Hassigned.
  { subst assigned. unfold assign_default_characters.
    cbn [Room.active_players Room.set_active_players]. apply values_map_values. }
  assert (∀ p, p ∈ Dict.values (Room.active_players assigned) →
               Player.status p = PlayerStatus.CHAR_DONE
               ∧ Player.has_character p = true
               ∧ Player.character_name p = Some (Player.player_name p)) as Hdone.
  { intros p. rewrite Hassigned, Hstarted, <- list_fmap_compose.
    intros (p0 & -> & _)%list_elem_of_fmap. done. }
  split_and!.
  - done.
  - subst started. unfold Room.start_character_creation.
    cbn [Room.active_players Room.set_active_players].
    apply DictFacts.keys_map_values.
  - done.
  - unfold Room.check_all_characters_done. rewrite Hstarted, forallb_fmap.
    rewrite (forallb_ext_in _ (λ _, false)) by (intros p _; reflexivity).
    by rewrite forallb_const_false, values_nil.
  - unfold char_timeout_players. rewrite Hstarted.
    generalize (Dict.values (Room.active_players r)). intros l.
    induction l as [|p l IH]; [done|]. rewrite fmap_cons, filter_cons.
    rewrite decide_True by done. rewrite !fmap_cons. f_equal. exact IH.
  - unfold Room.check_all_characters_done. apply forallb_forall.
    intros p Hp%list_elem_of_In. apply bool_decide_eq_true_2. by apply Hdone.
  - exact Hdone.
  - unfold char_timeout_players. rewrite filter_none; [done|].
    apply Forall_forall. intros p Hp. destruct (Hdone p Hp) as [-> _]. done.
  - subst assigned. generalize started. intros r0.
    destruct r0 as [? ? ? ? ? ? ? ? act ? ? ? ? ? ?].
    unfold assign_default_characters, Room.set_active_players. simpl. f_equal.
    apply map_values_idem. intros p.
    destruct (bool_decide (Player.status p = PlayerStatus.CREATING_CHAR)) eqn:E;
      simpl; [done|]. by rewrite E.
Qed.

(** ** The creation wizard: what is stored and when *)

Section wizard_facts.
Variable cfg : Config.t.
Implicit Types (pending : PendingCreation.t) (txt : text).

Lemma slice_to_prefix n txt : slice_to n txt `prefix_of` txt.
Proof. unfold slice_to. case_bool_decide; apply prefix_take. Qed.

Lemma len_slice_to_min n txt :
  0 ≤ n → len (slice_to n txt) = Z.min n (len txt).
Proof.
  intros Hn. unfold slice_to, len. rewrite bool_decide_eq_false_2 by lia.
  rewrite length_take. lia.
Qed.

Lemma summarize_cases txt provider llm :
  (∃ s, _summarize_world_setting cfg txt provider llm = (true, strip s, None)
        ∧ 50 < len (strip s)
        ∧ (∃ id, provider = ProviderId (Some id) ∧ id ≠ "")
        ∧ llm = LlmResp (Some (Some s)) ∧ s ≠ [])
  ∨ (∃ e, _summarize_world_setting cfg txt provider llm
          = (false, slice_to (Config.world_setting_max_length cfg) txt, Some e)).
Proof.
  unfold _summarize_world_setting.
  destruct provider as [|[id|]]; simpl; [right; eauto| |right; eauto].
  case_bool_decide as Hid; simpl; [right; eauto|].
  destruct llm as [|[[[|c s]|]|]]; simpl; try (by right; eauto).
  case_bool_decide as Hlen; [|right; eauto].
  left. exists (c :: s). split_and!; [done|lia|eauto|done|done].
Qed.
End wizard_facts.

(** X15. What the wizard accepts as a world setting. [_handle_world_setting]
    moves to CONFIRM only with a non-empty world setting stored: the
    configured template (on the keyword, when a template is configured) or
    the text typed, which then has between 10 and [world_setting_max_length]
    characters.  A text of fewer than 10 characters changes nothing; the
    keywords themselves are such texts, so without a template they are
    rejected as too short.  A longer text over the limit is stashed as the
    original, the world setting untouched, and the wizard moves to
    WORLD_TOO_LONG. *)
Theorem world_setting_outcomes (cfg : Config.t) (pending : PendingCreation.t)
    (txt : text) :
  let res := _handle_world_setting cfg pending txt in
  let keyword := txt = kw_default_zh ∨ txt = lit "default" in
  (res.2 = ReplyWorldTooShort ∧ res.1 = pending ∧ len txt < 10
   ∧ ¬ (keyword ∧ Config.world_template cfg ≠ []))
  ∨ (res.2 = ReplyWorldTooLong (len txt)
     ∧ res.1 = PendingCreation.set_step CreationStep.WORLD_TOO_LONG
                 (PendingCreation.set_original_world_setting (Some txt) pending)
     ∧ 10 ≤ len txt ∧ Config.world_setting_max_length cfg < len txt)
  ∨ (res.2 = ReplyConfirm res.1
     ∧ PendingCreation.step res.1 = CreationStep.CONFIRM
     ∧ PendingCreation.original_world_setting res.1
       = PendingCreation.original_world_setting pending
     ∧ ∃ w, PendingCreation.world_setting res.1 = Some w ∧ w ≠ []
            ∧ ((keyword ∧ w = Config.world_template cfg)
               ∨ (w = txt ∧ 10 ≤ len txt
                  ∧ len txt ≤ Config.world_setting_max_length cfg))).
Proof.
  intros res keyword. subst res. unfold _handle_world_setting.
  assert (text_in txt [kw_default_zh; lit "default"] = true ↔ keyword) as Hkw.
  { unfold text_in, keyword. rewrite bool_decide_eq_true.
    rewrite elem_of_cons, list_elem_of_singleton. done. }
  destruct (text_in txt [kw_default_zh; lit "default"]) eqn:Ekw.
  - case_bool_decide as Htpl; simpl.
    + assert (len txt < 10) as Hshort.
      { destruct (proj1 Hkw eq_refl) as [->| ->]; by vm_compute. }
      rewrite bool_decide_eq_true_2 by done. left. split_and!; try done.
      intros [_ Hne]. done.
    + right; right. split_and!; try done. eexists. split_and!; [done|done|].
      left. split; [by apply Hkw|done].
  - simpl. case_bool_decide as Hshort.
    + left. split_and!; try done. intros [Hk _]. apply Hkw in Hk. done.
    + case_bool_decide as Hlong.
      * right; left. split_and!; try done; lia.
      * right; right. split_and!; try done. exists txt. split_and!; [done| |].
        -- intros ->. vm_compute in Hshort. by apply Hshort.
        -- right. split_and!; [done|lia|lia].
Qed.

(** X16. [_summarize_world_setting] either succeeds with the backend's
    stripped response, which then has more than 50 characters (and is not
    capped by [world_setting_max_length]), the provider id being non-empty
    and nothing having raised; or it fails with a reason and falls back to
    a prefix of the text, of [min max_length (len text)] characters when the
    limit is not negative. *)
Theorem summarize_outcomes (cfg : Config.t) (txt : text)
    (provider : ProviderOutcome) (llm : LlmOutcome) :
  let res := _summarize_world_setting cfg txt provider llm in
  (res.1.1 = true ∧ res.2 = None ∧ 50 < len res.1.2
   ∧ ∃ id s, provider = ProviderId (Some id) ∧ id ≠ ""
             ∧ llm = LlmResp (Some (Some s)) ∧ res.1.2 = strip s)
  ∨ (res.1.1 = false ∧ is_Some res.2
     ∧ res.1.2 `prefix_of` txt
     ∧ (0 ≤ Config.world_setting_max_length cfg →
        len res.1.2 = Z.min (Config.world_setting_max_length cfg) (len txt))).
Proof.
  intros res. subst res.
  destruct (summarize_cases cfg txt provider llm)
    as [(s & -> & Hlen & (id & -> & Hid) & -> & _)|(e & ->)]; simpl.
  - left. split_and!; try done. eauto 10.
  - right. split_and!; [done|eauto|apply slice_to_prefix|apply len_slice_to_min].
Qed.

Section choice_facts.
Variable cfg : Config.t.

(** The three keyword lists of [_handle_world_too_long_choice] are disjoint. *)
Lemma choice_lists_disjoint (choice : text) :
  (text_in choice [kw_truncate_zh; lit "2"; lit "cut"; lit "truncate"] = true →
   text_in choice [kw_summarize_zh; lit "1"; lit "ai"; lit "summary"] = false)
  ∧ (text_in choice [kw_keep_zh; lit "3"; lit "keep"; lit "full"] = true →
     text_in choice [kw_summarize_zh; lit "1"; lit "ai"; lit "summary"] = false
     ∧ text_in choice [kw_truncate_zh; lit "2"; lit "cut"; lit "truncate"]
       = false).
Proof.
  unfold text_in. split; intros Hin%bool_decide_eq_true.
  - repeat (apply elem_of_cons in Hin as [->|Hin]; [by vm_compute|]).
    by apply elem_of_nil in Hin.
  - repeat (apply elem_of_cons in Hin as [->|Hin]; [by vm_compute|]).
    by apply elem_of_nil in Hin.
Qed.

(** [str.lower] beyond ASCII: the Kelvin sign lowers to "k", so that
    "\u212aEEP" is the keyword "keep", and "\u0130" lowers to "i" followed by
    a combining dot. *)
Lemma lower_beyond_ascii :
  strip (lower [8490; 69; 69; 80]%N) = lit "keep"
  ∧ text_in (strip (lower [8490; 69; 69; 80]%N))
      [kw_keep_zh; lit "3"; lit "keep"; lit "full"] = true
  ∧ lower [304]%N = [105; 775]%N.
Proof. by vm_compute. Qed.

Lemma summarize_failures (txt : text) (provider : ProviderOutcome)
    (llm : LlmOutcome) :
  let cut := slice_to (Config.world_setting_max_length cfg) txt in
  (provider = ProviderRaise →
   _summarize_world_setting cfg txt provider llm = (false, cut, Some ErrRaised))
  ∧ (∀ id, provider = ProviderId id → truthy id = false →
       _summarize_world_setting cfg txt provider llm
       = (false, cut, Some ErrNoProvider))
  ∧ (∀ id, provider = ProviderId id → truthy id = true → llm = LlmRaise →
       _summarize_world_setting cfg txt provider llm
       = (false, cut, Some ErrRaised))
  ∧ (∀ id resp, provider = ProviderId id → truthy id = true →
       llm = LlmResp resp →
       (∀ s, completion_text resp = Some s → len (strip s) ≤ 50) →
       _summarize_world_setting cfg txt provider llm
       = (false, cut, Some ErrSummaryFailed))
  ∧ (∀ id resp s, provider = ProviderId id → truthy id = true →
       llm = LlmResp resp → completion_text resp = Some s →
       50 < len (strip s) →
       _summarize_world_setting cfg txt provider llm = (true, strip s, None)).
Proof.
  intros cut. unfold _summarize_world_setting. fold cut. split_and!.
  - by intros ->.
  - intros id -> Hid. by rewrite Hid.
  - intros id -> Hid ->. by rewrite Hid.
  - intros id resp -> Hid -> Hshort. rewrite Hid. simpl.
    destruct (completion_text resp) as [s|] eqn:Hs; [|done].
    rewrite bool_decide_eq_false_2; [done|]. specialize (Hshort s eq_refl). lia.
  - intros id resp s -> Hid -> Hs Hlen. rewrite Hid, Hs. simpl.
    rewrite bool_decide_eq_true_2; [done|lia].
Qed.
End choice_facts.

(** X17. What [_handle_world_too_long_choice] does in the step
    WORLD_TOO_LONG, input by input ([choice] is the input lower-cased and
    stripped, [original] the stashed text).  On a summarize keyword: if the
    provider id is non-empty and the backend returns a text of more than 50
    characters after stripping, that text is stored and the wizard moves to
    CONFIRM; if the provider lookup or the generation call raises, the
    provider id is missing or empty, or the response has no text or at most
    50 characters, the wizard is left exactly as it was, with the reason
    reported.  On a truncate keyword the first [world_setting_max_length]
    characters of the original are stored; on a keep keyword the whole
    original, however long; both move to CONFIRM.  Any other input is a new
    world text: with 10 to [world_setting_max_length] characters it is
    stored, the stash dropped and the wizard moves to CONFIRM; longer, it
    replaces the stash and nothing else changes; shorter than 10, nothing
    changes and the choices are shown.  In every case the wizard ends in
    CONFIRM or WORLD_TOO_LONG, never in SUMMARIZING, and the player's
    identity, room name and timeout are untouched. *)
Theorem too_long_choice_outcomes (cfg : Config.t) (pending : PendingCreation.t)
    (txt : text) (provider : ProviderOutcome) (llm : LlmOutcome) :
  PendingCreation.step pending = CreationStep.WORLD_TOO_LONG →
  let choice := strip (lower txt) in
  let original :=
    default [] (PendingCreation.original_world_setting pending) in
  let max_length := Config.world_setting_max_length cfg in
  let res := _handle_world_too_long_choice cfg pending txt provider llm in
  let confirmed world :=
    PendingCreation.set_step CreationStep.CONFIRM
      (PendingCreation.set_world_setting (Some world) pending) in
  let failed e :=
    (pending, [ReplySummarizing (len original); ReplySummaryFailed e]) in
  (text_in choice [kw_summarize_zh; lit "1"; lit "ai"; lit "summary"] = true →
   (∀ id resp s,
      provider = ProviderId id → truthy id = true → llm = LlmResp resp →
      completion_text resp = Some s → 50 < len (strip s) →
      res = (confirmed (strip s),
             [ReplySummarizing (len original);
              ReplySummaryDone (len original) (len (strip s));
              ReplyConfirm (confirmed (strip s))]))
   ∧ (provider = ProviderRaise → res = failed ErrRaised)
   ∧ (∀ id, provider = ProviderId id → truthy id = false →
        res = failed ErrNoProvider)
   ∧ (∀ id, provider = ProviderId id → truthy id = true → llm = LlmRaise →
        res = failed ErrRaised)
   ∧ (∀ id resp, provider = ProviderId id → truthy id = true →
        llm = LlmResp resp →
        (∀ s, completion_text resp = Some s → len (strip s) ≤ 50) →
        res = failed ErrSummaryFailed))
  ∧ (text_in choice [kw_truncate_zh; lit "2"; lit "cut"; lit "truncate"] = true →
     res = (confirmed (slice_to max_length original),
            [ReplyTruncated max_length;
             ReplyConfirm (confirmed (slice_to max_length original))]))
  ∧ (text_in choice [kw_keep_zh; lit "3"; lit "keep"; lit "full"] = true →
     res = (confirmed original,
            [ReplyKept (len original); ReplyConfirm (confirmed original)]))
  ∧ (text_in choice [kw_summarize_zh; lit "1"; lit "ai"; lit "summary"] = false →
     text_in choice [kw_truncate_zh; lit "2"; lit "cut"; lit "truncate"] = false →
     text_in choice [kw_keep_zh; lit "3"; lit "keep"; lit "full"] = false →
     (10 ≤ len txt → len txt ≤ max_length →
      res = (PendingCreation.set_original_world_setting None (confirmed txt),
             [ReplyNewWorldSaved (len txt);
              ReplyConfirm
                (PendingCreation.set_original_world_setting None
                   (confirmed txt))]))
     ∧ (10 ≤ len txt → max_length < len txt →
        res = (PendingCreation.set_original_world_setting (Some txt) pending,
               [ReplyStillTooLong (len txt)]))
     ∧ (len txt < 10 → res = (pending, [ReplyChoose])))
  ∧ (PendingCreation.player_id res.1, PendingCreation.player_name res.1,
     PendingCreation.player_umo res.1, PendingCreation.room_name res.1,
     PendingCreation.timeout res.1)
    = (PendingCreation.player_id pending, PendingCreation.player_name pending,
       PendingCreation.player_umo pending, PendingCreation.room_name pending,
       PendingCreation.timeout pending)
  ∧ (PendingCreation.step res.1 = CreationStep.CONFIRM
     ∨ PendingCreation.step res.1 = CreationStep.WORLD_TOO_LONG).
Proof.
  intros Hstep choice original max_length res confirmed failed.
  assert (PendingCreation.set_step CreationStep.WORLD_TOO_LONG pending = pending)
    as Hsame.
  { destruct pending. simpl in Hstep. by subst. }
  destruct (choice_lists_disjoint choice) as [Htrunc Hkeep].
  pose proof (summarize_failures cfg original provider llm)
    as (Hraise & Hnone & Hllm & Hshort & Hok).
  subst res. unfold _handle_world_too_long_choice.
  fold choice original max_length.
  destruct (text_in choice [kw_summarize_zh; lit "1"; lit "ai"; lit "summary"])
    eqn:Esum.
  { split_and!; try done.
    - intros _. split_and!.
      + intros id resp s Hp Hid Hl Hs Hlen.
        by rewrite (Hok id resp s Hp Hid Hl Hs Hlen).
      + intros Hp. by rewrite (Hraise Hp), Hsame.
      + intros id Hp Hid. by rewrite (Hnone id Hp Hid), Hsame.
      + intros id Hp Hid Hl. by rewrite (Hllm id Hp Hid Hl), Hsame.
      + intros id resp Hp Hid Hl Hs.
        by rewrite (Hshort id resp Hp Hid Hl Hs), Hsame.
    - intros Ht. specialize (Htrunc Ht). congruence.
    - intros Hk. destruct (Hkeep Hk) as [Hs _]. congruence.
    - by destruct (_summarize_world_setting cfg original provider llm)
        as [[[|] ?] ?].
    - destruct (_summarize_world_setting cfg original provider llm)
        as [[[|] ?] ?]; simpl; [by left|by right]. }
  destruct (text_in choice [kw_truncate_zh; lit "2"; lit "cut"; lit "truncate"])
    eqn:Etr.
  { split_and!; try done.
    - intros Hk. destruct (Hkeep Hk) as [_ Ht]. congruence.
    - by left. }
  destruct (text_in choice [kw_keep_zh; lit "3"; lit "keep"; lit "full"])
    eqn:Ek.
  { split_and!; try done. by left. }
  split_and!; try done.
  - intros _ _ _. split_and!.
    + intros H10 Hmax. by rewrite !bool_decide_eq_true_2 by lia.
    + intros H10 Hmax. rewrite bool_decide_eq_true_2 by lia.
      by rewrite bool_decide_eq_false_2 by lia.
    + intros H10. by rewrite bool_decide_eq_false_2 by lia.
  - by repeat case_bool_decide.
  - repeat case_bool_decide; simpl; first [by left|right; by rewrite ?Hstep].
Qed.

Lemma too_long_choice_outcomes_witness :
  let stashed := (_handle_world_setting wizard_cfg wizard_at_world long_world).1 in
  let kept :=
    (_handle_world_too_long_choice wizard_cfg stashed (lit " KEEP ")
       ProviderRaise LlmRaise).1 in
  let again :=
    (_handle_world_too_long_choice wizard_cfg stashed (repeat 120%N 4500)
       ProviderRaise LlmRaise).1 in
  let summarized :=
    _handle_world_too_long_choice wizard_cfg stashed (lit "AI")
      ProviderRaise LlmRaise in
  PendingCreation.step stashed = CreationStep.WORLD_TOO_LONG
  ∧ PendingCreation.world_setting kept = Some long_world
  ∧ PendingCreation.step kept = CreationStep.CONFIRM
  ∧ PendingCreation.original_world_setting again = Some (repeat 120%N 4500)
  ∧ PendingCreation.world_setting again = None
  ∧ summarized
    = (stashed, [ReplySummarizing 5000; ReplySummaryFailed ErrRaised]).
Proof.
  intros stashed kept again summarized.
  assert (PendingCreation.step stashed = CreationStep.WORLD_TOO_LONG) as Hstep
    by (by vm_compute).
  split; [exact Hstep|].
  destruct (too_long_choice_outcomes wizard_cfg stashed (lit " KEEP ")
              ProviderRaise LlmRaise Hstep) as (_ & _ & Hkeep & _).
  destruct (too_long_choice_outcomes wizard_cfg stashed (repeat 120%N 4500)
              ProviderRaise LlmRaise Hstep) as (_ & _ & _ & Hnew & _).
  destruct (too_long_choice_outcomes wizard_cfg stashed (lit "AI")
              ProviderRaise LlmRaise Hstep) as (Hsum & _).
  subst kept again summarized.
  rewrite Hkeep by (by vm_compute).
  destruct Hnew as (_ & Hlong & _); [by vm_compute..|].
  rewrite Hlong by (by vm_compute).
  destruct Hsum as (_ & Hraise & _); [by vm_compute|].
  rewrite Hraise by done.
  split_and!; by vm_compute.
Defined.

(** ** Splitting long messages *)

Section split_facts.
Implicit Types (s para current : text) (chunks : list text).

Lemma split_lines_cons s : ∃ l ls, split_lines s = l :: ls.
Proof.
  induction s as [|c s (l & ls & IH)]; simpl; [eauto|].
  destruct (c =? 10)%N; [eauto|]. rewrite IH. eauto.
Qed.

Lemma split_lines_visible s :
  filter visible (concat (split_lines s)) = filter visible s.
Proof.
  induction s as [|c s IH]; simpl; [done|].
  destruct (N.eqb_spec c 10) as [->|Hc].
  - simpl. rewrite filter_cons, decide_False; [done|]. unfold visible. tauto.
  - destruct (split_lines_cons s) as (l & ls & Hs). rewrite Hs in *. simpl in *.
    rewrite !filter_cons, !decide_True by done. by rewrite IH.
Qed.

Lemma split_lines_all_empty s :
  Forall (λ l, l = []) (split_lines s) → Forall (λ c, c = 10%N) s.
Proof.
  induction s as [|c s IH]; simpl; [constructor|].
  destruct (N.eqb_spec c 10) as [->|Hc].
  - intros [_ H]%Forall_cons. constructor; [done|auto].
  - destruct (split_lines_cons s) as (l & ls & Hs). rewrite Hs.
    intros [H _]%Forall_cons. done.
Qed.

Lemma all_newlines_lines s :
  Forall (λ c, c = 10%N) s → Forall (λ l, l = []) (split_lines s).
Proof.
  induction 1 as [|c s -> _ IH]; simpl; [by constructor|]. by constructor.
Qed.

Lemma slices_spec fuel n para :
  (1 ≤ n)%nat → (length para ≤ fuel)%nat →
  concat (slices fuel n para) = para
  ∧ Forall (λ c, c ≠ [] ∧ (length c ≤ n)%nat) (slices fuel n para).
Proof.
  intros Hn. revert para. induction fuel as [|fuel IH]; intros para Hlen.
  - destruct para; [|simpl in Hlen; lia]. by split; [|constructor].
  - destruct para as [|c para]; [by split; [|constructor]|].
    cbn [slices].
    destruct (IH (drop n (c :: para))) as [Hcat Hall].
    { rewrite length_drop. simpl in *. lia. }
    split.
    + cbn [concat]. rewrite Hcat. apply take_drop.
    + constructor; [|done]. split.
      * destruct n; [lia|]. done.
      * rewrite length_take. lia.
Qed.

Lemma flush_inv chunk_size chunks current :
  Forall (λ c, c ≠ [] ∧ len c ≤ chunk_size) chunks →
  len current ≤ chunk_size →
  Forall (λ c, c ≠ [] ∧ len c ≤ chunk_size) (flush chunks current)
  ∧ concat (flush chunks current) = concat chunks ++ current.
Proof.
  intros Hall Hlen. destruct current as [|c current]; simpl.
  - by rewrite app_nil_r.
  - split.
    + apply Forall_app. split; [done|]. by repeat constructor.
    + rewrite concat_app. simpl. by rewrite app_nil_r.
Qed.

Lemma split_step_inv chunk_size seen st para :
  1 ≤ chunk_size → split_inv chunk_size seen st →
  ∃ st', _split_text_step chunk_size st para = Some st'
         ∧ split_inv chunk_size (seen ++ [para]) st'.
Proof.
  intros Hcs (Hall & Hcur & Hvis). destruct st as [chunks current].
  simpl in *. unfold _split_text_step.
  assert (filter visible (concat (seen ++ [para]))
          = filter visible (concat chunks ++ current) ++ filter visible para)
    as Hseen.
  { rewrite concat_app, filter_app, Hvis. simpl. by rewrite app_nil_r. }
  case_bool_decide as Hfit.
  - eexists. split; [done|]. split_and!; simpl.
    + done.
    + unfold len in *. rewrite !length_app. destruct current; simpl in *; lia.
    + rewrite Hseen, !filter_app, !app_assoc. f_equal.
      assert (filter visible (match current with [] => [] | _ => [10%N] end)
              = []) as ->; [|by rewrite app_nil_r].
      destruct current; [done|].
      rewrite filter_cons, decide_False; [done|]. unfold visible. tauto.
  - destruct (flush_inv chunk_size chunks current Hall Hcur) as [Hfl Hcat].
    case_bool_decide as Hbig.
    + rewrite !bool_decide_eq_false_2 by lia.
      destruct (slices_spec (length para) (Z.to_nat chunk_size) para)
        as [Hsl Hsall]; [lia|done|].
      eexists. split; [done|]. split_and!; simpl.
      * apply Forall_app. split; [done|].
        eapply Forall_impl; [exact Hsall|]. intros c [? ?]. split; [done|].
        unfold len. lia.
      * unfold len. simpl. lia.
      * rewrite app_nil_r, concat_app, Hsl, Hcat, Hseen.
        by rewrite !filter_app.
    + eexists. split; [done|]. split_and!; simpl.
      * done.
      * lia.
      * rewrite Hcat, Hseen. by rewrite !filter_app.
Qed.

Lemma split_loop_inv chunk_size seen st paras :
  1 ≤ chunk_size → split_inv chunk_size seen st →
  ∃ st', foldl (λ st para, st ≫= λ st, _split_text_step chunk_size st para)
           (Some st) paras = Some st'
         ∧ split_inv chunk_size (seen ++ paras) st'.
Proof.
  intros Hcs. revert seen st. induction paras as [|para paras IH];
    intros seen st Hinv; simpl.
  - exists st. by rewrite app_nil_r.
  - destruct (split_step_inv chunk_size seen st para Hcs Hinv)
      as (st1 & -> & Hinv1).
    destruct (IH _ _ Hinv1) as (st' & Hst' & Hinv').
    exists st'. split; [done|]. by rewrite <- app_assoc in Hinv'.
Qed.

Lemma split_loop_degenerate chunk_size paras :
  chunk_size ≤ 0 →
  foldl (λ st para, st ≫= λ st, _split_text_step chunk_size st para)
    (Some ([], [])) paras
  = if bool_decide (chunk_size = 0 ∧ ¬ Forall (λ l, l = []) paras)
    then None else Some ([], []).
Proof.
  intros Hcs.
  set (f := λ (st : option (list text * text)) (para : text),
              st ≫= λ st, _split_text_step chunk_size st para).
  assert (∀ paras, foldl f None paras = None) as Hnone.
  { induction paras0 as [|? ? IH]; simpl; done. }
  induction paras as [|para paras IH]; cbn [foldl].
  - rewrite bool_decide_eq_false_2; [done|]. intros [_ H]. apply H. constructor.
  - change (f (Some ([], [])) para)
      with (_split_text_step chunk_size ([], []) para).
    unfold _split_text_step.
    rewrite bool_decide_eq_false_2 by (unfold len; simpl; lia). cbn [flush].
    destruct (decide (len para > chunk_size)) as [Hbig|Hbig];
      [rewrite (bool_decide_eq_true_2 _ Hbig)
      |rewrite (bool_decide_eq_false_2 _ Hbig)]; cbv iota.
    + destruct (decide (chunk_size = 0)) as [Hz|Hz].
      * rewrite (bool_decide_eq_true_2 _ Hz). cbv iota. rewrite Hnone.
        rewrite bool_decide_eq_true_2; [done|]. split; [done|].
        intros [Hp _]%Forall_cons. subst. unfold len in Hbig. simpl in Hbig. lia.
      * rewrite (bool_decide_eq_false_2 _ Hz).
        rewrite (bool_decide_eq_true_2 (chunk_size < 0)) by lia. cbv iota.
        rewrite IH. rewrite !bool_decide_eq_false_2 by (intros [? ?]; lia).
        done.
    + assert (para = []) as ->.
      { destruct para; [done|]. unfold len in Hbig. simpl in Hbig. lia. }
      rewrite IH.
      destruct (decide (chunk_size = 0 ∧ ¬ Forall (λ l : text, l = []) paras))
        as [[H0 H]|H].
      * rewrite !bool_decide_eq_true_2; [done| |done].
        split; [done|]. intros [_ ?]%Forall_cons. done.
      * rewrite !bool_decide_eq_false_2; [done| |done].
        intros [? H']. apply H. split; [done|]. intros ?. apply H'.
        by constructor.
Qed.

(** Under a chunk size of at least 1 the loops of [_split_text] end. *)
Lemma split_text_total (chunk_size : Z) s :
  1 ≤ chunk_size → is_Some (_split_text chunk_size s).
Proof.
  intros Hcs. unfold _split_text.
  destruct (split_loop_inv chunk_size [] ([], []) (split_lines s) Hcs)
    as ([chunks current] & -> & _); [|by eexists].
  split_and!; simpl; [constructor|unfold len; simpl; lia|done].
Qed.
End split_facts.

(** X18. [_split_text] under a chunk size of at least 1 always returns at
    least one chunk, and the chunks together hold the characters of the text
    other than line feeds, in order and with nothing lost or added.  No
    chunk is empty or longer than the chunk size, with one exception: a
    text made of line feeds only (the empty text included) comes back whole
    as the single chunk, whatever its length. *)
Theorem split_text_chunks (chunk_size : Z) (txt : text) :
  1 ≤ chunk_size →
  ∃ chunks,
    _split_text chunk_size txt = Some chunks
    ∧ chunks ≠ []
    ∧ filter visible (concat chunks) = filter visible txt
    ∧ (Forall (λ c, c ≠ [] ∧ len c ≤ chunk_size) chunks
       ∨ (chunks = [txt] ∧ Forall (λ c, c = 10%N) txt)).
Proof.
  intros Hcs. unfold _split_text.
  destruct (split_loop_inv chunk_size [] ([], []) (split_lines txt) Hcs)
    as ([chunks current] & -> & Hall & Hcur & Hvis).
  { split_and!; simpl; [constructor|unfold len; simpl; lia|done]. }
  simpl in *. rewrite split_lines_visible in Hvis.
  destruct (flush_inv chunk_size chunks current Hall Hcur) as [Hfl Hcat].
  eexists. split; [done|].
  destruct (flush chunks current) as [|c0 rest] eqn:Eflush.
  - simpl in Hcat. symmetry in Hcat. apply app_eq_nil in Hcat as [Hc ->].
    rewrite Hc in Hvis. simpl in Hvis.
    split_and!; [done|simpl; by rewrite app_nil_r|]. right. split; [done|].
    apply Forall_forall. intros c Hin.
    destruct (decide (c = 10%N)) as [|Hne]; [done|].
    assert (c ∈ filter visible txt) as Hf by (by apply list_elem_of_filter).
    rewrite <- Hvis in Hf. by apply elem_of_nil in Hf.
  - split_and!; [done| |by left]. by rewrite Hcat.
Qed.

Lemma split_text_chunks_witness :
  ∃ chunks,
    _split_text 4 (lit "ab" ++ [10%N] ++ lit "cdefghij") = Some chunks
    ∧ chunks ≠ []
    ∧ filter visible (concat chunks)
      = filter visible (lit "ab" ++ [10%N] ++ lit "cdefghij")
    ∧ (Forall (λ c, c ≠ [] ∧ len c ≤ 4) chunks
       ∨ (chunks = [lit "ab" ++ [10%N] ++ lit "cdefghij"]
          ∧ Forall (λ c, c = 10%N) (lit "ab" ++ [10%N] ++ lit "cdefghij"))).
Proof.
  apply (split_text_chunks 4 (lit "ab" ++ [10%N] ++ lit "cdefghij")). lia.
Defined.

(** X19. [_split_text] under a chunk size below 1 never splits. A negative
    chunk size returns the text whole as the single chunk.  A chunk size of
    0 does so only for a text made of line feeds; on any text with another
    character the call fails ([range] is given a step of zero). *)
Theorem split_text_degenerate (chunk_size : Z) (txt : text) :
  chunk_size ≤ 0 →
  _split_text chunk_size txt
  = if bool_decide (chunk_size = 0 ∧ ¬ Forall (λ c, c = 10%N) txt)
    then None else Some [txt].
Proof.
  intros Hcs. unfold _split_text. rewrite split_loop_degenerate by done.
  destruct (decide (chunk_size = 0 ∧ ¬ Forall (λ c, c = 10%N) txt))
    as [[H0 H]|H].
  - rewrite !bool_decide_eq_true_2; [done|done|]. split; [done|].
    intros Hl. apply H. by apply split_lines_all_empty.
  - rewrite !bool_decide_eq_false_2; [done|done|].
    intros [H0 Hl]. apply H. split; [done|]. intros Hn. apply Hl.
    by apply all_newlines_lines.
Qed.

Lemma split_text_degenerate_witness :
  _split_text 0 (lit "hello") = None
  ∧ _split_text 0 [10%N; 10%N] = Some [[10%N; 10%N]]
  ∧ _split_text (-1) (lit "hello") = Some [lit "hello"].
Proof.
  split_and!.
  - rewrite (split_text_degenerate 0) by lia. by vm_compute.
  - rewrite (split_text_degenerate 0) by lia. by vm_compute.
  - rewrite (split_text_degenerate (-1)) by lia. by vm_compute.
Defined.

(** ** The engine: timers, actions and the bookkeeping of the loop *)

Section timer_end_facts.
Import Plugin.
Variable cfg : Config.t.

Lemma suspend_done_idle tid w :
  tid ∉ cancel_requested w →
  suspend tid None w = set_tasks (delete tid (tasks w)) w.
Proof.
  intros Hc. unfold suspend.
  change (cancel_requested w)
    with (cancel_requested (set_tasks (delete tid (tasks w)) w)).
  by apply set_cancel_requested_same.
Qed.

Lemma deliver_resumed tid pc w :
  tasks w !! tid = Some pc → tid ∉ cancel_requested w → joined pc = None →
  step cfg (Deliver tid Resumed) w
  = '(w1, next) ← resume pc Resumed w; Some (suspend tid next w1).
Proof.
  intros Ht Hc Hj. cbn [step]. rewrite Ht. simpl.
  unfold can_resume. rewrite Hj, bool_decide_eq_true_2 by done. simpl.
  by rewrite set_cancel_requested_same.
Qed.

Lemma request_cancel_only_cancel fuel h w :
  ∃ c, request_cancel fuel h w = set_cancel_requested c w
       ∧ cancel_requested w ⊆ c.
Proof.
  revert h. induction fuel as [|fuel IH]; intros h; simpl.
  - destruct (tasks w !! h) as [pc|].
    + destruct (joined pc); eexists; split; try done; set_solver.
    + exists (cancel_requested w). split; [by destruct w|done].
  - destruct (tasks w !! h) as [pc|].
    + destruct (joined pc) as [h'|].
      * case_bool_decide; [apply IH|]. eexists; split; try done; set_solver.
      * eexists; split; try done; set_solver.
    + exists (cancel_requested w). split; [by destruct w|done].
Qed.
End timer_end_facts.

(** X20. A timer that outlives its purpose is silent. When the sleep of
    a round timer ends and its room is gone, paused or not ACTIVE, or the
    sleep of a character timer ends and its room is gone or no longer in
    CHARACTER_CREATION, the timer task just ends: nothing is sent, no room is
    touched, no timer is started; even its handle stays in [timeout_tasks]. *)
Theorem stale_timer_is_silent (cfg : Config.t) (w : Plugin.t) (tid : nat)
    (pc : Pc) :
  Plugin.tasks w !! tid = Some pc →
  tid ∉ Plugin.cancel_requested w →
  timer_stale pc w →
  step cfg (Deliver tid Resumed) w
  = Some (Plugin.set_tasks (delete tid (Plugin.tasks w)) w).
Proof.
  intros Ht Hc Hstale.
  destruct pc; try done; simpl in Hstale.
  - rewrite (deliver_resumed cfg tid (RoundSleep room_id)) by done.
    cbn [resume]. unfold round_check_fire, RoomManager.get_room.
    destruct (RoomManager.rooms (Plugin.room_manager w) !! room_id) as [r|] eqn:Er.
    + destruct (Hstale r eq_refl) as [->|Hs].
      * cbn -[suspend]. by rewrite suspend_done_idle.
      * rewrite (bool_decide_eq_false_2 _ Hs). rewrite orb_true_r.
        cbn -[suspend]. by rewrite suspend_done_idle.
    + cbn -[suspend]. by rewrite suspend_done_idle.
  - destruct Hstale as (room & Hroom & Hstale).
    rewrite (deliver_resumed cfg tid (CharSleep k)) by done.
    cbn [resume]. unfold char_check_fire. rewrite Hroom. cbn [mbind option_bind].
    unfold RoomManager.get_room.
    destruct (RoomManager.rooms (Plugin.room_manager w) !! Room.room_id room)
      as [r|] eqn:Er.
    + rewrite (bool_decide_eq_false_2 _ (Hstale r eq_refl)).
      cbn -[suspend]. by rewrite suspend_done_idle.
    + cbn -[suspend]. by rewrite suspend_done_idle.
Qed.

Lemma stale_timer_is_silent_witness :
  step demo_cfg (Deliver 4 Resumed) orphan_timer
  = Some (Plugin.mk (RoomManager.new 10) {["r1" := 4%nat]} ∅ ∅ 5%nat ∅ []).
Proof.
  rewrite (stale_timer_is_silent demo_cfg orphan_timer 4 (RoundSleep "r1")).
  - unfold orphan_timer, Plugin.set_tasks. simpl. by rewrite delete_singleton_eq.
  - done.
  - simpl. set_solver.
  - intros r Hr. simpl in Hr. by rewrite lookup_empty in Hr.
Defined.

(** X21. [_stop_timeout] forgets the handle and, if the task is still
    running, cancels it; it touches nothing else, and a second call does
    nothing.  A timer stopped while it sleeps can no longer fire: the only
    thing the event loop can deliver to it is the cancellation, which ends
    it without a trace. *)
Theorem stop_timeout_forgets_timer (cfg : Config.t) (w : Plugin.t)
    (task_id : string) :
  let res := Plugin._stop_timeout task_id w in
  Plugin.timeout_tasks res.1 = delete task_id (Plugin.timeout_tasks w)
  ∧ (Plugin.room_manager res.1, Plugin.tasks res.1, Plugin.next_task res.1,
     Plugin.detached res.1, Plugin.outbox res.1)
    = (Plugin.room_manager w, Plugin.tasks w, Plugin.next_task w,
       Plugin.detached w, Plugin.outbox w)
  ∧ Plugin.cancel_requested w ⊆ Plugin.cancel_requested res.1
  ∧ Plugin._stop_timeout task_id res.1 = (res.1, None)
  ∧ (res.2 = None → Plugin.cancel_requested res.1 = Plugin.cancel_requested w)
  ∧ (∀ h, res.2 = Some h ↔
          Plugin.timeout_tasks w !! task_id = Some h
          ∧ is_Some (Plugin.tasks w !! h))
  ∧ (∀ h pc, res.2 = Some h → Plugin.tasks w !! h = Some pc →
       Plugin.joined pc = None →
       step cfg (Deliver h Resumed) res.1 = None
       ∧ step cfg (Deliver h Cancelled) res.1
         = Some (Plugin.set_cancel_requested (Plugin.cancel_requested w ∖ {[h]})
                   (Plugin.set_tasks (delete h (Plugin.tasks w))
                      (Plugin.set_timeout_tasks
                         (delete task_id (Plugin.timeout_tasks w)) w)))).
Proof.
  intros res. subst res. unfold Plugin._stop_timeout.
  destruct (Plugin.timeout_tasks w !! task_id) as [h|] eqn:Eh.
  - destruct (Plugin.tasks w !! h) as [pc|] eqn:Epc.
    + rewrite bool_decide_eq_true_2 by eauto. cbn [fst snd].
      destruct (request_cancel_only_cancel (size (Plugin.tasks w)) h
                  (Plugin.set_timeout_tasks
                     (delete task_id (Plugin.timeout_tasks w)) w))
        as (c & Hreq & Hsub).
      split_and!.
      * by rewrite Hreq.
      * by rewrite Hreq.
      * by rewrite Hreq.
      * rewrite Hreq. simpl. by rewrite lookup_delete_eq.
      * done.
      * intros h'. split; [intros [= <-]; eauto|]. intros [[= <-] _]. done.
      * intros h' pc' [= <-] Hpc' Hj. simplify_eq.
        rewrite (request_cancel_idle _ h pc) by done.
        split.
        -- cbn [step]. cbn [Plugin.tasks Plugin.set_cancel_requested
                            Plugin.set_timeout_tasks].
           rewrite Epc. cbn [mbind option_bind]. unfold can_resume.
           rewrite bool_decide_eq_false_2; [done|]. simpl. set_solver.
        -- cbn [step]. cbn [Plugin.tasks Plugin.set_cancel_requested
                            Plugin.set_timeout_tasks].
           rewrite Epc. cbn [mbind option_bind]. unfold can_resume.
           rewrite bool_decide_eq_true_2 by (simpl; set_solver).
           rewrite resume_cancelled by done. cbn [mbind option_bind].
           f_equal. clear. destruct w as [m tt ts c0 n d o].
           unfold suspend, Plugin.set_cancel_requested, Plugin.set_tasks,
             Plugin.set_timeout_tasks. simpl. f_equal. set_solver.
    + rewrite bool_decide_eq_false_2 by (by intros [? ?]). cbn [fst snd].
      split_and!; try done.
      * simpl. by rewrite lookup_delete_eq.
      * intros h'. split; [done|]. intros [[= <-] [? ?]]. congruence.
  - cbn [fst snd]. split_and!; try done.
    + by rewrite delete_id.
    + by rewrite Eh.
    + intros h. split; [done|]. intros [? _]. done.
Qed.



Section action_facts.
Import Plugin.

Lemma round_actions_nonempty r p a :
  p ∈ Dict.values (Room.active_players r) →
  Player.current_action p = Some a → a ≠ "" →
  Dict.get (Player.display_name p) (Room.get_round_actions r) ≠ None
  ∧ Room.get_round_actions r ≠ [].
Proof.
  intros Hp Ha Hne.
  assert (Dict.get (Player.display_name p) (Room.get_round_actions r) ≠ None)
    as Hget.
  { unfold Room.get_round_actions. rewrite record_action_get. simpl.
    destruct (last _) as [x|] eqn:El; [done|].
    apply last_None in El.
    assert (a ∈ omap (action_as (Player.display_name p))
                  (Dict.values (Room.active_players r))) as Hin.
    { apply list_elem_of_omap. exists p. split; [done|]. unfold action_as.
      rewrite Ha, bool_decide_eq_false_2, bool_decide_eq_true_2 by done. done. }
    rewrite El in Hin. by apply elem_of_nil in Hin. }
  split; [done|]. intros Hnil. by rewrite Hnil in Hget.
Qed.

Lemma elem_of_values_set {V} k (v : V) (d : Dict.t V) :
  v ∈ Dict.values (Dict.set k v d).
Proof.
  apply DictFacts.values_pairs. exists k. apply DictFacts.get_elem_of.
  apply DictFacts.get_set_eq.
Qed.
End action_facts.

(** X23. An accepted action reaches the narrator when its handler is not
    held up. Let a player of an ACTIVE room that is not paused, who has not
    acted in this round, send [/tw act] with a non-empty text, and let the
    handler go on right after its reply, before any other task runs. Then the
    action is recorded, the table of the round's actions holds an entry under
    the player's display name, the reply is the only message sent, and the
    handler either finds somebody still to act and ends, or is waiting for
    the backend's provider with that table, which is not empty: it does not
    answer that the round has no valid action. Timers and pending
    cancellations are as before. (A handler that is held up can find the
    round over and the table empty: see [held_up_handler_finds_no_action].) *)
Theorem accepted_action_reaches_backend (cfg : Config.t) (w : Plugin.t)
    (player_id action k : string) (room : Room.t) (player : Player.t) :
  loop_wf w →
  action ≠ "" →
  RoomManager.player_room_map (Plugin.room_manager w) !! player_id = Some k →
  k ≠ "" →
  RoomManager.rooms (Plugin.room_manager w) !! k = Some room →
  Room.paused room = false →
  Room.status room = RoomStatus.ACTIVE →
  Dict.get player_id (Room.active_players room) = Some player →
  Player.status player ≠ PlayerStatus.ACTED →
  let player' :=
    Player.set_status PlayerStatus.ACTED
      (Player.set_current_action (Some action) player) in
  let room' :=
    Room.set_active_players
      (Dict.set player_id player' (Room.active_players room)) room in
  let actions := Room.get_round_actions room' in
  ∃ w2,
    run cfg [CmdAct player_id action; Deliver (Plugin.next_task w) Resumed] w
    = Some w2
    ∧ Plugin.room_manager w2
      = RoomManager.mk
          (<[k := room']> (RoomManager.rooms (Plugin.room_manager w)))
          (RoomManager.player_room_map (Plugin.room_manager w))
          (RoomManager.max_rooms (Plugin.room_manager w))
    ∧ Dict.get player_id (Room.active_players room') = Some player'
    ∧ Dict.get (Player.display_name player') actions ≠ None
    ∧ actions ≠ []
    ∧ Plugin.outbox w2
      = Plugin.outbox w
        ++ [OutReply (ReplyActRecorded (Player.display_name player'))]
    ∧ Plugin.tasks w2
      = (if Room.check_all_players_acted room'
         then <[Plugin.next_task w := ProcProvider k actions]> (Plugin.tasks w)
         else Plugin.tasks w)
    ∧ Plugin.timeout_tasks w2 = Plugin.timeout_tasks w
    ∧ Plugin.cancel_requested w2 = Plugin.cancel_requested w
    ∧ Plugin.detached w2 = Plugin.detached w
    ∧ Plugin.next_task w2 = S (Plugin.next_task w).
Proof.
  intros Hwf Hact Hidx Hk Hroom Hp Hs Hpl Hst player' room' actions.
  assert (RoomManager.get_room_by_player player_id (Plugin.room_manager w)
          = Some room) as Hget.
  { unfold RoomManager.get_room_by_player.
    by rewrite Hidx, bool_decide_eq_false_2. }
  pose proof (fresh_not_cancelled w Hwf) as Hfresh.
  assert (Plugin.tasks w !! Plugin.next_task w = None) as Hfree.
  { by apply (wf_fresh w Hwf). }
  destruct (round_actions_nonempty room' player' action) as [Hname Hne];
    [apply elem_of_values_set|done|done|].
  cbn [run step]. unfold spawn, cmd_act.
  cbn [Plugin.room_manager Plugin.set_next_task].
  rewrite (bool_decide_eq_false_2 _ Hact), Hget, Hidx, Hp.
  cbn [default from_option id].
  rewrite (bool_decide_eq_true_2 _ Hs). cbn [negb]. rewrite Hpl.
  rewrite (bool_decide_eq_false_2 _ Hst).
  fold player'. fold room'.
  rewrite (store_registered k room) by done.
  cbn [mbind option_bind suspend].
  match goal with
  | |- context [Plugin.tasks ?x !! _ ≫= _] => set (w1 := x)
  end.
  assert (Plugin.tasks w1 !! Plugin.next_task w = Some (ActReply k)) as Ht1.
  { subst w1. simpl. apply lookup_insert_eq. }
  assert (Plugin.deref k w1 = Some room') as Hd1.
  { subst w1. unfold Plugin.deref. simpl. by rewrite lookup_insert_eq. }
  rewrite Ht1. cbn [mbind option_bind]. unfold can_resume. cbn [Plugin.joined].
  rewrite bool_decide_eq_true_2 by done. cbn [andb].
  rewrite set_cancel_requested_same by done.
  cbn [resume]. unfold cmd_act_check. rewrite Hd1. cbn [mbind option_bind].
  destruct (Room.check_all_players_acted room') eqn:Hall.
  - unfold _process_round. rewrite Hd1. cbn [mbind option_bind].
    fold actions. rewrite (bool_decide_eq_false_2 _ Hne).
    cbn [mbind option_bind].
    eexists. split; [reflexivity|]. subst w1. simpl.
    split_and!; try done.
    + apply DictFacts.get_set_eq.
    + by rewrite insert_insert_eq.
  - cbn [mbind option_bind].
    eexists. split; [reflexivity|]. subst w1. simpl.
    split_and!; try done.
    + apply DictFacts.get_set_eq.
    + rewrite delete_insert_eq. by rewrite delete_id.
    + set_solver.
Qed.

Lemma accepted_action_reaches_backend_witness :
  ∃ w w2,
    run demo_cfg alice_acted (Plugin.new 10) = Some w
    ∧ run demo_cfg [CmdAct "bob" "run"; Deliver 6 Resumed] w = Some w2
    ∧ Plugin.tasks w2
      = <[6%nat := ProcProvider "r1" [("Alice", "look"); ("Bob", "run")]]>
          (Plugin.tasks w)
    ∧ Plugin.outbox w2 = Plugin.outbox w ++ [OutReply (ReplyActRecorded "Bob")].
Proof.
  assert (∃ w room player,
            run demo_cfg alice_acted (Plugin.new 10) = Some w
            ∧ Plugin.tasks w = {[ 4%nat := RoundSleep "r1" ]}
            ∧ Plugin.next_task w = 6%nat
            ∧ Plugin.cancel_requested w = ∅
            ∧ RoomManager.player_room_map (Plugin.room_manager w) !! "bob"
              = Some "r1"
            ∧ RoomManager.rooms (Plugin.room_manager w) !! "r1" = Some room
            ∧ Dict.get "bob" (Room.active_players room) = Some player
            ∧ Room.paused room = false
            ∧ Room.status room = RoomStatus.ACTIVE
            ∧ Player.status player ≠ PlayerStatus.ACTED
            ∧ Player.display_name player = "Bob"
            ∧ (let room' :=
                 Room.set_active_players
                   (Dict.set "bob"
                      (Player.set_status PlayerStatus.ACTED
                         (Player.set_current_action (Some "run") player))
                      (Room.active_players room)) room in
               Room.check_all_players_acted room' = true
               ∧ Room.get_round_actions room'
                 = [("Alice", "look"); ("Bob", "run")]))
    as (w & room & player & Hw & Htasks & Hnext & Hcancel & Hidx & Hroom & Hpl
        & Hp & Hs & Hst & Hname & Hall & Hacts).
  { eexists _, _, _. split; [vm_compute; reflexivity|].
    do 3 (split; [by vm_compute|]). split; [vm_compute; reflexivity|].
    split; [vm_compute; reflexivity|]. split; [vm_compute; reflexivity|].
    by vm_compute. }
  enough (∃ w2,
            run demo_cfg [CmdAct "bob" "run"; Deliver 6 Resumed] w = Some w2
            ∧ Plugin.tasks w2
              = <[6%nat := ProcProvider "r1" [("Alice", "look"); ("Bob", "run")]]>
                  (Plugin.tasks w)
            ∧ Plugin.outbox w2
              = Plugin.outbox w ++ [OutReply (ReplyActRecorded "Bob")])
    as (w2 & Hrest).
  { exists w, w2. split; [exact Hw | exact Hrest]. }
  clear Hw.
  destruct (accepted_action_reaches_backend demo_cfg w "bob" "run" "r1" room
              player)
    as (w2 & Hrun & _ & _ & _ & _ & Hout & Htasks2 & _); try done.
  - split.
    + intros t Ht. rewrite Htasks. apply lookup_singleton_ne. lia.
    + intros t Ht. rewrite Hcancel in Ht. set_solver.
  - rewrite Hnext in *. rewrite Hall, Hacts in Htasks2.
    exists w2. split_and!; [exact Hrun|exact Htasks2|].
    rewrite Hout, <- Hname. by destruct player.
Defined.

(** A handler of [/tw act] that is held up does report a round without
    action: by the time bob's handler goes on, round 1 has been resolved by
    the timer and everybody has timed out in round 2, so it finds everybody
    done and the table of actions empty. *)
Lemma held_up_handler_finds_no_action :
  ∃ w room,
    run demo_cfg held_up (Plugin.new 10) = Some w
    ∧ room_r1 w = Some room
    ∧ Room.current_round room = 2
    ∧ Room.get_round_actions room = []
    ∧ last (Plugin.outbox w)
      = Some (OutBroadcast (Room.get_unique_origins room) NoticeNoActions)
    ∧ Plugin.tasks w !! 6%nat = Some ProcFinalNotice.
Proof.
  eexists _, _. split; [vm_compute; reflexivity|].
  split; [vm_compute; reflexivity|]. by vm_compute.
Qed.

Section loop_facts.
Import Plugin.
Variable cfg : Config.t.
Implicit Types (w : Plugin.t).

Lemma wf_from_refl w : loop_wf w → wf_from w w.
Proof. by split. Qed.

Lemma wf_from_emit w0 w o : wf_from w0 w → wf_from w0 (emit o w).
Proof. intros [H ?]. split; [by apply loop_wf_emit|done]. Qed.

Lemma wf_from_store w0 w k r : wf_from w0 w → wf_from w0 (store k r w).
Proof.
  intros [H ?]. split; [by apply loop_wf_store|]. by rewrite next_task_store.
Qed.

Lemma wf_from_set_room_manager w0 w m :
  wf_from w0 w → wf_from w0 (set_room_manager m w).
Proof. intros [[H1 H2] ?]. by split; [split|]. Qed.

Lemma wf_from_set_timeout_tasks w0 w tt :
  wf_from w0 w → wf_from w0 (set_timeout_tasks tt w).
Proof. intros [[H1 H2] ?]. by split; [split|]. Qed.

Lemma wf_from_close_room w0 w room_id :
  wf_from w0 w → wf_from w0 (close_room room_id w).
Proof.
  intros [[H1 H2] ?]. unfold close_room.
  destruct (RoomManager.get_room _ _); by split; [split|].
Qed.

Lemma wf_from_broadcast w0 w w1 k n :
  wf_from w0 w → broadcast k n w = Some w1 → wf_from w0 w1.
Proof.
  intros Hw. unfold broadcast. destruct (deref k w); [|done].
  intros [= <-]. by apply wf_from_emit.
Qed.

Lemma wf_from_create_task w0 w pc :
  wf_from w0 w → wf_from w0 (create_task pc w).2.
Proof.
  intros [[H1 H2] Hn]. unfold create_task. simpl. split; [split|]; simpl.
  - intros t Ht. rewrite lookup_insert_ne by lia. apply H1. lia.
  - intros t Ht. destruct (decide (next_task w = t)) as [<-|Hne].
    + rewrite lookup_insert_eq. eauto.
    + rewrite lookup_insert_ne by done. by apply H2.
  - lia.
Qed.

Lemma wf_from_request_cancel w0 w fuel h :
  wf_from w0 w → wf_from w0 (request_cancel fuel h w).
Proof.
  intros [[H1 H2] Hn]. revert h. induction fuel as [|fuel IH]; intros h; simpl.
  - destruct (tasks w !! h) as [pc|] eqn:Eh; [|by split; [split|]].
    assert (wf_from w0 (set_cancel_requested ({[h]} ∪ cancel_requested w) w)).
    { split; [split|]; simpl; [done| |done]. intros t [->%elem_of_singleton|Ht]%elem_of_union;
        [eauto|by apply H2]. }
    by destruct (joined pc).
  - destruct (tasks w !! h) as [pc|] eqn:Eh; [|by split; [split|]].
    assert (wf_from w0 (set_cancel_requested ({[h]} ∪ cancel_requested w) w)).
    { split; [split|]; simpl; [done| |done]. intros t [->%elem_of_singleton|Ht]%elem_of_union;
        [eauto|by apply H2]. }
    destruct (joined pc); [|done]. by case_bool_decide.
Qed.

Lemma wf_from_stop_timeout w0 w task_id :
  wf_from w0 w → wf_from w0 (_stop_timeout task_id w).1.
Proof.
  intros Hw. unfold _stop_timeout.
  destruct (timeout_tasks w !! task_id); [|done].
  case_bool_decide; simpl.
  - by apply wf_from_request_cancel, wf_from_set_timeout_tasks.
  - by apply wf_from_set_timeout_tasks.
Qed.

Lemma wf_from_suspend w0 w tid next :
  wf_from w0 w → (tid < next_task w)%nat → wf_from w0 (suspend tid next w).
Proof.
  intros [[H1 H2] Hn] Htid. destruct next as [pc|]; simpl.
  - split; [split|]; simpl; [| |done].
    + intros t Ht. rewrite lookup_insert_ne by lia. by apply H1.
    + intros t Ht. destruct (decide (tid = t)) as [<-|Hne].
      * rewrite lookup_insert_eq. eauto.
      * rewrite lookup_insert_ne by done. by apply H2.
  - split; [split|]; simpl; [| |done].
    + intros t Ht. destruct (decide (tid = t)) as [<-|Hne].
      * apply lookup_delete_eq.
      * rewrite lookup_delete_ne by done. by apply H1.
    + intros t [Ht Hne%not_elem_of_singleton]%elem_of_difference.
      rewrite lookup_delete_ne by done. by apply H2.
Qed.

(** Running a coroutine from one suspension to the next keeps the
    bookkeeping sound. *)
Local Abbreviation keeps f :=
  (∀ w0 w w1 next, wf_from w0 w → f w = Some (w1, next) → wf_from w0 w1).

Local Ltac keeps_tac :=
  intros w0 w w1 next Hw Hf;
  repeat match type of Hf with
         | context [deref ?k ?w] =>
             destruct (deref k w) eqn:?; cbn [mbind option_bind] in Hf
         | context [bool_decide ?P] => destruct (bool_decide P)
         | context [Room.check_all_players_timeout ?r] =>
             destruct (Room.check_all_players_timeout r)
         | context [Room.check_all_players_acted ?r] =>
             destruct (Room.check_all_players_acted r)
         | context [truthy ?o] => destruct (truthy o)
         | context [broadcast ?k ?n ?w] =>
             let E := fresh "Eb" in
             destruct (broadcast k n w) eqn:E; cbn [mbind option_bind] in Hf;
             [eapply wf_from_broadcast in E; [|try eassumption]|]
         | _ => progress cbn [negb orb andb mbind option_bind] in Hf
         end;
  try done;
  try (injection Hf as <- <-);
  eauto using wf_from_emit, wf_from_store, wf_from_set_room_manager,
    wf_from_set_timeout_tasks, wf_from_close_room, wf_from_broadcast,
    wf_from_create_task, wf_from_stop_timeout.

Lemma keeps_start_timeout_register k : keeps (_start_timeout_register k).
Proof.
  intros w0 w w1 next Hw. unfold _start_timeout_register.
  destruct (deref k w); [|done]. cbn [mbind option_bind].
  intros [= <- <-].
  by apply wf_from_set_timeout_tasks, (wf_from_create_task _ _ (RoundSleep _)).
Qed.

Lemma keeps_start_timeout k : keeps (_start_timeout k).
Proof.
  intros w0 w w1 next Hw. unfold _start_timeout.
  destruct (deref k w) as [room|]; [|done]. cbn [mbind option_bind].
  pose proof (wf_from_stop_timeout w0 w (Room.room_id room) Hw) as Hstop.
  destruct (_stop_timeout (Room.room_id room) w) as [w2 [h|]]; simpl in Hstop.
  - by intros [= <- <-].
  - by apply keeps_start_timeout_register.
Qed.

Lemma keeps_start_char_register k :
  keeps (_start_char_creation_timeout_register k).
Proof.
  intros w0 w w1 next Hw. unfold _start_char_creation_timeout_register.
  destruct (deref k w); [|done]. cbn [mbind option_bind].
  intros [= <- <-].
  by apply wf_from_emit, wf_from_set_timeout_tasks,
    (wf_from_create_task _ _ (CharSleep _)).
Qed.

Lemma keeps_start_char_timeout k : keeps (_start_char_creation_timeout k).
Proof.
  intros w0 w w1 next Hw. unfold _start_char_creation_timeout.
  destruct (deref k w) as [room|]; [|done]. cbn [mbind option_bind].
  pose proof (wf_from_stop_timeout w0 w ("char_" +:+ Room.room_id room) Hw)
    as Hstop.
  destruct (_stop_timeout ("char_" +:+ Room.room_id room) w) as [w2 [h|]];
    simpl in Hstop.
  - by intros [= <- <-].
  - by apply keeps_start_char_register.
Qed.

Lemma keeps_process_round_except k : keeps (_process_round_except k).
Proof. unfold _process_round_except. keeps_tac. Qed.

Lemma keeps_process_round k : keeps (_process_round k).
Proof. unfold _process_round. keeps_tac. Qed.

Lemma keeps_process_round_provider k actions o :
  keeps (_process_round_provider k actions o).
Proof.
  destruct o; simpl; [apply keeps_process_round_except|]. keeps_tac.
Qed.

Lemma keeps_process_round_llm k actions o :
  keeps (_process_round_llm k actions o).
Proof.
  destruct o; simpl; [apply keeps_process_round_except|].
  intros w0 w w1 next Hw. destruct (deref k w) as [room|]; [|done].
  cbn [mbind option_bind].
  match goal with
  | |- context [broadcast ?k ?n ?w] => destruct (broadcast k n w) eqn:Eb
  end; [|done].
  cbn [mbind option_bind]. intros [= <- <-].
  eapply wf_from_broadcast; [|exact Eb]. by apply wf_from_store.
Qed.

Lemma keeps_process_round_next k : keeps (_process_round_next k).
Proof.
  intros w0 w w1 next Hw. unfold _process_round_next.
  destruct (deref k w) as [room|]; [|done]. cbn [mbind option_bind].
  apply keeps_start_timeout. by apply wf_from_store.
Qed.

Lemma keeps_round_check_decide room_id : keeps (round_check_decide room_id).
Proof.
  intros w0 w w1 next Hw. unfold round_check_decide.
  destruct (deref room_id w) as [r|]; [|done]. cbn [mbind option_bind].
  destruct (Room.check_all_players_timeout r).
  - destruct (broadcast room_id NoticeAllTimeout w) eqn:Eb; [|done].
    cbn [mbind option_bind]. intros [= <- <-]. by eapply wf_from_broadcast.
  - by apply keeps_process_round.
Qed.

Lemma keeps_round_check_fire room_id : keeps (round_check_fire room_id).
Proof.
  intros w0 w w1 next Hw. unfold round_check_fire.
  destruct (RoomManager.get_room room_id (room_manager w)) as [r|];
    [|by intros [= <- <-]].
  destruct (Room.paused r || negb _); [by intros [= <- <-]|].
  case_bool_decide.
  - apply keeps_round_check_decide. by apply wf_from_store.
  - match goal with
    | |- context [broadcast ?k ?n ?w] => destruct (broadcast k n w) eqn:Eb
    end; [|done].
    cbn [mbind option_bind]. intros [= <- <-].
    eapply wf_from_broadcast; [|exact Eb]. by apply wf_from_store.
Qed.

Lemma keeps_start_game_broadcast k opening :
  keeps (_start_game_broadcast k opening).
Proof.
  intros w0 w w1 next Hw. unfold _start_game_broadcast.
  destruct (deref k w) as [room|]; [|done]. cbn [mbind option_bind].
  match goal with
  | |- context [broadcast ?k ?n ?w] => destruct (broadcast k n w) eqn:Eb
  end; [|done].
  cbn [mbind option_bind]. intros [= <- <-]. by eapply wf_from_broadcast.
Qed.

Lemma keeps_start_game_after_characters k :
  keeps (_start_game_after_characters k).
Proof.
  intros w0 w w1 next Hw. unfold _start_game_after_characters.
  destruct (deref k w) as [room|]; [|done]. cbn [mbind option_bind].
  intros [= <- <-]. by apply wf_from_store.
Qed.

Lemma keeps_generate_opening_provider k o :
  keeps (_generate_opening_provider k o).
Proof.
  destruct o as [|id]; simpl; [apply keeps_start_game_broadcast|].
  destruct (truthy id); simpl; [|apply keeps_start_game_broadcast].
  by intros w0 w w1 next Hw [= <- <-].
Qed.

Lemma keeps_generate_opening_llm k o : keeps (_generate_opening_llm k o).
Proof. destruct o; simpl; apply keeps_start_game_broadcast. Qed.

Lemma keeps_char_check_fire k : keeps (char_check_fire k).
Proof.
  intros w0 w w1 next Hw. unfold char_check_fire.
  destruct (deref k w) as [room|]; [|done]. cbn [mbind option_bind].
  destruct (RoomManager.get_room (Room.room_id room) (room_manager w)) as [r|];
    [|by intros [= <- <-]].
  destruct (negb _); [by intros [= <- <-]|].
  case_bool_decide.
  - apply keeps_start_game_after_characters. by apply wf_from_store.
  - match goal with
    | |- context [broadcast ?k ?n ?w] => destruct (broadcast k n w) eqn:Eb
    end; [|done].
    cbn [mbind option_bind]. intros [= <- <-].
    eapply wf_from_broadcast; [|exact Eb]. by apply wf_from_store.
Qed.

Lemma keeps_cmd_act_check k : keeps (cmd_act_check k).
Proof.
  intros w0 w w1 next Hw. unfold cmd_act_check.
  destruct (deref k w) as [room|]; [|done]. cbn [mbind option_bind].
  destruct (Room.check_all_players_acted room).
  - by apply keeps_process_round.
  - by intros [= <- <-].
Qed.

Lemma keeps_resume pc a : keeps (resume pc a).
Proof.
  destruct pc, a; cbn [resume];
    first
      [ apply keeps_start_timeout_register
      | apply keeps_start_timeout
      | apply keeps_start_char_register
      | apply keeps_start_char_timeout
      | apply keeps_process_round_provider
      | apply keeps_process_round_llm
      | apply keeps_process_round_next
      | apply keeps_round_check_decide
      | apply keeps_round_check_fire
      | apply keeps_start_game_after_characters
      | apply keeps_generate_opening_provider
      | apply keeps_generate_opening_llm
      | apply keeps_char_check_fire
      | apply keeps_cmd_act_check
      | intros w0 w w1 next Hw [= <- <-]; first [done | by apply wf_from_close_room]
      | intros w0 w w1 next Hw Hf; discriminate Hf ].
Qed.

Lemma keeps_say s : keeps (say s).
Proof. intros w0 w w1 next Hw [= <- <-]. by apply wf_from_emit. Qed.

Lemma keeps_cmd_quickstart fresh_id player_id player_name umo room_name :
  keeps (cmd_quickstart cfg fresh_id player_id player_name umo room_name).
Proof.
  intros w0 w w1 next Hw. unfold cmd_quickstart.
  destruct (RoomManager.get_room_by_player _ _); [by apply keeps_say|].
  destruct (RoomManager.create_room _ _ _ _ _ _ _ _ _ _) as [[room|] m'].
  - intros [= <- <-]. by apply wf_from_emit, wf_from_set_room_manager.
  - apply keeps_say. by apply wf_from_set_room_manager.
Qed.

Lemma keeps_cmd_join room_id player_id player_name umo :
  keeps (cmd_join cfg room_id player_id player_name umo).
Proof.
  intros w0 w w1 next Hw. unfold cmd_join.
  case_bool_decide; [by apply keeps_say|].
  destruct (RoomManager.join_room _ _ _ _ _ _) as [[[|] msg] m'].
  - intros [= <- <-]. apply wf_from_emit.
    destruct (RoomManager.get_room room_id m').
    + by apply wf_from_emit, wf_from_set_room_manager.
    + by apply wf_from_set_room_manager.
  - intros [= <- <-]. by apply wf_from_emit, wf_from_set_room_manager.
Qed.

Lemma keeps_cmd_begin player_id : keeps (cmd_begin player_id).
Proof.
  intros w0 w w1 next Hw. unfold cmd_begin.
  destruct (RoomManager.get_room_by_player _ _) as [room|];
    [|by apply keeps_say].
  destruct (negb (Room.is_host _ _)); [by apply keeps_say|].
  destruct (negb (bool_decide _)); [by apply keeps_say|].
  case_bool_decide; [by apply keeps_say|].
  match goal with
  | |- context [broadcast ?k ?n ?w] => destruct (broadcast k n w) eqn:Eb
  end; [|done].
  cbn [mbind option_bind]. intros [= <- <-].
  eapply wf_from_broadcast; [|exact Eb]. by apply wf_from_store.
Qed.

Lemma keeps_cmd_act player_id action : keeps (cmd_act player_id action).
Proof.
  intros w0 w w1 next Hw. unfold cmd_act.
  case_bool_decide; [by apply keeps_say|].
  destruct (RoomManager.get_room_by_player _ _) as [room|];
    [|by apply keeps_say].
  destruct (Room.paused room); [by apply keeps_say|].
  destruct (negb (bool_decide _)); [by apply keeps_say|].
  destruct (Dict.get _ _) as [player|]; [|by apply keeps_say].
  case_bool_decide; [by apply keeps_say|].
  intros [= <- <-]. by apply wf_from_emit, wf_from_store.
Qed.

Lemma loop_wf_spawn body w w' :
  keeps body → loop_wf w → spawn body w = Some w' → loop_wf w'.
Proof.
  intros Hbody [H1 H2]. unfold spawn.
  destruct (body (set_next_task (S (next_task w)) w)) as [[w1 next]|] eqn:Eb;
    [|done].
  cbn [mbind option_bind]. intros [= <-].
  assert (wf_from (set_next_task (S (next_task w)) w) w1) as Hw1.
  { eapply Hbody; [|exact Eb]. apply wf_from_refl. split; simpl.
    - intros t Ht. apply H1. lia.
    - done. }
  apply (wf_from_suspend _ _ (next_task w) next Hw1).
  destruct Hw1 as [_ Hn]. simpl in Hn. lia.
Qed.

Lemma loop_wf_step e w w' : loop_wf w → step cfg e w = Some w' → loop_wf w'.
Proof.
  intros Hw. destruct e as [? ? ? ? ?|? ? ? ?|?|? ?|tid a]; cbn [step].
  - intros Hs. eapply loop_wf_spawn; [|exact Hw|exact Hs].
    apply keeps_cmd_quickstart.
  - intros Hs. eapply loop_wf_spawn; [|exact Hw|exact Hs].
    apply keeps_cmd_join.
  - intros Hs. eapply loop_wf_spawn; [|exact Hw|exact Hs].
    apply keeps_cmd_begin.
  - intros Hs. eapply loop_wf_spawn; [|exact Hw|exact Hs].
    apply keeps_cmd_act.
  - destruct (tasks w !! tid) as [pc|] eqn:Et; [|done].
    cbn [mbind option_bind]. destruct (can_resume tid pc a w); [|done].
    destruct (resume pc a _) as [[w1 next]|] eqn:Er; [|done].
    cbn [mbind option_bind]. intros [= <-].
    assert (wf_from w w1) as Hw1.
    { eapply keeps_resume; [|exact Er]. destruct Hw as [H1 H2].
      split; [split|]; simpl; [done| |done].
      intros t [Ht _]%elem_of_difference. by apply H2. }
    apply (wf_from_suspend _ _ tid next Hw1).
    destruct Hw1 as [_ Hn], Hw as [H1 _].
    destruct (decide (tid < next_task w)%nat) as [|Hge]; [lia|].
    rewrite H1 in Et by lia. done.
Qed.
End loop_facts.

(** X24. The bookkeeping of the event loop is sound in every state the
    plugin can reach: whatever quick-start, join, begin and act commands
    arrive and however the event loop interleaves, resumes and cancels the
    tasks, a handle that has not been given out yet names no task, and a
    cancellation is pending only for tasks that are not done. *)
Theorem reachable_states_are_well_formed (cfg : Config.t) (max_rooms : Z)
    (es : list Event) (w : Plugin.t) :
  run cfg es (Plugin.new max_rooms) = Some w → loop_wf w.
Proof.
  assert (∀ es w0 w, loop_wf w0 → run cfg es w0 = Some w → loop_wf w) as Hrun.
  { clear. induction es as [|e es IH]; intros w0 w Hw0; simpl.
    - by intros [= <-].
    - destruct (step cfg e w0) as [w1|] eqn:Es; [|done]. simpl.
      apply IH. by eapply loop_wf_step. }
  apply Hrun. split; simpl.
  - intros t _. apply lookup_empty.
  - intros t Ht. set_solver.
Qed.

Lemma reachable_states_are_well_formed_witness :
  ∃ w, run demo_cfg both_acted (Plugin.new 10) = Some w ∧ loop_wf w.
Proof.
  assert (∃ w, run demo_cfg both_acted (Plugin.new 10) = Some w) as [w Hw].
  { eexists. vm_compute. reflexivity. }
  exists w. split; [exact Hw|].
  exact (reachable_states_are_well_formed demo_cfg 10 both_acted w Hw).
Defined.

(** X25. [cmd_begin] starts character creation and arms its timer. When
    the creator of a WAITING room with at least one active player sends
    [/tw begin] and the handler then runs on without interference, the room
    is in CHARACTER_CREATION with every active player CREATING_CHAR, the
    notice and then the reply have been sent, and a new task, the character
    timer, is asleep and registered under "char_" followed by the room id;
    the handler's own task is done and nothing else has changed.  A second
    [/tw begin] is then rejected. *)
Theorem begin_arms_character_timer (cfg : Config.t) (w : Plugin.t)
    (player_id k : string) (room : Room.t) :
  loop_wf w →
  RoomManager.player_room_map (Plugin.room_manager w) !! player_id = Some k →
  k ≠ "" →
  RoomManager.rooms (Plugin.room_manager w) !! k = Some room →
  player_id = Room.host_id room →
  Room.status room = RoomStatus.WAITING →
  Room.active_players room ≠ [] →
  Plugin.timeout_tasks w !! ("char_" +:+ Room.room_id room) = None →
  ∃ w2,
    run cfg [CmdBegin player_id; Deliver (Plugin.next_task w) Resumed] w = Some w2
    ∧ Plugin.room_manager w2
      = RoomManager.mk
          (<[k := Room.start_character_creation room]>
             (RoomManager.rooms (Plugin.room_manager w)))
          (RoomManager.player_room_map (Plugin.room_manager w))
          (RoomManager.max_rooms (Plugin.room_manager w))
    ∧ Plugin.timeout_tasks w2
      = <["char_" +:+ Room.room_id room := S (Plugin.next_task w)]>
          (Plugin.timeout_tasks w)
    ∧ Plugin.tasks w2
      = <[S (Plugin.next_task w) := CharSleep k]> (Plugin.tasks w)
    ∧ Plugin.cancel_requested w2 = Plugin.cancel_requested w
    ∧ Plugin.next_task w2 = S (S (Plugin.next_task w))
    ∧ Plugin.outbox w2
      = Plugin.outbox w
        ++ [OutBroadcast
              (Room.get_unique_origins (Room.start_character_creation room))
              (NoticeCharacterCreation (Room.room_name room)
                 (Room.char_creation_timeout room));
            OutReply (ReplyText "✅ 已开始角色创建阶段")]
    ∧ cmd_begin player_id w2 = say "❌ 游戏已经开始" w2.
Proof.
  intros Hwf Hidx Hk Hroom Hhost Hst Hact Hnone.
  assert (RoomManager.get_room_by_player player_id (Plugin.room_manager w)
          = Some room) as Hget.
  { unfold RoomManager.get_room_by_player.
    by rewrite Hidx, bool_decide_eq_false_2. }
  pose proof (fresh_not_cancelled w Hwf) as Hfresh.
  assert (Plugin.tasks w !! Plugin.next_task w = None) as Hfree.
  { by apply (wf_fresh w Hwf). }
  cbn [run step]. unfold spawn, cmd_begin.
  cbn [Plugin.room_manager Plugin.set_next_task].
  rewrite Hget, Hidx. cbn [default from_option id].
  unfold Room.is_host. rewrite (bool_decide_eq_true_2 _ Hhost).
  rewrite (bool_decide_eq_true_2 _ Hst). cbn [negb].
  rewrite bool_decide_eq_false_2.
  2:{ unfold Room.get_active_player_count.
      destruct (Room.active_players room); [done|]. simpl. lia. }
  unfold Plugin.broadcast. rewrite deref_store. cbn [mbind option_bind].
  rewrite (store_registered k room) by done.
  match goal with
  | |- context [Plugin.tasks ?x !! _ ≫= _] => set (w1 := x)
  end.
  assert (Plugin.tasks w1 !! Plugin.next_task w = Some (BeginNotice k)) as Ht1.
  { subst w1. simpl. apply lookup_insert_eq. }
  assert (Plugin.deref k w1 = Some (Room.start_character_creation room)) as Hd1.
  { subst w1. unfold Plugin.deref. simpl. by rewrite lookup_insert_eq. }
  rewrite Ht1. cbn [mbind option_bind]. unfold can_resume. cbn [Plugin.joined].
  rewrite bool_decide_eq_true_2 by done. cbn [andb].
  rewrite set_cancel_requested_same by done.
  cbn [resume]. unfold _start_char_creation_timeout. rewrite Hd1.
  cbn [mbind option_bind]. unfold Plugin._stop_timeout.
  change (Room.room_id (Room.start_character_creation room))
    with (Room.room_id room).
  change (Plugin.timeout_tasks w1) with (Plugin.timeout_tasks w).
  rewrite Hnone. unfold _start_char_creation_timeout_register. rewrite Hd1.
  cbn [mbind option_bind].
  eexists. split; [reflexivity|].
  subst w1. simpl.
  split; [done|]. split; [done|]. split.
  { rewrite delete_insert_ne by lia. rewrite delete_insert_eq.
    by rewrite delete_id. }
  split; [set_solver|]. split; [done|]. split; [by rewrite <- app_assoc|].
  unfold cmd_begin, RoomManager.get_room_by_player. simpl.
  rewrite Hidx, (bool_decide_eq_false_2 _ Hk), lookup_insert_eq.
  unfold Room.is_host. simpl. rewrite (bool_decide_eq_true_2 _ Hhost). done.
Qed.

Lemma begin_arms_character_timer_witness :
  ∃ w w2,
    run demo_cfg lobby (Plugin.new 10) = Some w
    ∧ run demo_cfg [CmdBegin "alice"; Deliver 2 Resumed] w = Some w2
    ∧ Plugin.tasks w2 = {[ 3%nat := CharSleep "r1" ]}
    ∧ Plugin.timeout_tasks w2 = {[ "char_r1" := 3%nat ]}
    ∧ cmd_begin "alice" w2 = say "❌ 游戏已经开始" w2.
Proof.
  assert (∃ w room,
            run demo_cfg lobby (Plugin.new 10) = Some w
            ∧ Plugin.tasks w = ∅
            ∧ Plugin.next_task w = 2%nat
            ∧ Plugin.cancel_requested w = ∅
            ∧ Plugin.timeout_tasks w = ∅
            ∧ RoomManager.player_room_map (Plugin.room_manager w) !! "alice"
              = Some "r1"
            ∧ RoomManager.rooms (Plugin.room_manager w) !! "r1" = Some room
            ∧ Room.room_id room = "r1"
            ∧ Room.host_id room = "alice"
            ∧ Room.status room = RoomStatus.WAITING
            ∧ Room.active_players room ≠ [])
    as (w & room & Hw & Htasks & Hnext & Hcancel & Htt & Hidx & Hroom & Hid
        & Hhost & Hst & Hact).
  { eexists _, _. split; [vm_compute; reflexivity|].
    do 5 (split; [by vm_compute|]). split; [vm_compute; reflexivity|].
    by vm_compute. }
  enough (∃ w2,
            run demo_cfg [CmdBegin "alice"; Deliver 2 Resumed] w = Some w2
            ∧ Plugin.tasks w2 = {[ 3%nat := CharSleep "r1" ]}
            ∧ Plugin.timeout_tasks w2 = {[ "char_r1" := 3%nat ]}
            ∧ cmd_begin "alice" w2 = say "❌ 游戏已经开始" w2)
    as (w2 & Hrest).
  { exists w, w2. split; [exact Hw | exact Hrest]. }
  clear Hw.
  destruct (begin_arms_character_timer demo_cfg w "alice" "r1" room)
    as (w2 & Hrun & _ & Htt2 & Htasks2 & _ & _ & _ & Hagain).
  - split.
    + intros t _. rewrite Htasks. apply lookup_empty.
    + intros t Ht. rewrite Hcancel in Ht. set_solver.
  - exact Hidx.
  - done.
  - exact Hroom.
  - by rewrite Hhost.
  - exact Hst.
  - exact Hact.
  - rewrite Htt. apply lookup_empty.
  - rewrite Hnext in *. rewrite Htasks in Htasks2. rewrite Htt, Hid in Htt2.
    exists w2. split_and!; [exact Hrun| |exact Htt2|exact Hagain].
    rewrite Htasks2. done.
Defined.

(** ** The end of the wizard *)

(** X26. What [_handle_confirm] leaves behind, reply by reply, for the
    wizard stored under its player's id and a chunk size of at least 1 (with
    which the call never raises).  When a room was created, it is the room
    [create_room] makes from the wizard's data: the player as creator, the
    name typed (or "冒险"), the world setting, the timeout typed (or the
    default when it is missing or 0), phase WAITING; and the wizard is gone.
    When the creation failed the registry is as before and the wizard is
    gone all the same.  Cancelling removes the wizard; starting over keeps
    only the player's identity and returns to the first step; showing the
    world or the help changes nothing. *)
Theorem confirm_outcomes (cfg : Config.t) (chunk_size : Z)
    (fresh_id key : string) (pending : PendingCreation.t) (txt : text)
    (pending_creations : gmap string PendingCreation.t) (m : RoomManager.t) :
  pending_creations !! key = Some pending →
  PendingCreation.player_id pending = key →
  1 ≤ chunk_size →
  ∃ pending_creations' m' reply,
    _handle_confirm cfg chunk_size fresh_id key pending txt pending_creations m
    = Some (pending_creations', m', reply)
    ∧ match reply with
      | ReplyRoomCreated room =>
          pending_creations' = delete key pending_creations
          ∧ RoomManager.get_room fresh_id m' = Some room
          ∧ RoomManager.player_room_map m' !! key = Some fresh_id
          ∧ RoomManager.player_room_map m !! key = None
          ∧ room
            = Room.mk fresh_id (str_or (PendingCreation.room_name pending) "冒险")
                key (PendingCreation.player_umo pending)
                (default [] (PendingCreation.world_setting pending))
                (PendingCreation.original_world_setting pending)
                RoomStatus.WAITING false
                [(key, Player.new key (PendingCreation.player_name pending)
                         (PendingCreation.player_umo pending))]
                []
                (timeout_or (PendingCreation.timeout pending)
                   (Config.default_timeout cfg))
                (Config.char_creation_timeout cfg) PendingConfig.new 0 []
      | ReplyCreateFailed =>
          pending_creations' = delete key pending_creations ∧ m' = m
          ∧ (RoomManager.can_create_room m = false
             ∨ is_Some (RoomManager.player_room_map m !! key))
      | ReplyCreationCancelled =>
          pending_creations' = delete key pending_creations ∧ m' = m
      | ReplyRestart =>
          m' = m
          ∧ pending_creations'
            = <[key := PendingCreation.mk key
                         (PendingCreation.player_name pending)
                         (PendingCreation.player_umo pending)
                         CreationStep.ROOM_NAME None None None None]>
                pending_creations
      | ReplyConfirmHelp => pending_creations' = pending_creations ∧ m' = m
      | ReplyFullWorld chunks =>
          pending_creations' = pending_creations ∧ m' = m
          ∧ _split_text chunk_size
              (default [] (PendingCreation.world_setting pending))
            = Some chunks
      | _ => False
      end.
Proof.
  intros Hkey Hid Hcs. unfold _handle_confirm. rewrite Hid, Hkey.
  destruct (text_in _ [kw_view_full_zh; kw_view_zh; lit "full"; lit "view";
                       kw_full_zh]).
  { destruct (split_text_total chunk_size
                (default [] (PendingCreation.world_setting pending)) Hcs)
      as [chunks ->].
    simpl. eexists _, _, _. split; [done|]. done. }
  destruct (text_in _ [kw_confirm_zh; lit "y"; lit "yes"; lit "ok"; kw_sure_zh]).
  { unfold RoomManager.create_room.
    destruct (negb (RoomManager.can_create_room m)) eqn:Hcan; simpl.
    - rewrite ?(bool_decide_eq_true_2 (is_Some (Some pending))) by eauto.
      eexists _, _, _. split; [done|]. simpl. split_and!; [done|done|].
      left. by destruct (RoomManager.can_create_room m).
    - case_bool_decide as Hidx; simpl.
      + rewrite ?(bool_decide_eq_true_2 (is_Some (Some pending))) by eauto.
        eexists _, _, _. split; [done|]. simpl. split_and!; [done|done|].
        by right.
      + rewrite ?(bool_decide_eq_true_2 (is_Some (Some pending))) by eauto.
        eexists _, _, _. split; [done|]. simpl.
        unfold RoomManager.get_room. simpl. rewrite !lookup_insert_eq.
        split_and!; try done.
        destruct (RoomManager.player_room_map m !! key) eqn:E; [|done].
        destruct Hidx. eauto. }
  destruct (text_in _ [kw_cancel_zh; lit "n"; lit "no"; lit "cancel"]).
  { rewrite ?(bool_decide_eq_true_2 (is_Some (Some pending))) by eauto.
    eexists _, _, _. split; [done|]. done. }
  destruct (text_in _ [kw_restart_zh; lit "restart"; lit "reset"]).
  { eexists _, _, _. split; [done|]. done. }
  eexists _, _, _. split; [done|]. done.
Qed.

Lemma confirm_outcomes_witness :
  ∃ m' room,
    _handle_confirm demo_cfg 1000 "r1" "alice" wizard_at_confirm (lit "Yes")
      {["alice" := wizard_at_confirm]} (RoomManager.new 10)
    = Some (∅, m', ReplyRoomCreated room)
    ∧ Room.timeout room = 120
    ∧ RoomManager.get_room "r1" m' = Some room.
Proof.
  destruct (confirm_outcomes demo_cfg 1000 "r1" "alice" wizard_at_confirm
              (lit "Yes") {["alice" := wizard_at_confirm]} (RoomManager.new 10))
    as (pcs' & m' & reply & Hrun & Hreply).
  - apply lookup_singleton_eq.
  - done.
  - lia.
  - assert (∃ room, reply = ReplyRoomCreated room) as [room ->].
    { clear Hreply. vm_compute in Hrun. injection Hrun as _ _ <-. eauto. }
    destruct Hreply as (-> & Hget & _ & _ & ->).
    eexists m', _. rewrite delete_singleton_eq in Hrun.
    split; [exact Hrun|]. split; [done|exact Hget].
Defined.

(** X27. One wizard per player. [cmd_start] opens a wizard, at its first
    step and with nothing entered, exactly when the player is in no room, has
    no wizard yet and the registry has room for another room; otherwise the
    table of wizards is left as it was.  While the wizard is open a second
    [cmd_start] is refused; [cmd_cancel] removes it and restores the table
    exactly, and [cmd_cancel] without a wizard changes nothing. *)
Theorem one_wizard_per_player (player_id player_name umo : string)
    (pending_creations : gmap string PendingCreation.t) (m : RoomManager.t) :
  let res := cmd_start player_id player_name umo pending_creations m in
  (res.2 = ReplyWizardStarted
   ↔ RoomManager.get_room_by_player player_id m = None
     ∧ pending_creations !! player_id = None
     ∧ Z.of_nat (size (RoomManager.rooms m)) < RoomManager.max_rooms m)
  ∧ (res.2 ≠ ReplyWizardStarted → res.1 = pending_creations)
  ∧ (res.2 = ReplyWizardStarted →
     res.1 !! player_id
     = Some (PendingCreation.mk player_id player_name umo
               CreationStep.ROOM_NAME None None None None)
     ∧ (∀ name' umo',
          cmd_start player_id name' umo' res.1 m = (res.1, ReplyAlreadyCreating))
     ∧ cmd_cancel player_id res.1 = (pending_creations, ReplyCancelDone))
  ∧ (pending_creations !! player_id = None →
     cmd_cancel player_id pending_creations
     = (pending_creations, ReplyNothingToCancel)).
Proof.
  intros res. subst res. unfold cmd_start, RoomManager.can_create_room.
  assert (pending_creations !! player_id = None →
          cmd_cancel player_id pending_creations
          = (pending_creations, ReplyNothingToCancel)) as Hcancel.
  { intros Hnone. unfold cmd_cancel. by rewrite Hnone. }
  destruct (RoomManager.get_room_by_player player_id m) as [room|] eqn:Hget.
  { simpl. split_and!; try done.
    split; [done|]. intros [? _]. done. }
  destruct (pending_creations !! player_id) as [p|] eqn:Hp.
  { rewrite bool_decide_eq_true_2 by eauto. simpl. split_and!; try done.
    split; [done|]. intros (_ & ? & _). done. }
  rewrite bool_decide_eq_false_2 by (by intros [? ?]).
  case_bool_decide as Hsz; simpl.
  - split_and!; try done.
    intros _. rewrite lookup_insert_eq. split_and!; [done| |].
    + intros name' umo'. rewrite ?lookup_insert_eq.
      by rewrite bool_decide_eq_true_2 by eauto.
    + unfold cmd_cancel. rewrite ?lookup_insert_eq.
      by rewrite delete_insert_eq, delete_id.
  - split_and!; try done.
    split; [done|]. intros (_ & _ & ?). done.
Qed.

(** ** The engine and the registry *)

Section follows_facts.
Import Plugin.
Variable cfg : Config.t.
Implicit Types (w : Plugin.t) (m : RoomManager.t) (r : Room.t).

Lemma advances_refl r : advances r r.
Proof. by split_and!. Qed.

Lemma advances_trans r1 r2 r3 : advances r1 r2 → advances r2 r3 → advances r1 r3.
Proof.
  intros (? & ? & ? & ?) (? & ? & ? & ?). split_and!; try congruence; [lia|].
  by etrans.
Qed.

Lemma follows_refl m : follows m m.
Proof. split; [done|]. intros k r' Hr. exists r'. split; [done|apply advances_refl]. Qed.

Lemma follows_trans m1 m2 m3 : follows m1 m2 → follows m2 m3 → follows m1 m3.
Proof.
  intros [Hi1 Hd1] [Hi2 Hd2]. split; [auto|].
  intros k r3 Hr3. destruct (Hd2 _ _ Hr3) as (r2 & Hr2 & Ha2).
  destruct (Hd1 _ _ Hr2) as (r1 & Hr1 & Ha1). exists r1. split; [done|].
  by eapply advances_trans.
Qed.

Lemma same_players_keys r r' :
  same_players r r' → members r' = members r.
Proof.
  intros (_ & Ha & Hp). unfold members, Dict.keys.
  assert (∀ d : Dict.t Player.t, d.*1 = (prod_map id Player.player_id <$> d).*1)
    as Hfst.
  { intros d. rewrite <- list_fmap_compose. apply list_fmap_ext.
    by intros i [k p] _. }
  by rewrite (Hfst (Room.active_players r')), (Hfst (Room.pending_players r')),
    Ha, Hp, <- !Hfst.
Qed.

Lemma same_players_wf rid r r' :
  room_wf rid r → same_players r r' → room_wf rid r'.
Proof.
  intros [Hid Hnd Hids] Hsame. pose proof (same_players_keys r r' Hsame) as Hm.
  destruct Hsame as (Hid' & Ha & Hp). split.
  - congruence.
  - by rewrite Hm.
  - intros k p Hin.
    assert ((k, Player.player_id p)
            ∈ prod_map id Player.player_id
                <$> (Room.active_players r ++ Room.pending_players r)) as Hin'.
    { rewrite fmap_app, <- Ha, <- Hp, <- fmap_app.
      apply list_elem_of_fmap. by exists (k, p). }
    apply list_elem_of_fmap in Hin' as ([k0 p0] & [= -> Hpid] & Hin0).
    rewrite Hpid. by apply Hids.
Qed.

Lemma same_players_map_values (f : Player.t → Player.t) r :
  (∀ p, Player.player_id (f p) = Player.player_id p) →
  same_players r
    (Room.set_active_players (Dict.map_values f (Room.active_players r)) r).
Proof.
  intros Hf. split_and!; [done| |done]. simpl. unfold Dict.map_values.
  rewrite <- list_fmap_compose. apply list_fmap_ext. intros i [k p] _. simpl.
  unfold prod_map. simpl. by rewrite Hf.
Qed.

Lemma same_players_mapped (f : Player.t → Player.t) r r0 :
  (∀ p, Player.player_id (f p) = Player.player_id p) →
  Room.room_id r0 = Room.room_id r →
  Room.active_players r0 = Dict.map_values f (Room.active_players r) →
  Room.pending_players r0 = Room.pending_players r →
  same_players r r0.
Proof.
  intros Hf Hid Ha Hp. split_and!; [done| |by rewrite Hp]. rewrite Ha.
  unfold Dict.map_values.
  rewrite <- list_fmap_compose. apply list_fmap_ext. intros i [k p] _. simpl.
  unfold prod_map. simpl. by rewrite Hf.
Qed.

Lemma same_players_trans r1 r2 r3 :
  same_players r1 r2 → same_players r2 r3 → same_players r1 r3.
Proof. intros (? & ? & ?) (? & ? & ?). split_and!; congruence. Qed.

Lemma same_players_set r pid p p' :
  Dict.get pid (Room.active_players r) = Some p →
  Player.player_id p' = Player.player_id p →
  same_players r
    (Room.set_active_players (Dict.set pid p' (Room.active_players r)) r).
Proof.
  intros Hget Hid. split_and!; [done| |done]. simpl.
  induction (Room.active_players r) as [|[k0 p0] d IH]; [done|].
  simpl in *. destruct (decide (pid = k0)) as [->|Hne].
  - injection Hget as ->. simpl. by rewrite Hid.
  - simpl. f_equal. by apply IH.
Qed.

(** Replacing a room by a later state of itself with the same players. *)
Lemma follows_update m k r r' :
  RoomManager.rooms m !! k = Some r →
  (registry_inv m → same_players r r') → advances r r' →
  follows m
    (RoomManager.mk (<[k := r']> (RoomManager.rooms m))
       (RoomManager.player_room_map m) (RoomManager.max_rooms m)).
Proof.
  intros Hr Hsame Hadv. split.
  - intros Hinv. specialize (Hsame Hinv). eapply update_room_inv; [done|done| |].
    + eapply same_players_wf; [|done]. by apply Hinv.
    + by apply same_players_keys.
  - intros k' r0. simpl. intros [[<- <-]|[Hne Hr0]]%lookup_insert_Some.
    + eauto.
    + exists r0. split; [done|apply advances_refl].
Qed.

Lemma follows_store k r r' w :
  deref k w = Some r →
  (registry_inv (room_manager w) → same_players r r') → advances r r' →
  follows (room_manager w) (room_manager (store k r' w)).
Proof.
  intros Hd Hsame Hadv. unfold store, deref in *.
  destruct (RoomManager.rooms (room_manager w) !! k) as [r0|] eqn:Er.
  - injection Hd as ->. rewrite bool_decide_eq_true_2 by eauto. simpl.
    by apply (follows_update _ k r).
  - rewrite bool_decide_eq_false_2 by (by intros [? ?]). simpl.
    apply follows_refl.
Qed.

Lemma follows_close_room room_id m :
  follows m (RoomManager.close_room room_id m).2.
Proof.
  split; [apply close_room_inv|]. intros k r'. rewrite close_room_rooms.
  intros [_ Hr]%lookup_delete_Some. exists r'. split; [done|apply advances_refl].
Qed.

Lemma follows_join_room rid pid name umo max m :
  follows m (RoomManager.join_room rid pid name umo max m).2.
Proof.
  split; [apply join_room_inv|]. intros k r'.
  unfold RoomManager.join_room, RoomManager.get_room.
  destruct (RoomManager.rooms m !! rid) as [room|] eqn:Eroom; simpl;
    [|intros Hr; exists r'; split; [done|apply advances_refl]].
  repeat (case_bool_decide; simpl;
          try (intros Hr; exists r'; split; [done|apply advances_refl])).
  all: try (rewrite orb_true_r || rewrite orb_true_l); simpl;
    try (intros Hr; exists r'; split; [done|apply advances_refl]).
  intros [[<- <-]|[Hne Hr]]%lookup_insert_Some.
  - exists room. split; [done|]. by destruct (Room.paused room); split_and!.
  - exists r'. split; [done|apply advances_refl].
Qed.

Lemma room_manager_request_cancel fuel h w :
  room_manager (request_cancel fuel h w) = room_manager w.
Proof.
  destruct (request_cancel_only_cancel fuel h w) as (c & -> & _). done.
Qed.

Lemma room_manager_stop_timeout task_id w :
  room_manager (_stop_timeout task_id w).1 = room_manager w.
Proof.
  unfold _stop_timeout. destruct (timeout_tasks w !! task_id); [|done].
  case_bool_decide; simpl; [|done]. by rewrite room_manager_request_cancel.
Qed.

Lemma room_manager_broadcast k n w w1 :
  broadcast k n w = Some w1 → room_manager w1 = room_manager w.
Proof.
  unfold broadcast. destruct (deref k w); [|done]. by intros [= <-].
Qed.

(** The coroutines that leave the registry alone. *)
Local Abbreviation quiet f :=
  (∀ w w1 next, f w = Some (w1, next) → room_manager w1 = room_manager w).

Lemma quiet_start_timeout_register k : quiet (_start_timeout_register k).
Proof.
  intros w w1 next. unfold _start_timeout_register.
  destruct (deref k w); [|done]. by intros [= <- <-].
Qed.

Lemma quiet_start_timeout k : quiet (_start_timeout k).
Proof.
  intros w w1 next. unfold _start_timeout.
  destruct (deref k w) as [room|]; [|done]. cbn [mbind option_bind].
  pose proof (room_manager_stop_timeout (Room.room_id room) w) as Hs.
  destruct (_stop_timeout (Room.room_id room) w) as [w2 [h|]]; simpl in Hs.
  - by intros [= <- <-].
  - intros Hreg. apply quiet_start_timeout_register in Hreg. congruence.
Qed.

Lemma quiet_start_char_register k :
  quiet (_start_char_creation_timeout_register k).
Proof.
  intros w w1 next. unfold _start_char_creation_timeout_register.
  destruct (deref k w); [|done]. by intros [= <- <-].
Qed.

Lemma quiet_start_char_timeout k : quiet (_start_char_creation_timeout k).
Proof.
  intros w w1 next. unfold _start_char_creation_timeout.
  destruct (deref k w) as [room|]; [|done]. cbn [mbind option_bind].
  pose proof (room_manager_stop_timeout ("char_" +:+ Room.room_id room) w) as Hs.
  destruct (_stop_timeout ("char_" +:+ Room.room_id room) w) as [w2 [h|]];
    simpl in Hs.
  - by intros [= <- <-].
  - intros Hreg. apply quiet_start_char_register in Hreg. congruence.
Qed.

Lemma quiet_process_round_except k : quiet (_process_round_except k).
Proof.
  intros w w1 next. unfold _process_round_except.
  destruct (broadcast k NoticeRoundError w) eqn:Eb; [|done].
  intros [= <- <-]. by eapply room_manager_broadcast.
Qed.

Lemma quiet_process_round k : quiet (_process_round k).
Proof.
  intros w w1 next. unfold _process_round.
  destruct (deref k w); [|done]. cbn [mbind option_bind].
  case_bool_decide; [|by intros [= <- <-]].
  destruct (broadcast k NoticeNoActions w) eqn:Eb; [|done].
  intros [= <- <-]. by eapply room_manager_broadcast.
Qed.

Lemma quiet_process_round_provider k actions o :
  quiet (_process_round_provider k actions o).
Proof.
  destruct o as [|id]; simpl; [apply quiet_process_round_except|].
  intros w w1 next. destruct (truthy id); simpl; [by intros [= <- <-]|].
  destruct (broadcast k NoticeNoProvider w) eqn:Eb; [|done].
  intros [= <- <-]. by eapply room_manager_broadcast.
Qed.

Lemma quiet_round_check_decide room_id : quiet (round_check_decide room_id).
Proof.
  intros w w1 next. unfold round_check_decide.
  destruct (deref room_id w) as [r|]; [|done]. cbn [mbind option_bind].
  destruct (Room.check_all_players_timeout r); [|apply quiet_process_round].
  destruct (broadcast room_id NoticeAllTimeout w) eqn:Eb; [|done].
  intros [= <- <-]. by eapply room_manager_broadcast.
Qed.

Lemma quiet_start_game_broadcast k opening :
  quiet (_start_game_broadcast k opening).
Proof.
  intros w w1 next. unfold _start_game_broadcast.
  destruct (deref k w) as [room|]; [|done]. cbn [mbind option_bind].
  match goal with
  | |- context [broadcast ?k ?n ?w] => destruct (broadcast k n w) eqn:Eb
  end; [|done].
  intros [= <- <-]. by eapply room_manager_broadcast.
Qed.

Lemma quiet_generate_opening_provider k o :
  quiet (_generate_opening_provider k o).
Proof.
  destruct o as [|id]; simpl; [apply quiet_start_game_broadcast|].
  destruct (truthy id); simpl; [|apply quiet_start_game_broadcast].
  by intros w w1 next [= <- <-].
Qed.

Lemma quiet_generate_opening_llm k o : quiet (_generate_opening_llm k o).
Proof. destruct o; simpl; apply quiet_start_game_broadcast. Qed.

Lemma quiet_cmd_act_check k : quiet (cmd_act_check k).
Proof.
  intros w w1 next. unfold cmd_act_check.
  destruct (deref k w) as [room|]; [|done]. cbn [mbind option_bind].
  destruct (Room.check_all_players_acted room); [apply quiet_process_round|].
  by intros [= <- <-].
Qed.

(** The coroutines that update a room in place, or close it. *)
Local Abbreviation gentle f :=
  (∀ (w w1 : Plugin.t) (next : option Pc),
     f w = Some (w1, next) → follows (room_manager w) (room_manager w1)).

Lemma quiet_gentle f : quiet f → gentle f.
Proof. intros Hq w w1 next Hf. rewrite (Hq _ _ _ Hf). apply follows_refl. Qed.

Lemma gentle_process_round_llm k actions o :
  gentle (_process_round_llm k actions o).
Proof.
  destruct o as [|resp]; simpl;
    [apply quiet_gentle, quiet_process_round_except|].
  intros w w1 next. destruct (deref k w) as [room|] eqn:Ed; [|done].
  cbn [mbind option_bind].
  match goal with
  | |- context [broadcast ?k ?n ?w] => destruct (broadcast k n w) eqn:Eb
  end; [|done].
  cbn [mbind option_bind]. intros [= <- <-].
  rewrite (room_manager_broadcast _ _ _ _ Eb).
  apply (follows_store k room); [done| |].
  - intros _. by split_and!.
  - split_and!; simpl; [done|done|lia|]. by apply prefix_app_r.
Qed.

Lemma gentle_process_round_next k : gentle (_process_round_next k).
Proof.
  intros w w1 next. unfold _process_round_next.
  destruct (deref k w) as [room|] eqn:Ed; [|done]. cbn [mbind option_bind].
  intros Hs. rewrite (quiet_start_timeout _ _ _ _ Hs).
  apply (follows_store k room); [done| |].
  - intros _. by apply (same_players_mapped Player.reset_for_new_round).
  - split_and!; simpl; [done|done|lia|done].
Qed.

Lemma gentle_round_check_fire room_id : gentle (round_check_fire room_id).
Proof.
  intros w w1 next. unfold round_check_fire, RoomManager.get_room.
  destruct (RoomManager.rooms (room_manager w) !! room_id) as [r|] eqn:Er;
    [|intros [= <- <-]; apply follows_refl].
  destruct (Room.paused r || negb _); [intros [= <- <-]; apply follows_refl|].
  assert (follows (room_manager w)
            (room_manager (store room_id (mark_timeouts r) w))) as Hst.
  { apply (follows_store room_id r); [by apply deref_registered| |].
    - intros _. apply same_players_map_values. intros p.
      by case_bool_decide.
    - by split_and!. }
  case_bool_decide.
  - intros Hd. by rewrite (quiet_round_check_decide _ _ _ _ Hd).
  - match goal with
    | |- context [broadcast ?k ?n ?w] => destruct (broadcast k n w) eqn:Eb
    end; [|done].
    cbn [mbind option_bind]. intros [= <- <-].
    by rewrite (room_manager_broadcast _ _ _ _ Eb).
Qed.

Lemma gentle_start_game_after_characters k :
  gentle (_start_game_after_characters k).
Proof.
  intros w w1 next. unfold _start_game_after_characters.
  destruct (deref k w) as [room|] eqn:Ed; [|done]. cbn [mbind option_bind].
  intros [= <- <-]. apply (follows_store k room); [done| |].
  - intros _. by apply (same_players_mapped Player.reset_for_new_round).
  - split_and!; simpl; [done|done|lia|done].
Qed.

Lemma gentle_char_check_fire k : gentle (char_check_fire k).
Proof.
  intros w w1 next. unfold char_check_fire, RoomManager.get_room.
  destruct (deref k w) as [room|] eqn:Ed; [|done]. cbn [mbind option_bind].
  destruct (RoomManager.rooms (room_manager w) !! Room.room_id room)
    as [r|] eqn:Er; [|intros [= <- <-]; apply follows_refl].
  destruct (negb _); [intros [= <- <-]; apply follows_refl|].
  assert (follows (room_manager w)
            (room_manager
               (store (Room.room_id room) (assign_default_characters r) w)))
    as Hst.
  { apply (follows_store (Room.room_id room) r); [by apply deref_registered| |].
    - intros _. apply same_players_map_values. intros p.
      by case_bool_decide.
    - by split_and!. }
  case_bool_decide.
  - intros Hg. eapply follows_trans; [exact Hst|].
    by eapply gentle_start_game_after_characters.
  - match goal with
    | |- context [broadcast ?k ?n ?w] => destruct (broadcast k n w) eqn:Eb
    end; [|done].
    cbn [mbind option_bind]. intros [= <- <-].
    by rewrite (room_manager_broadcast _ _ _ _ Eb).
Qed.

Lemma gentle_resume pc a : gentle (resume pc a).
Proof.
  destruct pc, a; cbn [resume];
    first
      [ apply quiet_gentle, quiet_start_timeout_register
      | apply quiet_gentle, quiet_start_timeout
      | apply quiet_gentle, quiet_start_char_register
      | apply quiet_gentle, quiet_start_char_timeout
      | apply quiet_gentle, quiet_process_round_provider
      | apply gentle_process_round_llm
      | apply gentle_process_round_next
      | apply quiet_gentle, quiet_round_check_decide
      | apply gentle_round_check_fire
      | apply gentle_start_game_after_characters
      | apply quiet_gentle, quiet_generate_opening_provider
      | apply quiet_gentle, quiet_generate_opening_llm
      | apply gentle_char_check_fire
      | apply quiet_gentle, quiet_cmd_act_check
      | intros w w1 next [= <- <-]; apply follows_refl
      | intros w w1 next Hf; discriminate Hf
      | idtac ].
  intros w w1 next [= <- <-]. unfold close_room, RoomManager.get_room.
  destruct (RoomManager.rooms (room_manager w) !! room_id) as [r|] eqn:Er;
    [|apply follows_refl].
  simpl. apply follows_close_room.
Qed.

Lemma gentle_say s : gentle (say s).
Proof. intros w w1 next [= <- <-]. apply follows_refl. Qed.

Lemma gentle_cmd_join room_id player_id player_name umo :
  gentle (cmd_join cfg room_id player_id player_name umo).
Proof.
  intros w w1 next. unfold cmd_join.
  case_bool_decide; [apply gentle_say|].
  pose proof (follows_join_room room_id player_id player_name umo
                (Config.max_players cfg) (room_manager w)) as Hj.
  destruct (RoomManager.join_room _ _ _ _ _ _) as [[[|] msg] m']; simpl in Hj.
  - intros [= <- <-]. simpl. by destruct (RoomManager.get_room room_id m').
  - by intros [= <- <-].
Qed.

Lemma gentle_cmd_begin player_id : gentle (cmd_begin player_id).
Proof.
  intros w w1 next. unfold cmd_begin.
  destruct (RoomManager.get_room_by_player _ _) as [room|] eqn:Hget;
    [|apply gentle_say].
  apply get_room_by_player_Some in Hget as (key & Hkey & Hroom).
  rewrite Hkey. cbn [default from_option id].
  destruct (negb (Room.is_host _ _)); [apply gentle_say|].
  destruct (negb (bool_decide _)); [apply gentle_say|].
  case_bool_decide; [apply gentle_say|].
  match goal with
  | |- context [broadcast ?k ?n ?w] => destruct (broadcast k n w) eqn:Eb
  end; [|done].
  cbn [mbind option_bind]. intros [= <- <-].
  rewrite (room_manager_broadcast _ _ _ _ Eb).
  apply (follows_store key room); [by apply deref_registered| |].
  - intros _.
    by apply (same_players_mapped
                (Player.set_status PlayerStatus.CREATING_CHAR)).
  - by split_and!.
Qed.

Lemma gentle_cmd_act player_id action : gentle (cmd_act player_id action).
Proof.
  intros w w1 next. unfold cmd_act.
  case_bool_decide; [apply gentle_say|].
  destruct (RoomManager.get_room_by_player _ _) as [room|] eqn:Hget;
    [|apply gentle_say].
  apply get_room_by_player_Some in Hget as (key & Hkey & Hroom).
  rewrite Hkey. cbn [default from_option id].
  destruct (Room.paused room); [apply gentle_say|].
  destruct (negb (bool_decide _)); [apply gentle_say|].
  destruct (Dict.get _ _) as [player|] eqn:Hpl; [|apply gentle_say].
  case_bool_decide; [apply gentle_say|].
  intros [= <- <-]. simpl.
  apply (follows_store key room); [by apply deref_registered| |].
  - intros _. by eapply same_players_set.
  - by split_and!.
Qed.

Lemma room_manager_suspend tid next w :
  room_manager (suspend tid next w) = room_manager w.
Proof. by destruct next. Qed.

Lemma spawn_follows body w w' :
  gentle body → spawn body w = Some w' →
  follows (room_manager w) (room_manager w').
Proof.
  intros Hbody. unfold spawn.
  destruct (body (set_next_task (S (next_task w)) w)) as [[w1 next]|] eqn:Eb;
    [|done].
  cbn [mbind option_bind]. intros [= <-]. rewrite room_manager_suspend.
  by apply Hbody in Eb.
Qed.

(** A step other than a quick-start: every room is a later state of itself. *)
Lemma step_follows e w w' :
  (∀ fresh_id player_id player_name umo room_name,
     e ≠ CmdQuickstart fresh_id player_id player_name umo room_name) →
  step cfg e w = Some w' → follows (room_manager w) (room_manager w').
Proof.
  intros Hq. destruct e as [? ? ? ? ?|? ? ? ?|?|? ?|tid a]; cbn [step].
  - by destruct (Hq fresh_id player_id player_name umo room_name).
  - apply spawn_follows, gentle_cmd_join.
  - apply spawn_follows, gentle_cmd_begin.
  - apply spawn_follows, gentle_cmd_act.
  - destruct (tasks w !! tid) as [pc|]; [|done]. cbn [mbind option_bind].
    destruct (can_resume tid pc a w); [|done].
    destruct (resume pc a _) as [[w1 next]|] eqn:Er; [|done].
    cbn [mbind option_bind]. intros [= <-]. rewrite room_manager_suspend.
    by apply gentle_resume in Er.
Qed.

(** A quick-start: the registry after [create_room]. *)
Lemma step_quickstart fresh_id player_id player_name umo room_name w w' :
  step cfg (CmdQuickstart fresh_id player_id player_name umo room_name) w
  = Some w' →
  room_manager w' = room_manager w
  ∨ ∃ world,
      room_manager w'
      = (RoomManager.create_room fresh_id player_id player_name umo room_name
           world (Config.default_timeout cfg)
           (Config.char_creation_timeout cfg) None (room_manager w)).2.
Proof.
  cbn [step]. unfold spawn, cmd_quickstart.
  cbn [room_manager set_next_task].
  destruct (RoomManager.get_room_by_player player_id (room_manager w)).
  - simpl. intros [= <-]. by left.
  - match goal with
    | |- context [RoomManager.create_room ?a ?b ?c ?d ?e ?f ?g ?h ?i ?j] =>
        destruct (RoomManager.create_room a b c d e f g h i j)
          as [[room|] m'] eqn:Ec
    end; simpl; intros [= <-]; right; eexists; simpl; by rewrite Ec.
Qed.

Lemma step_registry_inv e w w' :
  draws_fresh cfg [e] w → step cfg e w = Some w' →
  registry_inv (room_manager w) → registry_inv (room_manager w').
Proof.
  intros [Hfresh _] Hstep Hinv.
  destruct e as [fresh_id player_id player_name umo room_name|? ? ? ?|?|? ?|tid a];
    try (by eapply step_follows; [|exact Hstep|exact Hinv]).
  destruct (step_quickstart _ _ _ _ _ _ _ Hstep) as [->|[world ->]]; [done|].
  by apply create_room_inv.
Qed.

Lemma step_advances e w w' k r r' :
  draws_fresh cfg [e] w → step cfg e w = Some w' →
  RoomManager.rooms (room_manager w) !! k = Some r →
  RoomManager.rooms (room_manager w') !! k = Some r' →
  advances r r'.
Proof.
  intros [Hfresh _] Hstep Hr Hr'.
  destruct e as [fresh_id player_id player_name umo room_name|? ? ? ?|?|? ?|tid a].
  2-5: (eapply step_follows in Hstep as [_ Hd]; [|done];
        destruct (Hd _ _ Hr') as (r0 & Hr0 & Hadv); by simplify_eq).
  destruct (step_quickstart _ _ _ _ _ _ _ Hstep) as [Heq|[world Heq]];
    rewrite Heq in Hr'.
  - simplify_eq. apply advances_refl.
  - unfold RoomManager.create_room in Hr'.
    destruct (negb _ || _); simpl in Hr'.
    + simplify_eq. apply advances_refl.
    + rewrite lookup_insert_ne in Hr' by (intros ->; congruence).
      simplify_eq. apply advances_refl.
Qed.
End follows_facts.

(** X28. The reverse index stays exact while games are played. In every
    state the plugin can reach through commands and resumed tasks, each
    quick-start drawing a room id that is not in use, the registry is
    consistent: every room is stored under its own id with no identity twice
    among its active and pending players, and the reverse index maps a player
    to a room id exactly when that room is registered and has the player. *)
Theorem reachable_registry_is_consistent (cfg : Config.t) (max_rooms : Z)
    (es : list Event) (w : Plugin.t) :
  draws_fresh cfg es (Plugin.new max_rooms) →
  run cfg es (Plugin.new max_rooms) = Some w →
  registry_inv (Plugin.room_manager w).
Proof.
  assert (∀ es w0 w, registry_inv (Plugin.room_manager w0) →
                     draws_fresh cfg es w0 → run cfg es w0 = Some w →
                     registry_inv (Plugin.room_manager w)) as Hrun.
  { clear. induction es as [|e es IH]; intros w0 w Hinv Hfresh; simpl.
    - by intros [= <-].
    - destruct Hfresh as [He Hes].
      destruct (step cfg e w0) as [w1|] eqn:Es; [|done]. simpl.
      apply IH; [|done]. eapply step_registry_inv; [|exact Es|exact Hinv].
      simpl. by rewrite Es. }
  apply Hrun. apply registry_inv_new.
Qed.

Lemma reachable_registry_is_consistent_witness :
  ∃ w, run demo_cfg (both_acted ++ race_to_the_end) (Plugin.new 10) = Some w
       ∧ registry_inv (Plugin.room_manager w).
Proof.
  assert (∃ w, run demo_cfg (both_acted ++ race_to_the_end) (Plugin.new 10)
               = Some w) as [w Hw].
  { eexists. vm_compute. reflexivity. }
  exists w. split; [exact Hw|].
  apply (reachable_registry_is_consistent demo_cfg 10
           (both_acted ++ race_to_the_end) w); [|exact Hw].
  clear Hw. vm_compute. repeat split.
Defined.

(** X29. A game only moves forward. Across any step of the plugin (a
    quick-start, join, begin or act command, or a task resumed or cancelled;
    a quick-start drawing an unused id), a room that is registered before
    and after keeps its id and its creator, its round number does not go
    down, and its history is only extended at the end: no step rewrites or
    drops a recorded round. *)
Theorem games_only_advance (cfg : Config.t) (e : Event) (w w' : Plugin.t)
    (k : string) (r r' : Room.t) :
  draws_fresh cfg [e] w →
  step cfg e w = Some w' →
  RoomManager.rooms (Plugin.room_manager w) !! k = Some r →
  RoomManager.rooms (Plugin.room_manager w') !! k = Some r' →
  Room.room_id r' = Room.room_id r
  ∧ Room.host_id r' = Room.host_id r
  ∧ Room.current_round r ≤ Room.current_round r'
  ∧ Room.history r `prefix_of` Room.history r'.
Proof. apply step_advances. Qed.

Lemma games_only_advance_witness :
  ∃ w w' r r',
    run demo_cfg (both_acted ++ [Deliver 6 Resumed; Deliver 6 provider_ok])
      (Plugin.new 10) = Some w
    ∧ step demo_cfg (Deliver 6 (narrates "b")) w = Some w'
    ∧ room_r1 w = Some r ∧ room_r1 w' = Some r'
    ∧ Room.history r = []
    ∧ Room.history r'
      = [GameHistory.mk 1 [("Alice", "look"); ("Bob", "run")] (lit "b")]
    ∧ Room.current_round r ≤ Room.current_round r'
    ∧ Room.history r `prefix_of` Room.history r'.
Proof.
  assert (∃ w w' r r',
            run demo_cfg (both_acted ++ [Deliver 6 Resumed; Deliver 6 provider_ok])
              (Plugin.new 10) = Some w
            ∧ step demo_cfg (Deliver 6 (narrates "b")) w = Some w'
            ∧ room_r1 w = Some r ∧ room_r1 w' = Some r'
            ∧ Room.history r = []
            ∧ Room.history r'
              = [GameHistory.mk 1 [("Alice", "look"); ("Bob", "run")] (lit "b")])
    as (w & w' & r & r' & Hw & Hstep & Hr & Hr' & Hh & Hh').
  { eexists _, _, _, _. split; [vm_compute; reflexivity|].
    split; [vm_compute; reflexivity|]. split; [vm_compute; reflexivity|].
    split; [vm_compute; reflexivity|]. split; vm_compute; reflexivity. }
  exists w, w', r, r'.
  split; [exact Hw|]. split; [exact Hstep|]. split; [exact Hr|].
  split; [exact Hr'|]. split; [exact Hh|]. split; [exact Hh'|].
  clear Hw Hh Hh'.
  assert (draws_fresh demo_cfg [Deliver 6 (narrates "b")] w) as Hfresh.
  { split; [exact I|]. rewrite Hstep. exact I. }
  destruct (games_only_advance demo_cfg (Deliver 6 (narrates "b")) w w' "r1" r r'
              Hfresh Hstep Hr Hr') as (_ & _ & Hround & Hhist).
  split; [exact Hround|exact Hhist].
Defined.
